(** * format-config-v1.go: discovery, checking and healing of `format.json`

    A shallow embedding of the XL format core of the object store (source
    file [format-config-v1.go]) and the properties of it that the
    specification states.

    Conventions of the embedding:
    - a Go [int] is a [Z]; every integer of this file is a length or a
      counter bounded by a length, so no operation wraps around;
    - a Go [string] is a [string], a slice is a [list], [len] is [len];
    - a pointer that may be [nil] is an [option]; dereferencing [nil]
      panics, and so does indexing a slice out of range: a function that can
      do either returns in the [go] monad;
    - an [error] value is an [option error], [None] being [nil]. *)

From Stdlib Require Import ZArith Ascii String List Lia.
From stdpp Require Import base list strings gmap pretty.

Open Scope string_scope.
Open Scope Z_scope.
Open Scope list_scope.

(** ** Go run-time *)

Inductive panic : Type :=
  | nilDereference
  | indexOutOfRange.

Inductive go (A : Type) : Type :=
  | Return (a : A)
  | Panic (p : panic).
Arguments Return {A} a.
Arguments Panic {A} p.

#[global] Instance panic_eq_dec : EqDecision panic.
Proof. solve_decision. Defined.
#[global] Instance go_eq_dec {A : Type} `{EqDecision A} : EqDecision (go A).
Proof. solve_decision. Defined.

Definition bind {A B : Type} (m : go A) (k : A -> go B) : go B :=
  match m with
  | Return a => k a
  | Panic p => Panic p
  end.

Notation "x <- c1 ;; c2" := (bind c1 (fun x => c2))
  (at level 63, c1 at next level, right associativity).

(** [*p] for a pointer [p]. *)
Definition deref {A : Type} (p : option A) : go A :=
  match p with
  | Some a => Return a
  | None => Panic nilDereference
  end.

Definition len {A : Type} (l : list A) : Z := Z.of_nat (length l).

(** [strings.Join]. *)
Definition Join (elems : list string) (sep : string) : string :=
  String.concat sep elems.

(** ** Errors

    The sentinels are package-level variables made by [errors.New], compared
    by identity ([err == errX]). The first six are declared in other files of
    the package; they are used here as the distinct values they are.
    [errorString] is a value made on the spot by [errors.New] or
    [fmt.Errorf], [jsonError] an error of encoding/json, [storageError] any
    other error of an endpoint. None of the last three is ever identical to
    a sentinel. *)

Inductive error : Type :=
  | errFileNotFound
  | errVolumeNotFound
  | errDiskNotFound
  | errUnformattedDisk
  | errCorruptedFormat
  | errXLReadQuorum
  | errSomeDiskUnformatted
  | errSomeDiskOffline
  | errDiskOrderMismatch
  | errorString (s : string)
  | jsonError (s : string)
  | storageError (code : nat).

#[global] Instance error_eq_dec : EqDecision error.
Proof. solve_decision. Defined.

(** ** Data model *)

(** fsFormat - structure holding 'fs' format. *)
Record fsFormat : Type := { fsVersion : string }.

(** xlFormat - structure holding 'xl' format. *)
Record xlFormat : Type := {
  xlVersion : string;       (* Version of 'xl' format. *)
  Disk : string;            (* Disk field carries assigned disk uuid. *)
  JBOD : list string        (* the input disk order of the first format *)
}.

(** formatConfigV1 - structure holds format config version '1'. *)
Record formatConfigV1 : Type := {
  Version : string;
  Format : string;
  FS : option fsFormat;
  XL : option xlFormat
}.

#[global] Instance fsFormat_eq_dec : EqDecision fsFormat.
Proof. solve_decision. Defined.
#[global] Instance xlFormat_eq_dec : EqDecision xlFormat.
Proof. solve_decision. Defined.
#[global] Instance formatConfigV1_eq_dec : EqDecision formatConfigV1.
Proof. solve_decision. Defined.

(** ** Error Reducer *)

(** The counting loop of [reduceFormatErrs]: the pair is
    [(errUnformattedDiskCount, errDiskNotFoundCount)]. *)
Definition reduceFormatErrs_count (errs : list (option error)) : Z * Z :=
  fold_left
    (fun (counts : Z * Z) (err : option error) =>
       let '(errUnformattedDiskCount, errDiskNotFoundCount) := counts in
       if decide (err = Some errUnformattedDisk)
       then (errUnformattedDiskCount + 1, errDiskNotFoundCount)
       else if decide (err = Some errDiskNotFound)
            then (errUnformattedDiskCount, errDiskNotFoundCount + 1)
            else counts)
    errs (0, 0).

(** Returns error slice into understandable errors. *)
Definition reduceFormatErrs (errs : list (option error)) (diskCount : Z)
  : option error :=
  let '(errUnformattedDiskCount, errDiskNotFoundCount) :=
    reduceFormatErrs_count errs in
  if errUnformattedDiskCount =? diskCount then Some errUnformattedDisk
  else if (errUnformattedDiskCount <? diskCount) && (errDiskNotFoundCount =? 0)
       then Some errSomeDiskUnformatted
  else if (errUnformattedDiskCount <? diskCount) && (errDiskNotFoundCount >? 0)
       then Some errSomeDiskOffline
  else None.

(** ** Consistency Checker *)

Fixpoint findDiskIndex_from (disk : string) (jbod : list string) (index : Z) : Z :=
  match jbod with
  | [] => -1
  | uuid :: rest =>
      if decide (uuid = disk) then index
      else findDiskIndex_from disk rest (index + 1)
  end.

(** findDiskIndex returns position of disk in JBOD. *)
Definition findDiskIndex (disk : string) (jbod : list string) : Z :=
  findDiskIndex_from disk jbod 0.

(** First loop of [isSavedUUIDInOrder]: [Return None] is its
    [return false], taken when some JBOD lacks the uuid. *)
Fixpoint isSavedUUIDInOrder_collect (uuid : string)
    (formatConfigs : list (option formatConfigV1)) (orderIndexes : list Z)
  : go (option (list Z)) :=
  match formatConfigs with
  | [] => Return (Some orderIndexes)
  | None :: rest => isSavedUUIDInOrder_collect uuid rest orderIndexes
  | Some formatConfig :: rest =>
      xl <- deref (XL formatConfig) ;;
      let uuidIndex := findDiskIndex uuid (JBOD xl) in
      if uuidIndex =? -1 then Return None
      else isSavedUUIDInOrder_collect uuid rest (orderIndexes ++ [uuidIndex + 1])
  end.

(** isSavedUUIDInOrder - validates if disk uuid is present and valid in all
    available format config JBOD, under the same order. *)
Definition isSavedUUIDInOrder (uuid : string)
    (formatConfigs : list (option formatConfigV1)) : go bool :=
  r <- isSavedUUIDInOrder_collect uuid formatConfigs [] ;;
  match r with
  | None => Return false
  | Some orderIndexes =>
      match orderIndexes with
      | [] => Panic indexOutOfRange
      | prevOrderIndex :: _ =>
          Return (forallb (fun orderIndex => prevOrderIndex =? orderIndex)
                          orderIndexes)
      end
  end.

(** First loop of [checkDisksConsistency]: the uuids of the formats at hand,
    the empty string where there is none. *)
Fixpoint checkDisksConsistency_collect
    (formatConfigs : list (option formatConfigV1)) : go (list string) :=
  match formatConfigs with
  | [] => Return []
  | None :: rest =>
      disks <- checkDisksConsistency_collect rest ;;
      Return ("" :: disks)
  | Some formatConfig :: rest =>
      xl <- deref (XL formatConfig) ;;
      disks <- checkDisksConsistency_collect rest ;;
      Return (Disk xl :: disks)
  end.

(** Second loop of [checkDisksConsistency]. *)
Fixpoint checkDisksConsistency_verify (disks : list string)
    (formatConfigs : list (option formatConfigV1)) : go (option error) :=
  match disks with
  | [] => Return None
  | uuid :: rest =>
      if decide (uuid = "") then checkDisksConsistency_verify rest formatConfigs
      else
        ok <- isSavedUUIDInOrder uuid formatConfigs ;;
        if ok : bool then checkDisksConsistency_verify rest formatConfigs
        else Return (Some (errorString (uuid +:+ " disk not found in JBOD")))
  end.

(** checkDisksConsistency - checks if all disks are consistent with all JBOD
    entries on all disks. *)
Definition checkDisksConsistency
    (formatConfigs : list (option formatConfigV1)) : go (option error) :=
  disks <- checkDisksConsistency_collect formatConfigs ;;
  checkDisksConsistency_verify disks formatConfigs.

(** First loop of [checkJBODConsistency]: extract first valid JBOD. *)
Fixpoint checkJBODConsistency_first
    (formatConfigs : list (option formatConfigV1)) : go string :=
  match formatConfigs with
  | [] => Return ""
  | None :: rest => checkJBODConsistency_first rest
  | Some format :: _ =>
      xl <- deref (XL format) ;;
      Return (Join (JBOD xl) ".")
  end.

(** Second loop of [checkJBODConsistency]. *)
Fixpoint checkJBODConsistency_compare (jbodStr : string)
    (formatConfigs : list (option formatConfigV1)) : go (option error) :=
  match formatConfigs with
  | [] => Return None
  | None :: rest => checkJBODConsistency_compare jbodStr rest
  | Some format :: rest =>
      xl <- deref (XL format) ;;
      let savedJBODStr := Join (JBOD xl) "." in
      if decide (jbodStr = savedJBODStr)
      then checkJBODConsistency_compare jbodStr rest
      else Return (Some (errorString "Inconsistent JBOD found."))
  end.

(** checkJBODConsistency - validate xl jbod order if they are consistent. *)
Definition checkJBODConsistency
    (formatConfigs : list (option formatConfigV1)) : go (option error) :=
  jbodStr <- checkJBODConsistency_first formatConfigs ;;
  checkJBODConsistency_compare jbodStr formatConfigs.

(** The loop of [checkFormatXL]; [n] is [len(formatConfigs)] of the whole
    slice. *)
Fixpoint checkFormatXL_fields (n : Z)
    (formatConfigs : list (option formatConfigV1)) : go (option error) :=
  match formatConfigs with
  | [] => Return None
  | None :: rest => checkFormatXL_fields n rest
  | Some formatXL :: rest =>
      if decide (Version formatXL <> "1") then
        Return (Some (errorString
          ("Unsupported version of backend format [" +:+ Version formatXL
           +:+ "] found.")))
      else if decide (Format formatXL <> "xl") then
        Return (Some (errorString
          ("Unsupported backend format [" +:+ Format formatXL +:+ "] found.")))
      else
        xl <- deref (XL formatXL) ;;
        if decide (xlVersion xl <> "1") then
          Return (Some (errorString
            ("Unsupported XL backend format found [" +:+ xlVersion xl +:+ "]")))
        else if decide (n <> len (JBOD xl)) then
          Return (Some (errorString
            ("Number of disks " +:+ pretty n
             +:+ " did not match the backend format "
             +:+ pretty (len (JBOD xl)))))
        else checkFormatXL_fields n rest
  end.

(** checkFormatXL - verifies if format.json format is intact. *)
Definition checkFormatXL (formatConfigs : list (option formatConfigV1))
  : go (option error) :=
  err <- checkFormatXL_fields (len formatConfigs) formatConfigs ;;
  match err with
  | Some e => Return (Some e)
  | None =>
      err <- checkJBODConsistency formatConfigs ;;
      match err with
      | Some e => Return (Some e)
      | None => checkDisksConsistency formatConfigs
      end
  end.

(** ** Generic Fleet Gate *)

(** The counting loop of [genericFormatCheck]: the pair is
    [(errCorruptFormatCount, errCount)]. *)
Definition genericFormatCheck_count (sErrs : list (option error)) : Z * Z :=
  fold_left
    (fun (counts : Z * Z) (lErr : option error) =>
       let '(errCorruptFormatCount, errCount) := counts in
       if decide (lErr = None) then counts
       else if decide (lErr = Some errUnformattedDisk
                       \/ lErr = Some errVolumeNotFound) then counts
       else if decide (lErr = Some errCorruptedFormat)
            then (errCorruptFormatCount + 1, errCount)
            else (errCorruptFormatCount, errCount + 1))
    sErrs (0, 0).

(** genericFormatCheck - validates and returns error. *)
Definition genericFormatCheck (formatConfigs : list (option formatConfigV1))
    (sErrs : list (option error)) : go (option error) :=
  let '(errCorruptFormatCount, errCount) := genericFormatCheck_count sErrs in
  let readQuorum := len formatConfigs ÷ 2 + 1 in
  if errCount >? len formatConfigs - readQuorum then
    Return (Some errXLReadQuorum)
  else if errCorruptFormatCount >? 0 then
    Return (Some errCorruptedFormat)
  else
    checkFormatXL formatConfigs.

(** ** Endpoints

    The storage interface ([StorageAPI]), the helper [readAll], the names of
    the reserved volume and of the two files, and [getUUID] are declared in
    other files of the package; encoding/json is Go's library. *)

(** File contents are kept up to what encoding/json makes of them. A file is
    the sequence of the pieces appended to it; a piece is either the encoding
    of a format config ([jsonOf format]: bytes that [json.Unmarshal] decodes
    to [format], as the ones [json.Marshal] gives for it), or bytes that
    belong to no JSON text ([garbage]), whatever comes before or after
    them. *)
Inductive chunk : Type :=
  | jsonOf (format : formatConfigV1)
  | garbage (text : string).

Definition bytes : Type := list chunk.

(** The value [json.Unmarshal] leaves untouched on the input [null]. *)
Definition zeroFormatConfigV1 : formatConfigV1 :=
  {| Version := ""; Format := ""; FS := None; XL := None |}.

(** [json.Marshal] of a [*formatConfigV1]: a struct of strings and slices of
    strings always encodes; a nil pointer encodes as [null]. *)
Definition json_Marshal (format : option formatConfigV1) : bytes * option error :=
  match format with
  | Some f => ([jsonOf f], None)
  | None => ([jsonOf zeroFormatConfigV1], None)
  end.

(** [json.Unmarshal] into a fresh [formatConfigV1]: one encoded value
    decodes; the empty input, trailing data after a value and bytes that are
    no JSON do not. *)
Definition json_Unmarshal (buffer : bytes) : formatConfigV1 + error :=
  match buffer with
  | [jsonOf format] => inl format
  | [] => inr (jsonError "unexpected end of JSON input")
  | garbage text :: _ => inr (jsonError ("invalid character in " +:+ text))
  | jsonOf _ :: _ => inr (jsonError "invalid character after top-level value")
  end.

(** Modelled from the spec: the names of the reserved meta-volume and of the
    published and in-flight manifest files ("Reserved meta-volume (name
    chosen by the caller; e.g. .minio.sys)", "format.json",
    "format.json.tmp"). *)
Definition minioMetaBucket : string := ".minio.sys".
Definition formatConfigFile : string := "format.json".
Definition formatConfigFileTmp : string := "format.json.tmp".

(** Modelled from the spec: the state of one storage back-end behind the
    Endpoint Adapter contract. [fault = Some e] is an endpoint that answers
    every call with [e] ([errDiskNotFound] when it is unreachable); otherwise
    the endpoint holds volumes of named files. *)
Record endpoint : Type := {
  fault : option error;
  volumes : gmap string (gmap string bytes)
}.

(** An interface value: [None] is the nil interface. The slots of an endpoint
    vector are different endpoints (handles are not shared), so a vector of
    handles is kept as the vector of the endpoints' states, and an operation
    that writes returns the new vector. *)
Definition StorageAPI : Type := option endpoint.

Record VolInfo : Type := { Name : string }.

(** Modelled from the spec: [read_all(volume, file) → bytes | NotFound |
    VolumeNotFound | OtherError]. *)
Definition ReadFile (disk : endpoint) (volume path : string)
  : bytes * option error :=
  match fault disk with
  | Some e => ([], Some e)
  | None =>
      match volumes disk !! volume with
      | None => ([], Some errVolumeNotFound)
      | Some files =>
          match files !! path with
          | None => ([], Some errFileNotFound)
          | Some buf => (buf, None)
          end
      end
  end.

(** Modelled from the spec: [readAll] reads the whole file through the
    handle; calling a method of a nil interface panics. *)
Definition readAll (disk : StorageAPI) (volume path : string)
  : go (bytes * option error) :=
  d <- deref disk ;;
  Return (ReadFile d volume path).

(** Modelled from the spec: [list_volumes() → sequence<VolInfo> |
    OtherError]. *)
Definition ListVols (disk : endpoint) : list VolInfo * option error :=
  match fault disk with
  | Some e => ([], Some e)
  | None => (map (fun kv => {| Name := fst kv |}) (map_to_list (volumes disk)), None)
  end.

(** Modelled from the spec: [delete(volume, file) → Ok | OtherError]
    (idempotent; NotFound is silently success). *)
Definition DeleteFile (disk : endpoint) (volume path : string)
  : endpoint * option error :=
  match fault disk with
  | Some e => (disk, Some e)
  | None =>
      match volumes disk !! volume with
      | None => (disk, Some errVolumeNotFound)
      | Some files =>
          ({| fault := None;
              volumes := <[volume := delete path files]> (volumes disk) |},
           None)
      end
  end.

(** Modelled from the spec: [append(volume, file, bytes) → Ok | OtherError];
    the file is created when it does not exist. *)
Definition AppendFile (disk : endpoint) (volume path : string) (buf : bytes)
  : endpoint * option error :=
  match fault disk with
  | Some e => (disk, Some e)
  | None =>
      match volumes disk !! volume with
      | None => (disk, Some errVolumeNotFound)
      | Some files =>
          ({| fault := None;
              volumes :=
                <[volume := <[path := default [] (files !! path) ++ buf]> files]>
                  (volumes disk) |},
           None)
      end
  end.

(** Modelled from the spec: [rename(srcVol, srcFile, dstVol, dstFile) → Ok |
    OtherError] (atomic on the endpoint). *)
Definition RenameFile (disk : endpoint) (srcVolume srcPath dstVolume dstPath : string)
  : endpoint * option error :=
  match fault disk with
  | Some e => (disk, Some e)
  | None =>
      match volumes disk !! srcVolume with
      | None => (disk, Some errVolumeNotFound)
      | Some srcFiles =>
          match srcFiles !! srcPath with
          | None => (disk, Some errFileNotFound)
          | Some buf =>
              let vols := <[srcVolume := delete srcPath srcFiles]> (volumes disk) in
              match vols !! dstVolume with
              | None => (disk, Some errVolumeNotFound)
              | Some dstFiles =>
                  ({| fault := None;
                      volumes := <[dstVolume := <[dstPath := buf]> dstFiles]> vols |},
                   None)
              end
          end
      end
  end.

(** [s[i]] and [s[i] = a]: out of range panics. *)
Definition index {A : Type} (s : list A) (i : Z) : go A :=
  if (0 <=? i) && (i <? len s) then
    match s !! Z.to_nat i with
    | Some a => Return a
    | None => Panic indexOutOfRange
    end
  else Panic indexOutOfRange.

Definition assign {A : Type} (s : list A) (i : Z) (a : A) : go (list A) :=
  if (0 <=? i) && (i <? len s) then Return (<[Z.to_nat i := a]> s)
  else Panic indexOutOfRange.

(** ** Per-Endpoint Loader *)

(** loadFormat - loads format.json from disk. *)
Definition loadFormat (disk : StorageAPI)
  : go (option formatConfigV1 * option error) :=
  r <- readAll disk minioMetaBucket formatConfigFile ;;
  let '(buffer, err) := r in
  match err with
  | Some e =>
      (* 'file not found' and 'volume not found' as same. *)
      if decide (e = errFileNotFound \/ e = errVolumeNotFound) then
        d <- deref disk ;;
        let '(vols, err) := ListVols d in
        match err with
        | Some e' => Return (None, Some e')
        | None =>
            if len vols >? 1 then
              (* 'format.json' not found, but we found user data. *)
              Return (None, Some errCorruptedFormat)
            else
              (* No other data found, its a fresh disk. *)
              Return (None, Some errUnformattedDisk)
        end
      else Return (None, Some e)
  | None =>
      match json_Unmarshal buffer with
      | inr e => Return (None, Some e)
      | inl format => Return (Some format, None)
      end
  end.

(** ** Fleet Loader *)

(** The goroutines of [loadAllFormats]: each one loads from its own endpoint
    and writes its own slot of the two result slices, and all are joined
    before the slices are read, so their effect is that of the loop run in
    order. *)
Fixpoint loadAllFormats_load (bootstrapDisks : list StorageAPI)
  : go (list (option formatConfigV1) * list (option error)) :=
  match bootstrapDisks with
  | [] => Return ([], [])
  | disk :: rest =>
      r <- loadFormat disk ;;
      let '(formatConfig, lErr) := r in
      rs <- loadAllFormats_load rest ;;
      let '(formatConfigs, sErrs) := rs in
      match lErr with
      | Some e => Return (None :: formatConfigs, Some e :: sErrs)
      | None => Return (formatConfig :: formatConfigs, None :: sErrs)
      end
  end.

(** loadAllFormats - load all format config from all input disks in
    parallel. The error slice returned is nil when there is no error. *)
Definition loadAllFormats (bootstrapDisks : list StorageAPI)
  : go (list (option formatConfigV1) * list (option error)) :=
  rs <- loadAllFormats_load bootstrapDisks ;;
  let '(formatConfigs, sErrs) := rs in
  if existsb (fun err : option error => bool_decide (err <> None)) sErrs
  then Return (formatConfigs, sErrs)
  else Return (formatConfigs, []).

(** ** Reorderer *)

(** First loop of [reorderDisks]. *)
Fixpoint reorderDisks_saved (formatConfigs : list (option formatConfigV1))
  : go (list string) :=
  match formatConfigs with
  | [] => Return []
  | None :: rest => reorderDisks_saved rest
  | Some format :: _ =>
      xl <- deref (XL format) ;;
      Return (JBOD xl)
  end.

(** Second loop of [reorderDisks], from position [fIndex] on. *)
Fixpoint reorderDisks_place (bootstrapDisks : list StorageAPI)
    (savedJBOD : list string) (formatConfigs : list (option formatConfigV1))
    (fIndex : Z) (newDisks : list StorageAPI)
  : go (list StorageAPI * option error) :=
  match formatConfigs with
  | [] => Return (newDisks, None)
  | None :: rest =>
      reorderDisks_place bootstrapDisks savedJBOD rest (fIndex + 1) newDisks
  | Some format :: rest =>
      xl <- deref (XL format) ;;
      let jIndex := findDiskIndex (Disk xl) savedJBOD in
      if jIndex =? -1 then
        Return ([], Some (errorString
                            ("Unrecognized uuid " +:+ Disk xl +:+ " found")))
      else
        disk <- index bootstrapDisks fIndex ;;
        newDisks' <- assign newDisks jIndex disk ;;
        reorderDisks_place bootstrapDisks savedJBOD rest (fIndex + 1) newDisks'
  end.

(** reorderDisks - reorder disks in JBOD order. *)
Definition reorderDisks (bootstrapDisks : list StorageAPI)
    (formatConfigs : list (option formatConfigV1))
  : go (list StorageAPI * option error) :=
  savedJBOD <- reorderDisks_saved formatConfigs ;;
  let newDisks := replicate (length bootstrapDisks) (None : StorageAPI) in
  reorderDisks_place bootstrapDisks savedJBOD formatConfigs 0 newDisks.

(** ** Mount procedure *)

(** The loading loop of [loadFormatXL]: [inl err] is its [return nil, err];
    otherwise the formats read and the two counters. *)
Fixpoint loadFormatXL_load (bootstrapDisks : list StorageAPI)
    (unformattedDisksFoundCnt diskNotFoundCount : Z)
  : go (error + (list (option formatConfigV1) * Z * Z)) :=
  match bootstrapDisks with
  | [] => Return (inr ([], unformattedDisksFoundCnt, diskNotFoundCount))
  | disk :: rest =>
      r <- loadFormat disk ;;
      let '(formatXL, err) := r in
      rs <- match err with
            | Some e =>
                if decide (e = errUnformattedDisk) then
                  loadFormatXL_load rest (unformattedDisksFoundCnt + 1)
                                    diskNotFoundCount
                else if decide (e = errDiskNotFound) then
                  loadFormatXL_load rest unformattedDisksFoundCnt
                                    (diskNotFoundCount + 1)
                else Return (inl e)
            | None =>
                loadFormatXL_load rest unformattedDisksFoundCnt diskNotFoundCount
            end ;;
      match rs with
      | inl e => Return (inl e)
      | inr (formatConfigs, u, d) =>
          Return (inr (match err with
                       | Some _ => None
                       | None => formatXL
                       end :: formatConfigs, u, d))
      end
  end.

(** loadFormatXL - loads XL format.json and returns back properly ordered
    storage slice based on format.json. *)
Definition loadFormatXL (bootstrapDisks : list StorageAPI)
  : go (list StorageAPI * option error) :=
  rs <- loadFormatXL_load bootstrapDisks 0 0 ;;
  match rs with
  | inl e => Return ([], Some e)
  | inr (formatConfigs, unformattedDisksFoundCnt, diskNotFoundCount) =>
      if unformattedDisksFoundCnt =? len bootstrapDisks then
        Return ([], Some errUnformattedDisk)
      else if diskNotFoundCount =? len bootstrapDisks then
        Return ([], Some errDiskNotFound)
      else if diskNotFoundCount
              >? len bootstrapDisks - (len bootstrapDisks ÷ 2 + 1) then
        Return ([], Some errXLReadQuorum)
      else if unformattedDisksFoundCnt
              >? len bootstrapDisks - (len bootstrapDisks ÷ 2 + 1) then
        Return ([], Some errXLReadQuorum)
      else
        err <- checkFormatXL formatConfigs ;;
        match err with
        | Some e => Return ([], Some e)
        | None => reorderDisks bootstrapDisks formatConfigs
        end
  end.

(** ** Atomic publish *)

(** The body of one goroutine of [saveFormatXL]: marshal and write to disk,
    as [format.json.tmp] renamed to [format.json]. The result is the
    endpoint afterwards and the goroutine's slot of [errs]. *)
Definition saveFormatXL_write (disk : endpoint) (format : option formatConfigV1)
  : endpoint * option error :=
  let '(formatBytes, err) := json_Marshal format in
  match err with
  | Some e => (disk, Some e)
  | None =>
      (* Purge any existing temporary file, okay to ignore errors here. *)
      let '(disk1, _) := DeleteFile disk minioMetaBucket formatConfigFileTmp in
      let '(disk2, err) :=
        AppendFile disk1 minioMetaBucket formatConfigFileTmp formatBytes in
      match err with
      | Some e => (disk2, Some e)
      | None =>
          RenameFile disk2 minioMetaBucket formatConfigFileTmp
                     minioMetaBucket formatConfigFile
      end
  end.

(** The fan-out of [saveFormatXL] from position [idx] on. A goroutine
    touches its own endpoint and its own slot of [errs] only, and all are
    joined before [errs] is read. [formats[index]] is evaluated when the
    goroutine is started. *)
Fixpoint saveFormatXL_fanout (storageDisks : list StorageAPI)
    (formats : list (option formatConfigV1)) (idx : Z)
  : go (list StorageAPI * list (option error)) :=
  match storageDisks with
  | [] => Return ([], [])
  | None :: rest =>
      rs <- saveFormatXL_fanout rest formats (idx + 1) ;;
      Return (None :: fst rs, None :: snd rs)
  | Some disk :: rest =>
      format <- index formats idx ;;
      let '(disk', err) := saveFormatXL_write disk format in
      rs <- saveFormatXL_fanout rest formats (idx + 1) ;;
      Return (Some disk' :: fst rs, err :: snd rs)
  end.

(** The last loop of [saveFormatXL]: the first error of [errs], if any. *)
Fixpoint saveFormatXL_result (errs : list (option error)) : option error :=
  match errs with
  | [] => None
  | Some e :: _ => Some e
  | None :: rest => saveFormatXL_result rest
  end.

(** saveFormatXL - populates format.json on disks in its order. *)
Definition saveFormatXL (storageDisks : list StorageAPI)
    (formats : list (option formatConfigV1))
  : go (list StorageAPI * option error) :=
  rs <- saveFormatXL_fanout storageDisks formats 0 ;;
  Return (fst rs, saveFormatXL_result (snd rs)).

(** isFormatNotFound - returns true if all format.json are not found on all
    disks. *)
Definition isFormatNotFound (formats : list (option formatConfigV1)) : bool :=
  forallb (fun format : option formatConfigV1 => bool_decide (format = None))
          formats.

(** isFormatFound - returns true if all input formats are found on all
    disks. *)
Definition isFormatFound (formats : list (option formatConfigV1)) : bool :=
  forallb (fun format : option formatConfigV1 => bool_decide (format <> None))
          formats.

Section Healing.

(** Modelled from the spec: the UUID collaborator ([new_identity() →
    string], one identity per call). [new_identity k] is the identity the
    [k]-th call of [getUUID] returns; the number of calls made so far is
    threaded through the functions that mint. *)
Variable new_identity : nat -> string.

Definition getUUID (minted : nat) : string * nat :=
  (new_identity minted, S minted).

(** ** Initializer *)

(** First loop of [initFormatXL]: allocate the format configs and fill
    [jbod]; a nil disk leaves its two slots at their zero values. *)
Fixpoint initFormatXL_alloc (storageDisks : list StorageAPI) (minted : nat)
  : list (option formatConfigV1) * list string * nat :=
  match storageDisks with
  | [] => ([], [], minted)
  | None :: rest =>
      let '(formats, jbod, minted') := initFormatXL_alloc rest minted in
      (None :: formats, "" :: jbod, minted')
  | Some _ :: rest =>
      let '(uuid, minted1) := getUUID minted in
      let format :=
        {| Version := "1";
           Format := "xl";
           FS := None;
           XL := Some {| xlVersion := "1"; Disk := uuid; JBOD := [] |} |} in
      let '(formats, jbod, minted') := initFormatXL_alloc rest minted1 in
      (Some format :: formats, uuid :: jbod, minted')
  end.

(** [format.XL.JBOD = jbod] through the pointers. *)
Definition setJBOD (format : option formatConfigV1) (jbod : list string)
  : go formatConfigV1 :=
  f <- deref format ;;
  xl <- deref (XL f) ;;
  Return {| Version := Version f; Format := Format f; FS := FS f;
            XL := Some {| xlVersion := xlVersion xl; Disk := Disk xl;
                          JBOD := jbod |} |}.

(** Second loop of [initFormatXL]: update the jbod entries. *)
Fixpoint initFormatXL_jbod (storageDisks : list StorageAPI)
    (formats : list (option formatConfigV1)) (jbod : list string)
  : go (list (option formatConfigV1)) :=
  match storageDisks, formats with
  | [], _ => Return formats
  | _ :: _, [] => Panic indexOutOfRange
  | None :: rest, format :: formats' =>
      fs <- initFormatXL_jbod rest formats' jbod ;;
      Return (format :: fs)
  | Some _ :: rest, format :: formats' =>
      f <- setJBOD format jbod ;;
      fs <- initFormatXL_jbod rest formats' jbod ;;
      Return (Some f :: fs)
  end.

(** initFormatXL - save XL format configuration on all disks. The result
    is the endpoints afterwards, the number of identities minted and the
    error returned. *)
Definition initFormatXL (storageDisks : list StorageAPI) (minted : nat)
  : go (list StorageAPI * nat * option error) :=
  let '(formats0, jbod, minted') := initFormatXL_alloc storageDisks minted in
  formats <- initFormatXL_jbod storageDisks formats0 jbod ;;
  rs <- saveFormatXL storageDisks formats ;;
  Return (fst rs, minted', snd rs).

(** ** Healer *)

(** The loading loop of [healFormatXL]: [inl err] is an early [return
    err] ([inl None] is [return nil]); otherwise the formats read. *)
Fixpoint healFormatXL_load (storageDisks : list StorageAPI)
  : go (option error + list (option formatConfigV1)) :=
  match storageDisks with
  | [] => Return (inr [])
  | disk :: rest =>
      r <- loadFormat disk ;;
      let '(formatXL, err) := r in
      match err with
      | Some e =>
          if decide (e = errUnformattedDisk) then
            (* format.json is missing, should be healed. *)
            rs <- healFormatXL_load rest ;;
            match rs with
            | inl ret => Return (inl ret)
            | inr formatConfigs => Return (inr (None :: formatConfigs))
            end
          else if decide (e = errDiskNotFound) then
            (* Is a valid case we can proceed without healing. *)
            Return (inl None)
          else
            (* Return error for unsupported errors. *)
            Return (inl (Some e))
      | None =>
          rs <- healFormatXL_load rest ;;
          match rs with
          | inl ret => Return (inl ret)
          | inr formatConfigs => Return (inr (formatXL :: formatConfigs))
          end
      end
  end.

(** The choice of [referenceConfig]: the first format config at hand. *)
Fixpoint healFormatXL_reference (formatConfigs : list (option formatConfigV1))
  : option formatConfigV1 :=
  match formatConfigs with
  | [] => None
  | None :: rest => healFormatXL_reference rest
  | Some formatConfig :: _ => Some formatConfig
  end.

(** The loop that applies a new UUID for all the fresh disks, from
    position [idx] on. [newJBOD] is the slice of the reference config
    itself, changed in place. *)
Fixpoint healFormatXL_mint (formatConfigs : list (option formatConfigV1))
    (idx : Z) (newJBOD : list string) (minted : nat)
  : go (list string * nat) :=
  match formatConfigs with
  | [] => Return (newJBOD, minted)
  | None :: rest =>
      let '(uuid, minted1) := getUUID minted in
      newJBOD1 <- assign newJBOD idx uuid ;;
      healFormatXL_mint rest (idx + 1) newJBOD1 minted1
  | Some _ :: rest => healFormatXL_mint rest (idx + 1) newJBOD minted
  end.

(** The loop that collects the new format configs that need to be written,
    from position [idx] on. A config that was read is updated through its
    pointer: [XL.JBOD] first, then [XL.Disk]. *)
Fixpoint healFormatXL_collect (referenceConfig : formatConfigV1)
    (referenceXL : xlFormat) (newJBOD : list string)
    (formatConfigs : list (option formatConfigV1)) (idx : Z)
  : go (list (option formatConfigV1)) :=
  match formatConfigs with
  | [] => Return []
  | None :: rest =>
      disk <- index newJBOD idx ;;
      let config :=
        {| Version := Version referenceConfig;
           Format := Format referenceConfig;
           FS := None;
           XL := Some {| xlVersion := xlVersion referenceXL;
                         Disk := disk;
                         JBOD := newJBOD |} |} in
      configs <- healFormatXL_collect referenceConfig referenceXL newJBOD
                                      rest (idx + 1) ;;
      Return (Some config :: configs)
  | Some format :: rest =>
      xl <- deref (XL format) ;;
      disk <- index newJBOD idx ;;
      let format' :=
        {| Version := Version format;
           Format := Format format;
           FS := FS format;
           XL := Some {| xlVersion := xlVersion xl;
                         Disk := disk;
                         JBOD := newJBOD |} |} in
      configs <- healFormatXL_collect referenceConfig referenceXL newJBOD
                                      rest (idx + 1) ;;
      Return (Some format' :: configs)
  end.

(** Heals any missing format.json on the drives. The reference config is
    one of the configs read, and [newJBOD] shares the array of its
    [XL.JBOD]: minting changes the reference in place. Every config read,
    the reference among them, is assigned [newJBOD] in the last loop, and
    nothing but [Version], [Format] and [XL.Version] is read from the
    reference after the minting, so the configs saved are the ones
    computed here. *)
Definition healFormatXL (storageDisks : list StorageAPI) (minted : nat)
  : go (list StorageAPI * nat * option error) :=
  rs <- healFormatXL_load storageDisks ;;
  match rs with
  | inl ret => Return (storageDisks, minted, ret)
  | inr formatConfigs =>
      (* All format.json has been read successfully, previously completed. *)
      if isFormatFound formatConfigs then Return (storageDisks, minted, None)
      (* All disks are fresh, format.json will be written by initFormatXL() *)
      else if isFormatNotFound formatConfigs then
        initFormatXL storageDisks minted
      else
        (* Validate format configs for consistency in JBOD and disks. *)
        err <- checkFormatXL formatConfigs ;;
        match err with
        | Some e => Return (storageDisks, minted, Some e)
        | None =>
            referenceConfig <- deref (healFormatXL_reference formatConfigs) ;;
            referenceXL <- deref (XL referenceConfig) ;;
            r <- healFormatXL_mint formatConfigs 0 (JBOD referenceXL) minted ;;
            let '(newJBOD, minted') := r in
            newFormatConfigs <-
              healFormatXL_collect referenceConfig referenceXL newJBOD
                                   formatConfigs 0 ;;
            saved <- saveFormatXL storageDisks newFormatConfigs ;;
            Return (fst saved, minted', snd saved)
        end
  end.

End Healing.

(** ** Vocabulary of the properties *)

(** The classes of an entry of an error vector. *)
Definition isUnformatted (err : option error) : Prop :=
  err = Some errUnformattedDisk.
Definition isUnreachable (err : option error) : Prop :=
  err = Some errDiskNotFound.

#[global] Instance isUnformatted_dec err : Decision (isUnformatted err).
Proof. unfold isUnformatted. apply _. Defined.
#[global] Instance isUnreachable_dec err : Decision (isUnreachable err).
Proof. unfold isUnreachable. apply _. Defined.

(** The number of entries of an error vector that are the error [e]. *)
Definition occurrences (e : error) (errs : list (option error)) : Z :=
  len (filter (fun err => err = Some e) errs).

(** An entry that [genericFormatCheck] counts into [errCount]. *)
Definition countedAsError (lErr : option error) : Prop :=
  lErr <> None /\ lErr <> Some errUnformattedDisk
  /\ lErr <> Some errVolumeNotFound /\ lErr <> Some errCorruptedFormat.

#[global] Instance countedAsError_dec lErr : Decision (countedAsError lErr).
Proof. unfold countedAsError. apply _. Defined.

(** An error made on the spot by [errors.New] or [fmt.Errorf]: never a
    sentinel. *)
Definition madeOnTheSpot (err : option error) : Prop :=
  forall e, err = Some e -> exists s, e = errorString s.

(** The outcome of the Per-Endpoint Loader on an endpoint: the error [e],
    or some manifest. *)
Definition classifiedAs (e : error) (disk : StorageAPI) : Prop :=
  loadFormat disk = Return (None, Some e).

#[global] Instance classifiedAs_dec e disk : Decision (classifiedAs e disk).
Proof. unfold classifiedAs. apply _. Defined.

Definition loadsManifest (disk : StorageAPI) : Prop :=
  exists format, loadFormat disk = Return (Some format, None).

(** An endpoint the Mount procedure and the Healer go past: its manifest is
    read, or it is Unformatted, or it is Unreachable. *)
Definition mountable (disk : StorageAPI) : Prop :=
  loadsManifest disk \/ classifiedAs errUnformattedDisk disk
  \/ classifiedAs errDiskNotFound disk.

(** The manifest the loader reads from an endpoint, if it reads one. *)
Definition manifestOf (disk : StorageAPI) : option formatConfigV1 :=
  match loadFormat disk with
  | Return (Some format, None) => Some format
  | _ => None
  end.

(** The last two steps of the Mount procedure: the Consistency Checker, then
    the Reorderer. *)
Definition checkThenReorder (bootstrapDisks : list StorageAPI)
    (formatConfigs : list (option formatConfigV1))
  : go (list StorageAPI * option error) :=
  err <- checkFormatXL formatConfigs ;;
  match err with
  | Some e => Return ([], Some e)
  | None => reorderDisks bootstrapDisks formatConfigs
  end.

(** The identity and the order a manifest carries (the zero values when it
    has no xl section). *)
Definition identityOf (format : formatConfigV1) : string :=
  match XL format with
  | Some xl => Disk xl
  | None => ""
  end.

Definition orderOf (format : formatConfigV1) : list string :=
  match XL format with
  | Some xl => JBOD xl
  | None => []
  end.

(** The slice after the assignments [s[k] = d], for the positions [ks] and
    the values [ds] taken pairwise, in order. *)
Fixpoint assignAll {A : Type} (ks : list nat) (ds : list A) (s : list A)
  : list A :=
  match ks, ds with
  | k :: ks', d :: ds' => assignAll ks' ds' (<[k := d]> s)
  | _, _ => s
  end.

(** The slots the Reorderer assigns, in the order it assigns them: for each
    manifest the position of its identity in [savedJBOD]. *)
Definition positions (savedJBOD : list string) (manifests : list formatConfigV1)
  : list nat :=
  (fun manifest => Z.to_nat (findDiskIndex (identityOf manifest) savedJBOD))
    <$> manifests.

(** Every manifest at hand of kind "xl" has its xl section. *)
Definition xlSectioned (formatConfigs : list (option formatConfigV1)) : Prop :=
  forall format, Some format ∈ formatConfigs -> Format format = "xl" ->
                 is_Some (XL format).

(** Every manifest at hand has its xl section. *)
Definition allSectioned (formatConfigs : list (option formatConfigV1)) : Prop :=
  forall format, Some format ∈ formatConfigs -> is_Some (XL format).

(** An identity without the separator of [checkJBODConsistency]. *)
Fixpoint dotFree (uuid : string) : Prop :=
  match uuid with
  | EmptyString => True
  | String c rest => c <> "."%char /\ dotFree rest
  end.

(** ** Scenarios *)

(** A format config of a healthy deployment. *)
Definition xlConfig (uuid : string) (jbod : list string) : formatConfigV1 :=
  {| Version := "1"; Format := "xl"; FS := None;
     XL := Some {| xlVersion := "1"; Disk := uuid; JBOD := jbod |} |}.

(** An endpoint with an empty meta volume and no other volume. *)
Definition freshEndpoint : endpoint :=
  {| fault := None; volumes := {[ minioMetaBucket := ∅ ]} |}.

(** An endpoint that does not answer. *)
Definition offlineEndpoint : endpoint :=
  {| fault := Some errDiskNotFound; volumes := ∅ |}.

(** An endpoint whose [format.json] holds [contents]. *)
Definition endpointHolding (contents : bytes) : endpoint :=
  {| fault := None;
     volumes := {[ minioMetaBucket := {[ formatConfigFile := contents ]} ]} |}.

(** An endpoint without [format.json] that holds two volumes of user data
    next to the meta volume. *)
Definition userDataEndpoint : endpoint :=
  {| fault := None;
     volumes := {[ minioMetaBucket := ∅; "photos" := ∅; "backup" := ∅ ]} |}.

(** A UUID collaborator for the scenarios. *)
Definition scenarioUUID (k : nat) : string := "uuid-" +:+ pretty k.

(** ** Vocabulary of the further properties *)

(** The error the loader returns for an endpoint ([None] when it returns
    none). *)
Definition errorOf (disk : StorageAPI) : option error :=
  match loadFormat disk with
  | Return (_, err) => err
  | Panic _ => None
  end.

(** A manifest with the version fields of the format and an order of [n]
    identities. *)
Definition wellFormed (n : Z) (format : formatConfigV1) : Prop :=
  Version format = "1" /\ Format format = "xl"
  /\ exists xl, XL format = Some xl /\ xlVersion xl = "1" /\ len (JBOD xl) = n.

(** What [checkFormatXL] checks of a vector: every manifest at hand is well
    formed for the size of the vector; the orders at hand join to one string;
    every non-empty identity at hand is in every order at hand, where its
    own order has it. *)
Definition consistent (formatConfigs : list (option formatConfigV1)) : Prop :=
  (forall format, Some format ∈ formatConfigs ->
     wellFormed (len formatConfigs) format)
  /\ (forall format format',
        Some format ∈ formatConfigs -> Some format' ∈ formatConfigs ->
        Join (orderOf format) "." = Join (orderOf format') ".")
  /\ (forall format format',
        Some format ∈ formatConfigs -> Some format' ∈ formatConfigs ->
        identityOf format <> "" ->
        findDiskIndex (identityOf format) (orderOf format') <> -1
        /\ findDiskIndex (identityOf format) (orderOf format')
           = findDiskIndex (identityOf format) (orderOf format)).

(** An endpoint of a healthy deployment of order [order]: the loader reads
    from it a well-formed manifest with the identity [uuid] and the order
    [order]. *)
Definition carries (order : list string) (disk : StorageAPI) (uuid : string)
  : Prop :=
  exists format xl,
    loadFormat disk = Return (Some format, None)
    /\ Version format = "1" /\ Format format = "xl" /\ XL format = Some xl
    /\ xlVersion xl = "1" /\ Disk xl = uuid /\ JBOD xl = order.

(** The error an endpoint answers a publish with: its fault, or the missing
    meta volume; [None] when it accepts the publish. *)
Definition publishError (disk : StorageAPI) : option error :=
  match disk with
  | None => None
  | Some d =>
      match fault d with
      | Some e => Some e
      | None =>
          match volumes d !! minioMetaBucket with
          | None => Some errVolumeNotFound
          | Some _ => None
          end
      end
  end.

(** The endpoint after the goroutine, whatever it answers. *)
Definition published (disk : StorageAPI) (format : option formatConfigV1)
  : StorageAPI :=
  match disk with
  | None => None
  | Some d =>
      match publishError (Some d) with
      | Some _ => Some d
      | None =>
          Some {| fault := None;
                  volumes :=
                    <[minioMetaBucket :=
                        <[formatConfigFile := fst (json_Marshal format)]>
                          (delete formatConfigFileTmp
                                  (default ∅ (volumes d !! minioMetaBucket)))]>
                      (volumes d) |}
      end
  end.

(** The number of handles of a vector that are not nil. *)
Definition handles (storageDisks : list StorageAPI) : nat :=
  length (filter is_Some storageDisks).

(** The number of slots of a manifest vector without a manifest. *)
Definition missing (formatConfigs : list (option formatConfigV1)) : nat :=
  length (filter (fun format => format = None) formatConfigs).

(** The order of the reference config of the Healer (the first manifest
    read), as it is before the minting. *)
Definition referenceOrder (storageDisks : list StorageAPI) : list string :=
  match healFormatXL_reference (manifestOf <$> storageDisks) with
  | Some referenceConfig => orderOf referenceConfig
  | None => []
  end.

(** * Properties *)

(** ** Counting *)

Section Counting.

Context {A : Type} (P : A -> Prop) `{Pdec : !forall x, Decision (P x)}.

Lemma len_filter_cons (x : A) (l : list A) :
  len (filter P (x :: l))
  = (if decide (P x) then 1 else 0) + len (filter P l).
Proof.
  unfold len. rewrite filter_cons. destruct (decide (P x)); simpl; lia.
Qed.

Lemma len_filter_bounds (l : list A) : 0 <= len (filter P l) <= len l.
Proof.
  unfold len. pose proof (length_filter P l). lia.
Qed.

Lemma len_filter_all (l : list A) :
  len (filter P l) = len l <-> Forall P l.
Proof.
  induction l as [|x l IH].
  - split; [constructor | reflexivity].
  - rewrite len_filter_cons. pose proof (len_filter_bounds l) as Hb.
    unfold len in *. simpl length. rewrite Forall_cons.
    destruct (decide (P x)); split.
    + intros Hlen. split; [done|]. apply IH. lia.
    + intros [_ Hall]. apply IH in Hall. lia.
    + intros Hlen. lia.
    + intros [Hx _]. done.
Qed.

Lemma len_filter_some (l : list A) :
  0 < len (filter P l) <-> Exists P l.
Proof.
  induction l as [|x l IH].
  - split; [unfold len; simpl; lia | intros Hex; inversion Hex].
  - rewrite len_filter_cons, Exists_cons.
    pose proof (len_filter_bounds l) as Hb.
    destruct (decide (P x)); split; intros Hq.
    + by left.
    + lia.
    + right. apply IH. lia.
    + destruct Hq as [Hx|Hex]; [done|]. apply IH in Hex. lia.
Qed.

Lemma len_filter_disjoint (R : A -> Prop) `{Rdec : !forall x, Decision (R x)}
    (l : list A) :
  (forall x, P x -> R x -> False) ->
  len (filter P l) + len (filter R l) <= len l.
Proof.
  intros Hdisj. induction l as [|x l IH].
  - unfold len. simpl. lia.
  - unfold len in *. rewrite !filter_cons.
    destruct (decide (P x)) as [HP|HP], (decide (R x)) as [HR|HR];
      simpl length; try lia.
    destruct (Hdisj x HP HR).
Qed.

End Counting.

Lemma reduceFormatErrs_count_from (errs : list (option error)) (u d : Z) :
  fold_left
    (fun (counts : Z * Z) (err : option error) =>
       let '(errUnformattedDiskCount, errDiskNotFoundCount) := counts in
       if decide (err = Some errUnformattedDisk)
       then (errUnformattedDiskCount + 1, errDiskNotFoundCount)
       else if decide (err = Some errDiskNotFound)
            then (errUnformattedDiskCount, errDiskNotFoundCount + 1)
            else counts)
    errs (u, d)
  = (u + occurrences errUnformattedDisk errs,
     d + occurrences errDiskNotFound errs).
Proof.
  unfold occurrences. revert u d.
  induction errs as [|err errs IH]; intros u d.
  - simpl. unfold len. simpl. f_equal; lia.
  - cbn [fold_left]. rewrite !len_filter_cons.
    destruct (decide (err = Some errUnformattedDisk)) as [->|Hu].
    + rewrite IH. rewrite decide_False by discriminate. f_equal; lia.
    + destruct (decide (err = Some errDiskNotFound)); rewrite IH; f_equal; lia.
Qed.

Lemma reduceFormatErrs_count_spec (errs : list (option error)) :
  reduceFormatErrs_count errs
  = (occurrences errUnformattedDisk errs, occurrences errDiskNotFound errs).
Proof.
  unfold reduceFormatErrs_count. rewrite reduceFormatErrs_count_from.
  f_equal; lia.
Qed.

Lemma genericFormatCheck_count_from (sErrs : list (option error)) (c n : Z) :
  fold_left
    (fun (counts : Z * Z) (lErr : option error) =>
       let '(errCorruptFormatCount, errCount) := counts in
       if decide (lErr = None) then counts
       else if decide (lErr = Some errUnformattedDisk
                       \/ lErr = Some errVolumeNotFound) then counts
       else if decide (lErr = Some errCorruptedFormat)
            then (errCorruptFormatCount + 1, errCount)
            else (errCorruptFormatCount, errCount + 1))
    sErrs (c, n)
  = (c + occurrences errCorruptedFormat sErrs,
     n + len (filter countedAsError sErrs)).
Proof.
  unfold occurrences. revert c n.
  induction sErrs as [|lErr sErrs IH]; intros c n.
  - simpl. unfold len. simpl. f_equal; lia.
  - cbn [fold_left]. rewrite !len_filter_cons.
    destruct (decide (lErr = None)) as [->|Hnil].
    { rewrite IH, decide_False by discriminate.
      rewrite decide_False by (unfold countedAsError; tauto). f_equal; lia. }
    destruct (decide (lErr = Some errUnformattedDisk
                      \/ lErr = Some errVolumeNotFound)) as [Hlive|Hlive].
    { rewrite IH, decide_False by (destruct Hlive; congruence).
      rewrite decide_False by (unfold countedAsError; tauto). f_equal; lia. }
    destruct (decide (lErr = Some errCorruptedFormat)) as [Hc|Hc].
    { rewrite IH, decide_False by (unfold countedAsError; tauto).
      f_equal; lia. }
    rewrite IH, decide_True by (unfold countedAsError; tauto). f_equal; lia.
Qed.

Lemma genericFormatCheck_count_spec (sErrs : list (option error)) :
  genericFormatCheck_count sErrs
  = (occurrences errCorruptedFormat sErrs, len (filter countedAsError sErrs)).
Proof.
  unfold genericFormatCheck_count. rewrite genericFormatCheck_count_from.
  f_equal; lia.
Qed.

(** ** The errors of the Consistency Checker and of the Reorderer *)

Lemma madeOnTheSpot_nil : madeOnTheSpot None.
Proof. intros e He. discriminate. Qed.

Lemma madeOnTheSpot_errorString s : madeOnTheSpot (Some (errorString s)).
Proof. intros e He. injection He as <-. eauto. Qed.

Create HintDb checker.
#[local] Hint Resolve madeOnTheSpot_nil madeOnTheSpot_errorString : checker.

Lemma bind_Return {A B : Type} (m : go A) (k : A -> go B) (b : B) :
  bind m k = Return b -> exists a, m = Return a /\ k a = Return b.
Proof. destruct m as [a|p]; simpl; [eauto | discriminate]. Qed.

(** Decompose a run that returned along its binds and branches. *)
Ltac returned H :=
  repeat
    match type of H with
    | bind _ _ = Return _ =>
        let a := fresh "a" in
        let Ha := fresh "Ha" in
        apply bind_Return in H as (a & Ha & H)
    | (if decide ?P then _ else _) = Return _ =>
        let Hd := fresh "Hdec" in destruct (decide P) as [Hd|Hd]
    | (if ?b then _ else _) = Return _ =>
        let Hb := fresh "Hb" in destruct b eqn:Hb
    | (let '(_, _) := ?p in _) = Return _ => destruct p
    | Return _ = Return _ => injection H as H
    | Panic _ = Return _ => discriminate H
    end.

Lemma checkFormatXL_fields_madeOnTheSpot n formatConfigs err :
  checkFormatXL_fields n formatConfigs = Return err -> madeOnTheSpot err.
Proof.
  induction formatConfigs as [|[formatXL|] rest IH]; simpl; intros H.
  - injection H as <-. auto with checker.
  - returned H; subst; auto with checker.
  - auto.
Qed.

Lemma checkJBODConsistency_compare_madeOnTheSpot jbodStr formatConfigs err :
  checkJBODConsistency_compare jbodStr formatConfigs = Return err ->
  madeOnTheSpot err.
Proof.
  induction formatConfigs as [|[format|] rest IH]; simpl; intros H.
  - injection H as <-. auto with checker.
  - returned H; subst; auto with checker.
  - auto.
Qed.

Lemma checkDisksConsistency_verify_madeOnTheSpot disks formatConfigs err :
  checkDisksConsistency_verify disks formatConfigs = Return err ->
  madeOnTheSpot err.
Proof.
  induction disks as [|uuid rest IH]; simpl; intros H.
  - injection H as <-. auto with checker.
  - returned H; subst; auto with checker.
Qed.

Lemma checkFormatXL_madeOnTheSpot formatConfigs err :
  checkFormatXL formatConfigs = Return err -> madeOnTheSpot err.
Proof.
  unfold checkFormatXL, checkJBODConsistency, checkDisksConsistency.
  intros H. apply bind_Return in H as (err1 & H1 & H).
  apply checkFormatXL_fields_madeOnTheSpot in H1.
  destruct err1 as [e1|].
  { injection H as <-. done. }
  apply bind_Return in H as (err2 & H2 & H).
  apply bind_Return in H2 as (jbodStr & _ & H2).
  apply checkJBODConsistency_compare_madeOnTheSpot in H2.
  destruct err2 as [e2|].
  { injection H as <-. done. }
  apply bind_Return in H as (disks & _ & H).
  by apply checkDisksConsistency_verify_madeOnTheSpot in H.
Qed.

Lemma reorderDisks_place_madeOnTheSpot
    bootstrapDisks savedJBOD formatConfigs fIndex newDisks out err :
  reorderDisks_place bootstrapDisks savedJBOD formatConfigs fIndex newDisks
  = Return (out, err) ->
  madeOnTheSpot err.
Proof.
  revert fIndex newDisks.
  induction formatConfigs as [|[format|] rest IH]; simpl; intros fIndex newDisks H.
  - injection H as _ <-. auto with checker.
  - returned H; subst; eauto with checker.
  - eauto.
Qed.

Lemma reorderDisks_madeOnTheSpot bootstrapDisks formatConfigs out err :
  reorderDisks bootstrapDisks formatConfigs = Return (out, err) ->
  madeOnTheSpot err.
Proof.
  unfold reorderDisks. intros H.
  apply bind_Return in H as (savedJBOD & _ & H).
  by apply reorderDisks_place_madeOnTheSpot in H.
Qed.

(** ** Error Reducer *)

(** C5 (counterexample). On the vector [nil, nil] of length 2, where no entry
    is Unformatted, the Error Reducer returns SomeUnformatted, not None; and
    on [Unformatted, Corrupted], where the rest is not absent, it returns
    SomeUnformatted as well. *)
Lemma reduceFormatErrs_counterexample :
  reduceFormatErrs [None; None] 2 = Some errSomeDiskUnformatted
  /\ ~ Exists isUnformatted [None; None]
  /\ reduceFormatErrs [None; None] 2 <> None
  /\ reduceFormatErrs [Some errUnformattedDisk; Some errCorruptedFormat] 2
     = Some errSomeDiskUnformatted.
Proof.
  repeat split; try reflexivity; try discriminate.
  intros H. apply Exists_cons in H as [H|H]; [discriminate H|].
  apply Exists_cons in H as [H|H]; [discriminate H|]. inversion H.
Qed.

(** C5 (amended). For every error vector of length N the Error Reducer
    returns AllUnformatted iff every entry is Unformatted; and when at least
    one entry is Unformatted it returns SomeUnformatted iff not every entry
    is Unformatted and none is Unreachable, SomeUnformattedAndSomeOffline iff
    not every entry is Unformatted and at least one is Unreachable, and never
    None. Entries that are neither Unformatted nor Unreachable (absent or any
    other error) play no role. *)
Theorem reduceFormatErrs_classifies (errs : list (option error)) :
  (reduceFormatErrs errs (len errs) = Some errUnformattedDisk
   <-> Forall isUnformatted errs)
  /\ (Exists isUnformatted errs ->
      (reduceFormatErrs errs (len errs) = Some errSomeDiskUnformatted
       <-> ~ Forall isUnformatted errs /\ ~ Exists isUnreachable errs)
      /\ (reduceFormatErrs errs (len errs) = Some errSomeDiskOffline
          <-> ~ Forall isUnformatted errs /\ Exists isUnreachable errs)
      /\ reduceFormatErrs errs (len errs) <> None).
Proof.
  unfold reduceFormatErrs. rewrite reduceFormatErrs_count_spec.
  unfold occurrences.
  pose proof (len_filter_bounds (fun err => err = Some errUnformattedDisk) errs) as Hu.
  pose proof (len_filter_bounds (fun err => err = Some errDiskNotFound) errs) as Hd.
  pose proof (len_filter_all isUnformatted errs) as Hall.
  pose proof (len_filter_some isUnformatted errs) as Hsome.
  pose proof (len_filter_some isUnreachable errs) as Hoff.
  unfold isUnformatted, isUnreachable in *.
  set (u := len (filter (fun err => err = Some errUnformattedDisk) errs)) in *.
  set (d := len (filter (fun err => err = Some errDiskNotFound) errs)) in *.
  set (all := Forall (fun err => err = Some errUnformattedDisk) errs) in *.
  set (off := Exists (fun err => err = Some errDiskNotFound) errs) in *.
  clearbody u d all off.
  assert (Hall' : all <-> u = len errs) by tauto.
  assert (Hoff' : off <-> 0 < d) by tauto.
  destruct (Z.eqb_spec u (len errs)) as [Heq|Hne].
  - split; [tauto|]. intros _.
    split; [|split]; [split; [discriminate|tauto] ..|discriminate].
  - destruct (Z.ltb_spec u (len errs)) as [Hlt|Hge]; [|lia].
    destruct (Z.eqb_spec d 0) as [Hd0|Hd0]; simpl.
    + split; [split; [discriminate | tauto]|]. intros _.
      split; [|split]; [| |discriminate].
      * split; [intros _|reflexivity]. split; [tauto|]. rewrite Hoff'. lia.
      * split; [discriminate|]. rewrite Hoff'. lia.
    + destruct (Z.gtb_spec d 0) as [Hpos|Hneg]; [|lia].
      split; [split; [discriminate | tauto]|]. intros _.
      split; [|split]; [| |discriminate].
      * split; [discriminate|]. rewrite Hoff'. lia.
      * split; [intros _|reflexivity]. split; [tauto|]. rewrite Hoff'. lia.
Qed.

(** A vector the amended C5 applies to. *)
Lemma reduceFormatErrs_classifies_witness :
  Exists isUnformatted [Some errUnformattedDisk; None]
  /\ reduceFormatErrs [Some errUnformattedDisk; None] 2 <> None.
Proof.
  assert (H : Exists isUnformatted [Some errUnformattedDisk; None])
    by (left; reflexivity).
  split; [exact H|].
  exact (proj2 (proj2 (proj2 (reduceFormatErrs_classifies
                                [Some errUnformattedDisk; None]) H))).
Defined.

(** ** Generic Fleet Gate *)

(** C6 (counterexample). On a fleet of three with two Corrupted entries the
    loop leaves errCount at 0 and the verdict is Corrupted, not
    NoReadQuorum. *)
Lemma genericFormatCheck_counterexample :
  let formatConfigs := [None; None; Some (xlConfig "c" ["a"; "b"; "c"])] in
  let sErrs := [Some errCorruptedFormat; Some errCorruptedFormat; None] in
  genericFormatCheck_count sErrs = (2, 0)
  /\ genericFormatCheck formatConfigs sErrs = Return (Some errCorruptedFormat)
  /\ genericFormatCheck formatConfigs sErrs <> Return (Some errXLReadQuorum).
Proof. repeat split; try reflexivity. discriminate. Qed.

(** C6 (amended). In the Generic Fleet Gate errCount counts the entries that
    are neither absent nor Unformatted nor volume-not-found nor Corrupted
    (Corrupted entries count toward corruptCount only); the gate fails with
    NoReadQuorum exactly when errCount > N − Q with Q = ⌊N/2⌋ + 1, N being
    the length of the manifest vector, and this check comes before the
    corruptCount > 0 check, which fails with Corrupted; otherwise the verdict
    is the Consistency Checker's. *)
Theorem genericFormatCheck_quorum
    (formatConfigs : list (option formatConfigV1)) (sErrs : list (option error)) :
  let N := len formatConfigs in
  let Q := N ÷ 2 + 1 in
  let errCount := len (filter countedAsError sErrs) in
  let corruptCount := occurrences errCorruptedFormat sErrs in
  genericFormatCheck_count sErrs = (corruptCount, errCount)
  /\ (genericFormatCheck formatConfigs sErrs = Return (Some errXLReadQuorum)
      <-> errCount > N - Q)
  /\ (errCount <= N - Q -> corruptCount > 0 ->
      genericFormatCheck formatConfigs sErrs = Return (Some errCorruptedFormat))
  /\ (errCount <= N - Q -> corruptCount = 0 ->
      genericFormatCheck formatConfigs sErrs = checkFormatXL formatConfigs).
Proof.
  intros N Q errCount corruptCount.
  split; [apply genericFormatCheck_count_spec|].
  unfold genericFormatCheck. rewrite genericFormatCheck_count_spec.
  fold N Q errCount corruptCount.
  destruct (Z.gtb_spec errCount (N - Q)) as [Hgt|Hle].
  - repeat split; intros; try lia; try reflexivity.
  - destruct (Z.gtb_spec corruptCount 0) as [Hc|Hc].
    + repeat split; intros; try lia; try reflexivity; discriminate.
    + repeat split; intros; try lia; try reflexivity.
      exfalso. apply checkFormatXL_madeOnTheSpot in H.
      destruct (H _ eq_refl) as [s Hs]. discriminate.
Qed.

(** A fleet the amended C6 applies to: three endpoints, one Corrupted, one
    failing with another error. *)
Lemma genericFormatCheck_quorum_witness :
  genericFormatCheck [None; None; Some (xlConfig "c" ["a"; "b"; "c"])]
                     [Some errCorruptedFormat; Some (storageError 5); None]
  = Return (Some errCorruptedFormat).
Proof.
  apply (genericFormatCheck_quorum
           [None; None; Some (xlConfig "c" ["a"; "b"; "c"])]
           [Some errCorruptedFormat; Some (storageError 5); None]).
  - vm_compute. discriminate.
  - reflexivity.
Defined.

(** ** Per-Endpoint Loader *)

Lemma json_Unmarshal_error (buffer : bytes) (e : error) :
  json_Unmarshal buffer = inr e -> exists s, e = jsonError s.
Proof.
  destruct buffer as [|[format|text] [|c rest]]; simpl; intros H;
    try discriminate; injection H as <-; eauto.
Qed.

(** C7 (counterexample). An endpoint whose [format.json] is read but does
    not decode: the loader returns the decoder's error, which is not the
    Corrupted sentinel, and the Generic Fleet Gate counts it into errCount,
    not into corruptCount. *)
Lemma loadFormat_counterexample :
  let disk := endpointHolding [garbage "{version"] in
  ReadFile disk minioMetaBucket formatConfigFile = ([garbage "{version"], None)
  /\ loadFormat (Some disk)
     = Return (None, Some (jsonError "invalid character in {version"))
  /\ loadFormat (Some disk) <> Return (None, Some errCorruptedFormat)
  /\ genericFormatCheck_count
       [Some (jsonError "invalid character in {version")] = (0, 1).
Proof. repeat split; try reflexivity. vm_compute. discriminate. Qed.

(** C7 (amended). For every endpoint whose manifest file is read
    successfully but whose payload fails to decode, the Per-Endpoint Loader
    returns the decoder's error unchanged; that error is not the Corrupted
    taxon, and the Generic Fleet Gate counts it into errCount, not into
    corruptCount. *)
Theorem loadFormat_decode_failure (disk : endpoint) (buffer : bytes) (e : error) :
  ReadFile disk minioMetaBucket formatConfigFile = (buffer, None) ->
  json_Unmarshal buffer = inr e ->
  loadFormat (Some disk) = Return (None, Some e)
  /\ e <> errCorruptedFormat
  /\ countedAsError (Some e)
  /\ genericFormatCheck_count [Some e] = (0, 1).
Proof.
  intros Hread Hdecode.
  destruct (json_Unmarshal_error _ _ Hdecode) as [s ->].
  split; [|split; [discriminate|split]].
  - unfold loadFormat, readAll. simpl. rewrite Hread, Hdecode. reflexivity.
  - unfold countedAsError. repeat split; discriminate.
  - reflexivity.
Qed.

(** An endpoint the amended C7 applies to: an empty [format.json]. *)
Lemma loadFormat_decode_failure_witness :
  loadFormat (Some (endpointHolding []))
  = Return (None, Some (jsonError "unexpected end of JSON input")).
Proof.
  apply (loadFormat_decode_failure (endpointHolding []) []
           (jsonError "unexpected end of JSON input")); reflexivity.
Defined.

(** ** Consistency Checker *)

(** C4 (the code at the failing input). Two manifests whose orders differ at
    positions 2 and 3 but join to the same string: [checkJBODConsistency]
    and the whole Consistency Checker accept the vector. *)
Theorem checkFormatXL_accepts_different_orders :
  let M1 := xlConfig "x" ["x"; "y"; "a.b"; "c"] in
  let M2 := xlConfig "y" ["x"; "y"; "a"; "b.c"] in
  ["x"; "y"; "a.b"; "c"] !! 2%nat <> ["x"; "y"; "a"; "b.c"] !! 2%nat
  /\ Join ["x"; "y"; "a.b"; "c"] "." = Join ["x"; "y"; "a"; "b.c"] "."
  /\ checkJBODConsistency [Some M1; Some M2; None; None] = Return None
  /\ checkFormatXL [Some M1; Some M2; None; None] = Return None.
Proof. repeat split; try reflexivity. discriminate. Qed.

(** C10 (the code at the failing input). A payload that decodes to a
    manifest of kind "xl" without xl section is loaded without error; on it
    [checkFormatXL] and [checkDisksConsistency] dereference nil and panic. *)
Theorem checkFormatXL_nil_xl_panics :
  let M := {| Version := "1"; Format := "xl"; FS := None; XL := None |} in
  loadFormat (Some (endpointHolding [jsonOf M])) = Return (Some M, None)
  /\ checkFormatXL [Some M] = Panic nilDereference
  /\ checkDisksConsistency [Some M] = Panic nilDereference.
Proof. repeat split; reflexivity. Qed.

(** ** Mount procedure *)

Lemma manifestOf_loaded disk format :
  loadFormat disk = Return (Some format, None) -> manifestOf disk = Some format.
Proof. unfold manifestOf. by intros ->. Qed.

Lemma manifestOf_classified disk e :
  classifiedAs e disk -> manifestOf disk = None.
Proof. unfold manifestOf, classifiedAs. by intros ->. Qed.

Lemma loadFormatXL_load_counts (bootstrapDisks : list StorageAPI) (u0 d0 : Z) :
  Forall mountable bootstrapDisks ->
  loadFormatXL_load bootstrapDisks u0 d0
  = Return (inr (map manifestOf bootstrapDisks,
                 u0 + len (filter (classifiedAs errUnformattedDisk) bootstrapDisks),
                 d0 + len (filter (classifiedAs errDiskNotFound) bootstrapDisks))).
Proof.
  intros Hall. revert u0 d0.
  induction Hall as [|disk rest Hdisk _ IH]; intros u0 d0.
  - simpl. unfold len. simpl. rewrite !Z.add_0_r. reflexivity.
  - cbn [loadFormatXL_load map]. rewrite !len_filter_cons.
    destruct Hdisk as [[format Hload]|[Hload|Hload]].
    + rewrite (manifestOf_loaded _ _ Hload).
      rewrite !decide_False by (unfold classifiedAs; rewrite Hload; discriminate).
      rewrite Hload. simpl. rewrite IH. simpl.
      rewrite ?Z.add_0_l, ?Z.add_assoc. reflexivity.
    + rewrite (manifestOf_classified _ _ Hload).
      rewrite decide_True by done.
      rewrite decide_False
        by (unfold classifiedAs in *; rewrite Hload; discriminate).
      rewrite Hload. simpl. rewrite IH. simpl.
      rewrite ?Z.add_0_l, ?Z.add_assoc. reflexivity.
    + rewrite (manifestOf_classified _ _ Hload).
      rewrite decide_False
        by (unfold classifiedAs in *; rewrite Hload; discriminate).
      rewrite decide_True by done.
      rewrite Hload. simpl. rewrite IH. simpl.
      rewrite ?Z.add_0_l, ?Z.add_assoc. reflexivity.
Qed.

Lemma checkThenReorder_madeOnTheSpot bootstrapDisks formatConfigs out err :
  checkThenReorder bootstrapDisks formatConfigs = Return (out, err) ->
  madeOnTheSpot err.
Proof.
  unfold checkThenReorder. intros H.
  apply bind_Return in H as (err1 & H1 & H).
  apply checkFormatXL_madeOnTheSpot in H1.
  destruct err1 as [e1|].
  - injection H as _ <-. done.
  - by apply reorderDisks_madeOnTheSpot in H.
Qed.

Lemma checkThenReorder_no_sentinel bootstrapDisks formatConfigs out e :
  checkThenReorder bootstrapDisks formatConfigs = Return (out, Some e) ->
  e <> errUnformattedDisk /\ e <> errDiskNotFound /\ e <> errXLReadQuorum.
Proof.
  intros H. apply checkThenReorder_madeOnTheSpot in H.
  destruct (H e eq_refl) as [s ->]. repeat split; discriminate.
Qed.

(** What [loadFormatXL] does once every endpoint is loaded as a manifest, as
    Unformatted or as Unreachable. *)
Lemma loadFormatXL_mountable (bootstrapDisks : list StorageAPI) :
  Forall mountable bootstrapDisks ->
  let N := len bootstrapDisks in
  let u := len (filter (classifiedAs errUnformattedDisk) bootstrapDisks) in
  let d := len (filter (classifiedAs errDiskNotFound) bootstrapDisks) in
  loadFormatXL bootstrapDisks
  = if u =? N then Return ([], Some errUnformattedDisk)
    else if d =? N then Return ([], Some errDiskNotFound)
    else if d >? N - (N ÷ 2 + 1) then Return ([], Some errXLReadQuorum)
    else if u >? N - (N ÷ 2 + 1) then Return ([], Some errXLReadQuorum)
    else checkThenReorder bootstrapDisks (map manifestOf bootstrapDisks).
Proof.
  intros Hall N u d. unfold loadFormatXL.
  rewrite (loadFormatXL_load_counts _ 0 0 Hall). simpl bind.
  rewrite !Z.add_0_l. reflexivity.
Qed.

(** C3 (counterexample). A fleet of three whose first endpoint is Corrupted
    and whose two others are Unreachable: u = 0, d = 2 > N − Q = 1, and the
    mount returns Corrupted, not NoReadQuorum. And on one Unreachable
    endpoint (N = 1, so N − Q + 1 = 1 unreachable) the mount returns
    Unreachable, not NoReadQuorum. *)
Lemma loadFormatXL_counterexample :
  (let fleet := [Some userDataEndpoint; Some offlineEndpoint; Some offlineEndpoint] in
   len (filter (classifiedAs errUnformattedDisk) fleet) = 0
   /\ len (filter (classifiedAs errDiskNotFound) fleet) = 2
   /\ 2 > len fleet - (len fleet ÷ 2 + 1)
   /\ loadFormatXL fleet = Return ([], Some errCorruptedFormat))
  /\ (let fleet := [Some offlineEndpoint] in
      len (filter (classifiedAs errDiskNotFound) fleet)
      = len fleet - (len fleet ÷ 2 + 1) + 1
      /\ loadFormatXL fleet = Return ([], Some errDiskNotFound)).
Proof. vm_compute. repeat split; congruence. Qed.

(** C3 (amended). For every N ≥ 1 and every fleet in which each endpoint is
    loaded as a manifest, as Unformatted or as Unreachable, with u endpoints
    Unformatted and d Unreachable, the Mount procedure returns Unformatted
    iff u = N; otherwise Unreachable iff d = N; otherwise NoReadQuorum iff
    d > N − Q or u > N − Q with Q = ⌊N/2⌋ + 1; otherwise it proceeds to the
    Consistency Checker and the Reorderer. In particular with exactly N − Q
    unreachable endpoints and no Unformatted one the mount proceeds, and with
    N − Q + 1 unreachable endpoints and N ≥ 2 it returns NoReadQuorum. *)
Theorem loadFormatXL_verdict (bootstrapDisks : list StorageAPI) :
  let N := len bootstrapDisks in
  let Q := N ÷ 2 + 1 in
  let u := len (filter (classifiedAs errUnformattedDisk) bootstrapDisks) in
  let d := len (filter (classifiedAs errDiskNotFound) bootstrapDisks) in
  let proceeds :=
    loadFormatXL bootstrapDisks
    = checkThenReorder bootstrapDisks (map manifestOf bootstrapDisks) in
  N >= 1 ->
  Forall mountable bootstrapDisks ->
  (loadFormatXL bootstrapDisks = Return ([], Some errUnformattedDisk) <-> u = N)
  /\ (u <> N ->
      (loadFormatXL bootstrapDisks = Return ([], Some errDiskNotFound) <-> d = N))
  /\ (u <> N -> d <> N ->
      (loadFormatXL bootstrapDisks = Return ([], Some errXLReadQuorum)
       <-> d > N - Q \/ u > N - Q))
  /\ (u <> N -> d <> N -> d <= N - Q -> u <= N - Q -> proceeds)
  /\ (d = N - Q -> u = 0 -> proceeds)
  /\ (d = N - Q + 1 -> N >= 2 ->
      loadFormatXL bootstrapDisks = Return ([], Some errXLReadQuorum)).
Proof.
  intros N Q u d proceeds HN Hall. subst proceeds.
  rewrite (loadFormatXL_mountable _ Hall). fold N u d.
  pose proof (len_filter_bounds (classifiedAs errUnformattedDisk) bootstrapDisks) as Hu.
  pose proof (len_filter_bounds (classifiedAs errDiskNotFound) bootstrapDisks) as Hd.
  fold N u d in Hu, Hd.
  assert (Hud : u + d <= N).
  { apply len_filter_disjoint. unfold classifiedAs. intros disk H1 H2.
    rewrite H1 in H2. discriminate. }
  assert (HQ : 2 * Q - 2 <= N < 2 * Q).
  { unfold Q. rewrite Z.quot_div_nonneg by lia.
    Z.to_euclidean_division_equations. lia. }
  fold Q. clearbody Q N u d.
  assert (Hno : forall out e,
             checkThenReorder bootstrapDisks (map manifestOf bootstrapDisks)
             = Return (out, Some e) ->
             e <> errUnformattedDisk /\ e <> errDiskNotFound
             /\ e <> errXLReadQuorum)
    by apply checkThenReorder_no_sentinel.
  destruct (Z.eqb_spec u N) as [HuN|HuN];
    [|destruct (Z.eqb_spec d N) as [HdN|HdN];
      [|destruct (Z.gtb_spec d (N - Q)) as [Hdq|Hdq];
        [|destruct (Z.gtb_spec u (N - Q)) as [Huq|Huq]]]];
    repeat split; intros;
    try first [ lia | reflexivity | discriminate
          | match goal with
            | H : checkThenReorder _ _ = Return (_, Some _) |- _ =>
                apply Hno in H; tauto
            end ].
Qed.

(** A fleet the amended C3 applies to: three endpoints, one of them
    Unreachable (N − Q = 1), the others formatted. *)
Lemma loadFormatXL_verdict_witness :
  let order := ["a"; "b"; "c"] in
  let fleet := [Some (endpointHolding [jsonOf (xlConfig "b" order)]);
                Some offlineEndpoint;
                Some (endpointHolding [jsonOf (xlConfig "a" order)])] in
  loadFormatXL fleet = checkThenReorder fleet (map manifestOf fleet).
Proof.
  intros order fleet.
  apply (loadFormatXL_verdict fleet).
  - vm_compute. discriminate.
  - apply Forall_cons. split; [left; eexists; reflexivity|].
    apply Forall_cons. split; [right; right; reflexivity|].
    apply Forall_cons. split; [left; eexists; reflexivity|].
    apply Forall_nil_2.
  - reflexivity.
  - reflexivity.
Defined.

(** ** Healer *)

Section HealingProperties.

Variable new_identity : nat -> string.

(** The loading loop of the Healer stops with [return nil] at the first
    Unreachable endpoint, when every endpoint before it is loaded as a
    manifest or as Unformatted. *)
Lemma healFormatXL_load_unreachable
    (before : list StorageAPI) (disk : StorageAPI) (after : list StorageAPI) :
  Forall (fun d => loadsManifest d \/ classifiedAs errUnformattedDisk d) before ->
  classifiedAs errDiskNotFound disk ->
  healFormatXL_load (before ++ disk :: after) = Return (inl None).
Proof.
  intros Hbefore Hdisk.
  induction Hbefore as [|d rest Hd _ IH]; simpl.
  - unfold classifiedAs in Hdisk. rewrite Hdisk. reflexivity.
  - destruct Hd as [[format Hload]|Hload].
    + rewrite Hload. simpl. rewrite IH. reflexivity.
    + unfold classifiedAs in Hload. rewrite Hload. simpl.
      rewrite IH. reflexivity.
Qed.

(** C1 (counterexample). A fleet of three: a manifest, an Unformatted
    endpoint and an Unreachable one. The Healer, which takes no force
    permission, returns nil (no NeedsForce, no error at all), mints
    nothing and leaves every endpoint as it was. *)
Lemma healFormatXL_counterexample :
  let fleet := [Some (endpointHolding [jsonOf (xlConfig "a" ["a"; "b"; "c"])]);
                Some freshEndpoint;
                Some offlineEndpoint] in
  loadsManifest (Some (endpointHolding [jsonOf (xlConfig "a" ["a"; "b"; "c"])]))
  /\ classifiedAs errUnformattedDisk (Some freshEndpoint)
  /\ classifiedAs errDiskNotFound (Some offlineEndpoint)
  /\ healFormatXL scenarioUUID fleet 0 = Return (fleet, 0%nat, None)
  /\ ~ exists disks minted e,
         healFormatXL scenarioUUID fleet 0 = Return (disks, minted, Some e).
Proof.
  intros fleet.
  assert (Hrun : healFormatXL scenarioUUID fleet 0 = Return (fleet, 0%nat, None))
    by reflexivity.
  split; [eexists; reflexivity|].
  split; [reflexivity|]. split; [reflexivity|]. split; [exact Hrun|].
  intros (disks & minted & e & H). rewrite Hrun in H. discriminate.
Qed.

(** C1 (amended). The Healer takes no force permission. For every fleet
    in which some endpoint is Unreachable and every endpoint before it, in
    bootstrap order, is loaded as a manifest or as Unformatted, it returns
    success at once: nothing is written and no identity is minted. *)
Theorem healFormatXL_unreachable
    (before : list StorageAPI) (disk : StorageAPI) (after : list StorageAPI)
    (minted : nat) :
  Forall (fun d => loadsManifest d \/ classifiedAs errUnformattedDisk d) before ->
  classifiedAs errDiskNotFound disk ->
  healFormatXL new_identity (before ++ disk :: after) minted
  = Return (before ++ disk :: after, minted, None).
Proof.
  intros Hbefore Hdisk. unfold healFormatXL.
  rewrite (healFormatXL_load_unreachable _ _ _ Hbefore Hdisk). reflexivity.
Qed.

End HealingProperties.

(** A fleet the amended C1 applies to: a manifest, an Unformatted endpoint,
    an Unreachable endpoint and a manifest. *)
Lemma healFormatXL_unreachable_witness :
  let order := ["a"; "b"; "c"; "d"] in
  let fleet := [Some (endpointHolding [jsonOf (xlConfig "a" order)]);
                Some freshEndpoint] ++
               Some offlineEndpoint ::
               [Some (endpointHolding [jsonOf (xlConfig "d" order)])] in
  healFormatXL scenarioUUID fleet 7 = Return (fleet, 7%nat, None).
Proof.
  intros order fleet.
  apply (healFormatXL_unreachable scenarioUUID
           [Some (endpointHolding [jsonOf (xlConfig "a" order)]);
            Some freshEndpoint]
           (Some offlineEndpoint)
           [Some (endpointHolding [jsonOf (xlConfig "d" order)])] 7).
  - apply Forall_cons. split; [left; eexists; reflexivity|].
    apply Forall_cons. split; [right; reflexivity|].
    apply Forall_nil_2.
  - reflexivity.
Defined.

(** ** Reorderer *)

Section Assignments.

Context {A : Type}.
Implicit Types (ks : list nat) (ds s : list A).

Lemma assignAll_length ks ds s : length (assignAll ks ds s) = length s.
Proof.
  revert ds s. induction ks as [|k ks IH]; intros [|d ds] s; simpl; try done.
  by rewrite IH, length_insert.
Qed.

Lemma assignAll_untouched ks ds s k :
  k ∉ ks -> assignAll ks ds s !! k = s !! k.
Proof.
  revert ds s. induction ks as [|k' ks IH]; intros [|d ds] s Hk; simpl; try done.
  apply not_elem_of_cons in Hk as [Hne Hk].
  rewrite IH by done. by apply list_lookup_insert_ne.
Qed.

(** Positions that are pairwise different keep what was assigned to
    them. *)
Lemma assignAll_lookup ks ds s i k d :
  NoDup ks ->
  Forall (fun k => (k < length s)%nat) ks ->
  ks !! i = Some k -> ds !! i = Some d ->
  assignAll ks ds s !! k = Some d.
Proof.
  revert ds s i. induction ks as [|k' ks IH]; intros [|d' ds] s i Hnd Hlt Hk Hd;
    try done.
  apply NoDup_cons in Hnd as [Hnotin Hnd].
  apply Forall_cons in Hlt as [Hk' Hlt].
  destruct i as [|i]; simpl in *.
  - injection Hk as ->. injection Hd as ->.
    rewrite assignAll_untouched by done. by apply list_lookup_insert_eq.
  - eapply IH; eauto.
    eapply Forall_impl; [exact Hlt|]. intros k0 Hk0. by rewrite length_insert.
Qed.

(** As many pairwise different positions as the slice has slots: the
    slice becomes a permutation of the values assigned. *)
Lemma assignAll_Permutation `{!Inhabited A} ks ds s :
  NoDup ks ->
  Forall (fun k => (k < length s)%nat) ks ->
  length ks = length s -> length ds = length s ->
  ds ≡ₚ assignAll ks ds s.
Proof.
  intros Hnd Hlt Hks Hds.
  set (out := assignAll ks ds s).
  assert (Hout : length out = length s) by apply assignAll_length.
  assert (Hfrom : (fun k => out !!! k) <$> ks = ds).
  { apply list_eq. intros i. rewrite list_lookup_fmap.
    destruct (ks !! i) as [k|] eqn:Hk; simpl.
    - destruct (lookup_lt_is_Some_2 ds i) as [d Hd].
      { apply lookup_lt_Some in Hk. lia. }
      rewrite Hd. f_equal. apply list_lookup_total_correct.
      eapply assignAll_lookup; eauto.
    - symmetry. apply lookup_ge_None. apply lookup_ge_None in Hk. lia. }
  assert (Hall : (fun k => out !!! k) <$> seq 0 (length s) = out).
  { apply list_eq. intros i. rewrite list_lookup_fmap.
    destruct (decide (i < length s)%nat) as [Hi|Hi].
    - rewrite lookup_seq_lt by done. simpl. symmetry.
      apply list_lookup_lookup_total_lt. lia.
    - rewrite lookup_seq_ge by lia. simpl. symmetry.
      apply lookup_ge_None. lia. }
  assert (Hperm : ks ≡ₚ seq 0 (length s)).
  { apply submseteq_length_Permutation.
    - apply NoDup_submseteq; [done|]. intros k Hk.
      apply elem_of_seq. rewrite Forall_forall in Hlt.
      specialize (Hlt k Hk). lia.
    - rewrite length_seq. lia. }
  clearbody out. rewrite <- Hall, <- Hperm. by rewrite Hfrom.
Qed.

(** Every slot is one of the positions, hence assigned. *)
Lemma assignAll_onto ks s k :
  NoDup ks ->
  Forall (fun k => (k < length s)%nat) ks ->
  length ks = length s -> (k < length s)%nat ->
  exists i, ks !! i = Some k.
Proof.
  intros Hnd Hlt Hks Hk.
  assert (Hperm : ks ≡ₚ seq 0 (length s)).
  { apply submseteq_length_Permutation.
    - apply NoDup_submseteq; [done|]. intros k' Hk'.
      apply elem_of_seq. rewrite Forall_forall in Hlt.
      specialize (Hlt k' Hk'). lia.
    - rewrite length_seq. lia. }
  apply list_elem_of_lookup. rewrite Hperm. apply elem_of_seq. lia.
Qed.

End Assignments.

Lemma findDiskIndex_from_spec (disk : string) (jbod : list string) (i : Z) :
  0 <= i ->
  findDiskIndex_from disk jbod i = -1
  \/ exists n : nat, findDiskIndex_from disk jbod i = i + Z.of_nat n
                     /\ jbod !! n = Some disk.
Proof.
  revert i. induction jbod as [|uuid rest IH]; intros i Hi; simpl.
  - by left.
  - destruct (decide (uuid = disk)) as [->|Hne].
    + right. exists 0%nat. split; [lia|done].
    + destruct (IH (i + 1)) as [Hnone|(n & Hn & Hlook)]; [lia|by left|].
      right. exists (S n). split; [lia|done].
Qed.

Lemma findDiskIndex_found (disk : string) (jbod : list string) :
  findDiskIndex disk jbod <> -1 ->
  exists n : nat, findDiskIndex disk jbod = Z.of_nat n /\ jbod !! n = Some disk.
Proof.
  unfold findDiskIndex. intros Hfound.
  destruct (findDiskIndex_from_spec disk jbod 0) as [Hnone|(n & Hn & Hlook)];
    [lia|done|].
  exists n. split; [lia|done].
Qed.

(** *** What an accepted vector satisfies *)

Lemma checkFormatXL_fields_accepted n formatConfigs format :
  checkFormatXL_fields n formatConfigs = Return None ->
  Some format ∈ formatConfigs ->
  exists xl, XL format = Some xl /\ Version format = "1" /\ Format format = "xl"
             /\ xlVersion xl = "1" /\ len (JBOD xl) = n.
Proof.
  induction formatConfigs as [|[formatXL|] rest IH]; simpl; intros H Hin.
  - by apply elem_of_nil in Hin.
  - returned H; try discriminate.
    apply elem_of_cons in Hin as [Heq|Hin]; [|by apply IH].
    injection Heq as ->. destruct (XL formatXL) as [xl|]; [|discriminate].
    injection Ha as <-. exists xl.
    apply dec_stable in Hdec, Hdec0, Hdec1, Hdec2.
    by rewrite Hdec, Hdec0, Hdec1, Hdec2.
  - apply elem_of_cons in Hin as [Heq|Hin]; [discriminate|by apply IH].
Qed.

Lemma isSavedUUIDInOrder_collect_spec uuid formatConfigs orderIndexes l :
  isSavedUUIDInOrder_collect uuid formatConfigs orderIndexes = Return (Some l) ->
  (forall format, Some format ∈ formatConfigs ->
     exists xl, XL format = Some xl /\ findDiskIndex uuid (JBOD xl) <> -1)
  /\ l = orderIndexes
         ++ ((fun format => findDiskIndex uuid (orderOf format) + 1)
               <$> omap id formatConfigs).
Proof.
  revert orderIndexes.
  induction formatConfigs as [|[formatConfig|] rest IH]; simpl;
    intros orderIndexes H.
  - injection H as <-. split; [|by rewrite app_nil_r].
    intros format Hin. by apply elem_of_nil in Hin.
  - apply bind_Return in H as (xl & Hxl & H).
    destruct (XL formatConfig) as [xl'|] eqn:HXL; [|discriminate].
    injection Hxl as ->.
    destruct (Z.eqb_spec (findDiskIndex uuid (JBOD xl)) (-1)) as [|Hfound];
      [discriminate|].
    apply IH in H as [Hall ->]. split.
    + intros format Hin. apply elem_of_cons in Hin as [Heq|Hin]; [|by apply Hall].
      injection Heq as ->. eauto.
    + unfold orderOf at 2. rewrite HXL, <- app_assoc. reflexivity.
  - apply IH in H as [Hall ->]. split; [|done].
    intros format Hin.
    apply elem_of_cons in Hin as [Heq|Hin]; [discriminate|by apply Hall].
Qed.

Lemma elem_of_omap_id {A : Type} (l : list (option A)) (x : A) :
  x ∈ omap id l <-> Some x ∈ l.
Proof.
  rewrite list_elem_of_omap. split.
  - intros (o & Hin & Ho). simpl in Ho. by subst.
  - intros Hin. by exists (Some x).
Qed.

(** The uuid is in every JBOD at hand, at one and the same position. *)
Lemma isSavedUUIDInOrder_true uuid formatConfigs format :
  isSavedUUIDInOrder uuid formatConfigs = Return true ->
  Some format ∈ formatConfigs ->
  (exists xl, XL format = Some xl /\ findDiskIndex uuid (JBOD xl) <> -1)
  /\ forall format', Some format' ∈ formatConfigs ->
       findDiskIndex uuid (orderOf format') = findDiskIndex uuid (orderOf format).
Proof.
  unfold isSavedUUIDInOrder. intros H Hin.
  apply bind_Return in H as ([l|] & Hcollect & H); [|discriminate].
  apply isSavedUUIDInOrder_collect_spec in Hcollect as [Hall ->].
  split; [by apply Hall|].
  cbn [app] in H.
  remember ((fun f => findDiskIndex uuid (orderOf f) + 1)
              <$> omap id formatConfigs) as L eqn:HL.
  destruct L as [|prev l]; [discriminate|].
  assert (Hfor : forallb (fun orderIndex => prev =? orderIndex) (prev :: l)
                 = true) by congruence.
  clear H Hall. rename Hfor into H. rewrite HL in H.
  assert (Hsame : forall f, Some f ∈ formatConfigs ->
            findDiskIndex uuid (orderOf f) + 1 = prev).
  { intros f Hf. rewrite forallb_forall in H.
    specialize (H (findDiskIndex uuid (orderOf f) + 1)).
    symmetry. apply Z.eqb_eq, H. apply list_elem_of_In.
    apply list_elem_of_fmap. exists f. split; [done|].
    by apply elem_of_omap_id. }
  intros format' Hin'. apply Hsame in Hin, Hin'. lia.
Qed.

Lemma checkDisksConsistency_collect_spec formatConfigs disks format :
  checkDisksConsistency_collect formatConfigs = Return disks ->
  Some format ∈ formatConfigs ->
  identityOf format ∈ disks.
Proof.
  revert disks.
  induction formatConfigs as [|[formatConfig|] rest IH]; simpl; intros disks H Hin.
  - by apply elem_of_nil in Hin.
  - apply bind_Return in H as (xl & Hxl & H).
    apply bind_Return in H as (disks' & Hrest & H). injection H as <-.
    apply elem_of_cons in Hin as [Heq|Hin].
    + injection Heq as ->. unfold identityOf.
      destruct (XL formatConfig); [|discriminate]. injection Hxl as ->.
      apply elem_of_cons. by left.
    + apply elem_of_cons. right. by apply IH.
  - apply bind_Return in H as (disks' & Hrest & H). injection H as <-.
    apply elem_of_cons in Hin as [Heq|Hin]; [discriminate|].
    apply elem_of_cons. right. by apply IH.
Qed.

Lemma checkDisksConsistency_verify_accepted disks formatConfigs uuid :
  checkDisksConsistency_verify disks formatConfigs = Return None ->
  uuid ∈ disks -> uuid <> "" ->
  isSavedUUIDInOrder uuid formatConfigs = Return true.
Proof.
  induction disks as [|uuid' rest IH]; simpl; intros H Hin Hne.
  - by apply elem_of_nil in Hin.
  - destruct (decide (uuid' = "")) as [->|Hne'].
    + apply elem_of_cons in Hin as [->|Hin]; [done|by apply IH].
    + apply bind_Return in H as (ok & Hok & H).
      destruct ok; [|discriminate].
      apply elem_of_cons in Hin as [->|Hin]; [done|by apply IH].
Qed.

(** A vector the Consistency Checker accepts: every manifest at hand has
    the version fields and an order of length N, and every non-empty
    identity at hand is in every order at hand, at one position. *)
Lemma checkFormatXL_accepted formatConfigs :
  checkFormatXL formatConfigs = Return None ->
  (forall format, Some format ∈ formatConfigs ->
     exists xl, XL format = Some xl /\ Version format = "1"
                /\ Format format = "xl" /\ xlVersion xl = "1"
                /\ len (JBOD xl) = len formatConfigs)
  /\ (forall format format', Some format ∈ formatConfigs ->
        Some format' ∈ formatConfigs -> identityOf format <> "" ->
        findDiskIndex (identityOf format) (orderOf format') <> -1
        /\ findDiskIndex (identityOf format) (orderOf format')
           = findDiskIndex (identityOf format) (orderOf format)).
Proof.
  unfold checkFormatXL, checkDisksConsistency. intros H.
  apply bind_Return in H as ([e1|] & Hfields & H); [discriminate|].
  apply bind_Return in H as ([e2|] & _ & H); [discriminate|].
  apply bind_Return in H as (disks & Hdisks & Hverify).
  split.
  - intros format Hin. by eapply checkFormatXL_fields_accepted.
  - intros format format' Hin Hin' Hne.
    assert (Hsaved : isSavedUUIDInOrder (identityOf format) formatConfigs
                     = Return true).
    { eapply checkDisksConsistency_verify_accepted; eauto.
      by eapply checkDisksConsistency_collect_spec. }
    destruct (isSavedUUIDInOrder_true _ _ _ Hsaved Hin') as [(xl & HXL & Hfound) _].
    destruct (isSavedUUIDInOrder_true _ _ _ Hsaved Hin) as [_ Hsame].
    split; [|by apply Hsame].
    unfold orderOf. by rewrite HXL.
Qed.

Lemma index_nat {A : Type} (s : list A) (n : nat) (a : A) :
  s !! n = Some a -> index s (Z.of_nat n) = Return a.
Proof.
  intros Hlook. unfold index, len.
  pose proof (lookup_lt_Some _ _ _ Hlook) as Hlt.
  destruct (Z.leb_spec 0 (Z.of_nat n)); [|lia].
  destruct (Z.ltb_spec (Z.of_nat n) (Z.of_nat (length s))); [|lia].
  simpl. by rewrite Nat2Z.id, Hlook.
Qed.

Lemma assign_nat {A : Type} (s : list A) (n : nat) (a : A) :
  (n < length s)%nat -> assign s (Z.of_nat n) a = Return (<[n := a]> s).
Proof.
  intros Hlt. unfold assign, len.
  destruct (Z.leb_spec 0 (Z.of_nat n)); [|lia].
  destruct (Z.ltb_spec (Z.of_nat n) (Z.of_nat (length s))); [|lia].
  simpl. by rewrite Nat2Z.id.
Qed.

(** The second loop of the Reorderer over manifests that are all at hand
    and all recognized: a run of slice assignments. *)
Lemma reorderDisks_place_run
    (bootstrapDisks : list StorageAPI) (savedJBOD : list string)
    (manifests : list formatConfigV1) (n : nat) (newDisks : list StorageAPI) :
  (n + length manifests <= length bootstrapDisks)%nat ->
  Forall (fun manifest =>
            exists xl k, XL manifest = Some xl
                         /\ findDiskIndex (Disk xl) savedJBOD = Z.of_nat k
                         /\ (k < length newDisks)%nat) manifests ->
  reorderDisks_place bootstrapDisks savedJBOD (Some <$> manifests)
                     (Z.of_nat n) newDisks
  = Return (assignAll (positions savedJBOD manifests)
                      (take (length manifests) (drop n bootstrapDisks))
                      newDisks, None).
Proof.
  revert n newDisks.
  induction manifests as [|manifest rest IH]; intros n newDisks Hlen Hall.
  - reflexivity.
  - apply Forall_cons in Hall as [(xl & k & HXL & Hk & Hlt) Hall].
    simpl in Hlen.
    destruct (lookup_lt_is_Some_2 bootstrapDisks n) as [disk Hdisk]; [lia|].
    cbn [fmap list_fmap reorderDisks_place length].
    rewrite HXL. cbn [deref bind]. rewrite Hk.
    destruct (Z.eqb_spec (Z.of_nat k) (-1)) as [|_]; [lia|].
    rewrite (index_nat _ _ _ Hdisk). cbn [bind].
    rewrite (assign_nat _ _ _ Hlt). cbn [bind].
    replace (Z.of_nat n + 1) with (Z.of_nat (S n)) by lia.
    rewrite (IH (S n)); [|lia|].
    + rewrite (drop_S _ _ _ Hdisk). cbn [take positions fmap list_fmap assignAll].
      assert (Hid : identityOf manifest = Disk xl)
        by (unfold identityOf; by rewrite HXL).
      rewrite Hid, Hk, Nat2Z.id. reflexivity.
    + eapply Forall_impl; [exact Hall|]. intros m (xl' & k' & ? & ? & ?).
      exists xl', k'. by rewrite length_insert.
Qed.

(** C8 (counterexample). Two endpoints whose manifests carry the same
    identity: the Consistency Checker accepts the vector and the Reorderer
    succeeds, but its output holds the second endpoint once, the first not at
    all, and an empty slot. And one endpoint whose manifest carries the empty
    identity: the Consistency Checker accepts it and the Reorderer fails. *)
Lemma reorderDisks_counterexample :
  (let M := xlConfig "a" ["a"; "b"] in
   let E0 := Some (endpointHolding [jsonOf M]) in
   let E1 := Some {| fault := None;
                     volumes := {[ minioMetaBucket := {[ formatConfigFile := [jsonOf M] ]};
                                   "photos" := ∅ ]} |} in
   checkFormatXL [Some M; Some M] = Return None
   /\ reorderDisks [E0; E1] [Some M; Some M] = Return ([E1; None], None)
   /\ ~ [E0; E1] ≡ₚ [E1; None])
  /\ (let M := xlConfig "" ["a"] in
      checkFormatXL [Some M] = Return None
      /\ reorderDisks [Some (endpointHolding [jsonOf M])] [Some M]
         = Return ([], Some (errorString "Unrecognized uuid  found"))).
Proof.
  split; [|split; reflexivity].
  intros M E0 E1. split; [reflexivity|]. split; [reflexivity|].
  intros Hperm.
  assert (Hin : E0 ∈ [E1; None]) by (rewrite <- Hperm; apply elem_of_cons; by left).
  apply elem_of_cons in Hin as [Heq|Hin].
  - apply (f_equal (fun disk : StorageAPI =>
                      match disk with
                      | Some d => volumes d !! "photos"
                      | None => None
                      end)) in Heq.
    vm_compute in Heq. discriminate.
  - apply elem_of_cons in Hin as [Heq|Hin]; [discriminate|].
    by apply elem_of_nil in Hin.
Qed.

(** C8 (amended). For every bootstrap endpoint vector of length N on which
    all N manifests are present, have passed the Consistency Checker and
    carry pairwise distinct, non-empty identities, the Reorderer succeeds and
    its output vector is a permutation of the input endpoint vector: every
    input endpoint is at the position its manifest's identity occupies in
    xl.order, and every output slot holds one of the input endpoints. *)
Theorem reorderDisks_permutation
    (bootstrapDisks : list StorageAPI) (manifests : list formatConfigV1) :
  length manifests = length bootstrapDisks ->
  checkFormatXL (Some <$> manifests) = Return None ->
  NoDup (identityOf <$> manifests) ->
  Forall (fun manifest => identityOf manifest <> "") manifests ->
  exists newDisks,
    reorderDisks bootstrapDisks (Some <$> manifests) = Return (newDisks, None)
    /\ bootstrapDisks ≡ₚ newDisks
    /\ (forall f manifest disk,
          manifests !! f = Some manifest -> bootstrapDisks !! f = Some disk ->
          index newDisks
                (findDiskIndex (identityOf manifest) (orderOf manifest))
          = Return disk)
    /\ (forall k, (k < length bootstrapDisks)%nat ->
          exists f manifest disk,
            manifests !! f = Some manifest /\ bootstrapDisks !! f = Some disk
            /\ findDiskIndex (identityOf manifest) (orderOf manifest)
               = Z.of_nat k
            /\ newDisks !! k = Some disk).
Proof.
  intros Hlen Hcheck Hnodup Hnonempty.
  apply checkFormatXL_accepted in Hcheck as [Hfields Hsaved].
  destruct manifests as [|first rest].
  { destruct bootstrapDisks; [|discriminate]. exists [].
    split; [reflexivity|]. split; [done|]. split.
    - intros f manifest disk Hf. by rewrite lookup_nil in Hf.
    - intros k Hk. simpl in Hk. lia. }
  set (manifests := first :: rest) in *.
  assert (Hmem : forall manifest, manifest ∈ manifests ->
                   Some manifest ∈ Some <$> manifests).
  { intros manifest Hin. by apply list_elem_of_fmap_2. }
  assert (Hfirst : first ∈ manifests) by (apply elem_of_cons; by left).
  destruct (Hfields first (Hmem _ Hfirst)) as (xl0 & HXL0 & _ & _ & _ & Hlen0).
  set (savedJBOD := JBOD xl0).
  assert (HsavedJBOD : orderOf first = savedJBOD) by (unfold orderOf; by rewrite HXL0).
  assert (Hsavedlen : length savedJBOD = length bootstrapDisks).
  { unfold len in Hlen0. rewrite length_fmap in Hlen0. fold savedJBOD in Hlen0. lia. }
  (* every identity has its slot in the saved order *)
  assert (Hslot : forall manifest, manifest ∈ manifests ->
            exists k : nat,
              findDiskIndex (identityOf manifest) savedJBOD = Z.of_nat k
              /\ findDiskIndex (identityOf manifest) (orderOf manifest) = Z.of_nat k
              /\ savedJBOD !! k = Some (identityOf manifest)
              /\ (k < length bootstrapDisks)%nat).
  { intros manifest Hin.
    assert (Hne : identityOf manifest <> "").
    { rewrite Forall_forall in Hnonempty. by apply Hnonempty. }
    destruct (Hsaved manifest first (Hmem _ Hin) (Hmem _ Hfirst) Hne)
      as [Hfound Hsame].
    rewrite HsavedJBOD in Hfound, Hsame.
    destruct (findDiskIndex_found _ _ Hfound) as (k & Hk & Hlook).
    exists k. repeat split; try done; [congruence|].
    apply lookup_lt_Some in Hlook. lia. }
  set (ks := positions savedJBOD manifests).
  assert (Hks : forall f manifest, manifests !! f = Some manifest ->
            exists k : nat, ks !! f = Some k
              /\ findDiskIndex (identityOf manifest) (orderOf manifest) = Z.of_nat k
              /\ (k < length bootstrapDisks)%nat).
  { intros f manifest Hf.
    destruct (Hslot manifest (list_elem_of_lookup_2 _ _ _ Hf))
      as (k & Hk & Hown & _ & Hlt).
    exists k. split; [|done].
    unfold ks, positions. rewrite list_lookup_fmap, Hf. simpl.
    by rewrite Hk, Nat2Z.id. }
  assert (Hkslt : Forall (fun k => (k < length bootstrapDisks)%nat) ks).
  { apply Forall_lookup. intros f k Hf.
    destruct (lookup_lt_is_Some_2 manifests f) as [manifest Hm].
    { apply lookup_lt_Some in Hf. unfold ks, positions in Hf.
      by rewrite length_fmap in Hf. }
    destruct (Hks f manifest Hm) as (k' & Hk' & _ & Hlt). congruence. }
  assert (Hksnd : NoDup ks).
  { unfold ks, positions.
    rewrite (list_fmap_compose identityOf
               (fun uuid => Z.to_nat (findDiskIndex uuid savedJBOD))).
    apply NoDup_fmap_2_strong; [|done].
    intros a b Ha Hb Heq.
    apply list_elem_of_fmap in Ha as (ma & -> & Hma).
    apply list_elem_of_fmap in Hb as (mb & -> & Hmb).
    destruct (Hslot ma Hma) as (ka & Hka & _ & Hlooka & _).
    destruct (Hslot mb Hmb) as (kb & Hkb & _ & Hlookb & _).
    rewrite Hka, Hkb, !Nat2Z.id in Heq. subst kb. congruence. }
  assert (Hkslen : length ks = length bootstrapDisks).
  { unfold ks, positions. by rewrite length_fmap. }
  set (newDisks := replicate (length bootstrapDisks) (None : StorageAPI)).
  assert (Hnew : length newDisks = length bootstrapDisks) by apply length_replicate.
  exists (assignAll ks bootstrapDisks newDisks).
  split; [|split; [|split]].
  - assert (Hrun : reorderDisks_saved (Some <$> manifests) = Return savedJBOD).
    { unfold manifests. cbn [fmap list_fmap reorderDisks_saved].
      by rewrite HXL0. }
    unfold reorderDisks. rewrite Hrun. cbn [bind]. fold newDisks.
    change 0 with (Z.of_nat 0).
    rewrite reorderDisks_place_run.
    + rewrite drop_0, take_ge by lia. reflexivity.
    + lia.
    + apply Forall_forall. intros manifest Hin.
      destruct (Hfields manifest (Hmem _ Hin)) as (xl & HXL & _).
      destruct (Hslot manifest Hin) as (k & Hk & _ & _ & Hlt).
      exists xl, k. unfold identityOf in Hk. rewrite HXL in Hk.
      repeat split; try done. lia.
  - apply assignAll_Permutation; try done; by rewrite Hnew.
  - intros f manifest disk Hf Hdisk.
    destruct (Hks f manifest Hf) as (k & Hk & -> & Hlt).
    apply index_nat. eapply assignAll_lookup; eauto. by rewrite Hnew.
  - intros k Hk.
    destruct (assignAll_onto ks newDisks k) as [f Hf]; try done;
      try by rewrite Hnew.
    destruct (lookup_lt_is_Some_2 manifests f) as [manifest Hm].
    { apply lookup_lt_Some in Hf. lia. }
    destruct (lookup_lt_is_Some_2 bootstrapDisks f) as [disk Hdisk].
    { apply lookup_lt_Some in Hf. lia. }
    destruct (Hks f manifest Hm) as (k' & Hk' & Hown & _).
    assert (k' = k) by congruence. subst k'.
    exists f, manifest, disk. repeat split; try done.
    eapply assignAll_lookup; eauto. by rewrite Hnew.
Qed.

(** A fleet the amended C8 applies to: three endpoints given in the order
    [E2, E0, E1]. *)
Lemma reorderDisks_permutation_witness :
  let order := ["id0"; "id1"; "id2"] in
  let manifests := [xlConfig "id2" order; xlConfig "id0" order;
                    xlConfig "id1" order] in
  let bootstrapDisks : list StorageAPI :=
    (fun manifest => Some (endpointHolding [jsonOf manifest])) <$> manifests in
  exists newDisks,
    reorderDisks bootstrapDisks (Some <$> manifests) = Return (newDisks, None)
    /\ bootstrapDisks ≡ₚ newDisks.
Proof.
  intros order manifests bootstrapDisks.
  destruct (reorderDisks_permutation bootstrapDisks manifests)
    as (newDisks & Hrun & Hperm & _).
  - reflexivity.
  - reflexivity.
  - apply NoDup_cons. split.
    { intros Hin. apply elem_of_cons in Hin as [Heq|Hin]; [discriminate|].
      apply elem_of_cons in Hin as [Heq|Hin]; [discriminate|].
      by apply elem_of_nil in Hin. }
    apply NoDup_cons. split.
    { intros Hin. apply elem_of_cons in Hin as [Heq|Hin]; [discriminate|].
      by apply elem_of_nil in Hin. }
    apply NoDup_cons. split; [apply not_elem_of_nil | apply NoDup_nil_2].
  - apply Forall_cons. split; [discriminate|].
    apply Forall_cons. split; [discriminate|].
    apply Forall_cons. split; [discriminate|]. apply Forall_nil_2.
  - exists newDisks. split; [exact Hrun | exact Hperm].
Defined.

(** ** Atomic publish *)

(** A goroutine of [saveFormatXL] that reports no error leaves the encoded
    format in [format.json]. *)
Lemma saveFormatXL_write_published
    (disk disk' : endpoint) (format : option formatConfigV1) :
  saveFormatXL_write disk format = (disk', None) ->
  ReadFile disk' minioMetaBucket formatConfigFile
  = (fst (json_Marshal format), None).
Proof.
  unfold saveFormatXL_write.
  assert (Hmarshal : json_Marshal format = (fst (json_Marshal format), None))
    by (by destruct format).
  rewrite Hmarshal. generalize (fst (json_Marshal format)). intros formatBytes.
  unfold DeleteFile, AppendFile, RenameFile, ReadFile.
  destruct (fault disk) as [e|] eqn:Hfault.
  { rewrite Hfault. discriminate. }
  destruct (volumes disk !! minioMetaBucket) as [files|] eqn:Hvol.
  2: { rewrite Hfault, Hvol. discriminate. }
  cbn [fault volumes].
  rewrite lookup_insert_eq. rewrite lookup_delete_eq. cbn [default app].
  cbn [fault volumes].
  rewrite lookup_insert_eq. rewrite lookup_insert_eq.
  rewrite lookup_insert_eq.
  intros H. injection H as <-. cbn [fault volumes].
  by rewrite !lookup_insert_eq.
Qed.

Lemma loadFormat_published (disk : endpoint) (format : formatConfigV1) :
  ReadFile disk minioMetaBucket formatConfigFile = ([jsonOf format], None) ->
  loadFormat (Some disk) = Return (Some format, None).
Proof.
  intros Hread. unfold loadFormat, readAll. simpl. by rewrite Hread.
Qed.

Lemma saveFormatXL_result_nil (errs : list (option error)) (i : nat) (err : option error) :
  saveFormatXL_result errs = None -> errs !! i = Some err -> err = None.
Proof.
  revert i. induction errs as [|[e|] errs IH]; intros i Hres Hi.
  - by rewrite lookup_nil in Hi.
  - discriminate.
  - destruct i as [|i]; simpl in *; [congruence|eauto].
Qed.

Lemma saveFormatXL_fanout_spec
    (storageDisks : list StorageAPI) (formats : list (option formatConfigV1))
    (idx : nat) (disks' : list StorageAPI) (errs : list (option error)) :
  saveFormatXL_fanout storageDisks formats (Z.of_nat idx) = Return (disks', errs) ->
  length disks' = length storageDisks
  /\ length errs = length storageDisks
  /\ (forall i, storageDisks !! i = Some None -> disks' !! i = Some None)
  /\ (forall i disk, storageDisks !! i = Some (Some disk) ->
        exists format disk' err,
          formats !! (idx + i)%nat = Some format
          /\ disks' !! i = Some (Some disk') /\ errs !! i = Some err
          /\ saveFormatXL_write disk format = (disk', err)).
Proof.
  revert idx disks' errs.
  induction storageDisks as [|[disk|] rest IH]; intros idx disks' errs H.
  - injection H as <- <-. repeat split; try done;
      intros i; rewrite lookup_nil; discriminate.
  - cbn [saveFormatXL_fanout] in H.
    apply bind_Return in H as (format & Hformat & H).
    destruct (saveFormatXL_write disk format) as [disk1 err] eqn:Hwrite.
    apply bind_Return in H as ([disks1 errs1] & Hrest & H).
    injection H as <- <-.
    replace (Z.of_nat idx + 1) with (Z.of_nat (S idx)) in Hrest by lia.
    apply IH in Hrest as (Hlen1 & Hlen2 & Hnil & Hwritten).
    assert (Hlook : formats !! idx = Some format).
    { unfold index in Hformat.
      destruct ((0 <=? Z.of_nat idx) && (Z.of_nat idx <? len formats));
        [|discriminate].
      rewrite Nat2Z.id in Hformat.
      destruct (formats !! idx); [|discriminate]. congruence. }
    simpl. repeat split; try (f_equal; done).
    + intros [|i] Hi; [discriminate|]. by apply Hnil.
    + intros [|i] d Hi.
      * injection Hi as <-. exists format, disk1, err.
        by rewrite Nat.add_0_r.
      * destruct (Hwritten i d Hi) as (f & d' & e & ? & ? & ? & ?).
        exists f, d', e. by rewrite <- Nat.add_succ_comm.
  - cbn [saveFormatXL_fanout] in H.
    apply bind_Return in H as ([disks1 errs1] & Hrest & H).
    injection H as <- <-.
    replace (Z.of_nat idx + 1) with (Z.of_nat (S idx)) in Hrest by lia.
    apply IH in Hrest as (Hlen1 & Hlen2 & Hnil & Hwritten).
    simpl. repeat split; try (f_equal; done).
    + intros [|i] Hi; [done|]. by apply Hnil.
    + intros [|i] d Hi; [discriminate|].
      destruct (Hwritten i d Hi) as (f & d' & e & ? & ? & ? & ?).
      exists f, d', e. by rewrite <- Nat.add_succ_comm.
Qed.

(** After a publish that returns no error, every endpoint that is not nil
    holds the encoding of its slot of [formats] in [format.json]; nil
    handles stay nil. *)
Lemma saveFormatXL_published
    (storageDisks : list StorageAPI) (formats : list (option formatConfigV1))
    (disks' : list StorageAPI) :
  saveFormatXL storageDisks formats = Return (disks', None) ->
  length disks' = length storageDisks
  /\ (forall i, storageDisks !! i = Some None -> disks' !! i = Some None)
  /\ (forall i disk, storageDisks !! i = Some (Some disk) ->
        exists format disk',
          formats !! i = Some format /\ disks' !! i = Some (Some disk')
          /\ ReadFile disk' minioMetaBucket formatConfigFile
             = (fst (json_Marshal format), None)).
Proof.
  unfold saveFormatXL. intros H.
  apply bind_Return in H as ([disks1 errs] & Hfan & H).
  injection H as <- Hres. simpl in Hres.
  change 0 with (Z.of_nat 0) in Hfan.
  apply saveFormatXL_fanout_spec in Hfan as (Hlen & _ & Hnil & Hwritten).
  simpl. repeat split; try done.
  intros i disk Hi.
  destruct (Hwritten i disk Hi) as (format & disk' & err & Hf & Hd & He & Hw).
  assert (err = None) by (by eapply saveFormatXL_result_nil). subst err.
  exists format, disk'. repeat split; try done.
  by apply saveFormatXL_write_published in Hw.
Qed.

(** ** Initializer *)

Section InitializerProperties.

Variable new_identity : nat -> string.

(** The first loop over handles none of which is nil: one identity per
    endpoint, in bootstrap order. *)
Lemma initFormatXL_alloc_endpoints (endpoints : list endpoint) (minted : nat) :
  initFormatXL_alloc new_identity (Some <$> endpoints) minted
  = ((fun k => Some (xlConfig (new_identity k) []))
       <$> seq minted (length endpoints),
     new_identity <$> seq minted (length endpoints),
     (minted + length endpoints)%nat).
Proof.
  revert minted. induction endpoints as [|disk rest IH]; intros minted.
  - simpl. by rewrite Nat.add_0_r.
  - cbn [fmap list_fmap initFormatXL_alloc getUUID length seq].
    change (list_fmap _ _ Some rest) with (Some <$> rest).
    rewrite IH. cbn [fmap list_fmap]. unfold xlConfig.
    by rewrite Nat.add_succ_r.
Qed.

(** The second loop over the same handles: every format config gets the
    one [jbod]. *)
Lemma initFormatXL_jbod_endpoints
    (endpoints : list endpoint) (uuids : list string) (jbod : list string) :
  length uuids = length endpoints ->
  initFormatXL_jbod (Some <$> endpoints)
                    ((fun uuid => Some (xlConfig uuid [])) <$> uuids) jbod
  = Return ((fun uuid => Some (xlConfig uuid jbod)) <$> uuids).
Proof.
  revert uuids.
  induction endpoints as [|disk rest IH]; intros [|uuid uuids] Hlen;
    try discriminate.
  - reflexivity.
  - cbn [fmap list_fmap initFormatXL_jbod].
    change (list_fmap _ _ Some rest) with (Some <$> rest).
    change (list_fmap _ _ (fun uuid => Some (xlConfig uuid [])) uuids)
      with ((fun uuid => Some (xlConfig uuid [])) <$> uuids).
    cbn [setJBOD xlConfig deref bind XL Version Format FS xlVersion Disk].
    rewrite IH by (simpl in Hlen; lia). reflexivity.
Qed.

(** C9. After every successful Initializer run over N endpoints the
    identities minted are the next N of the UUID collaborator, and each
    endpoint's manifest carries schema_version "1", backend_kind "xl",
    xl.schema_version "1", and as xl.order the sequence of the N minted
    identities in bootstrap order: of length N, the same on all endpoints,
    with the endpoint's xl.identity at its bootstrap index. *)
Theorem initFormatXL_manifests
    (endpoints : list endpoint) (minted : nat)
    (disks' : list StorageAPI) (minted' : nat) :
  initFormatXL new_identity (Some <$> endpoints) minted
  = Return (disks', minted', None) ->
  let N := length endpoints in
  let order := new_identity <$> seq minted N in
  length disks' = N /\ minted' = (minted + N)%nat /\ length order = N
  /\ forall i, (i < N)%nat ->
       exists disk,
         disks' !! i = Some disk
         /\ loadFormat disk
            = Return (Some {| Version := "1"; Format := "xl"; FS := None;
                              XL := Some {| xlVersion := "1";
                                            Disk := new_identity (minted + i);
                                            JBOD := order |} |}, None)
         /\ order !! i = Some (new_identity (minted + i)).
Proof.
  intros Hrun N order. unfold initFormatXL in Hrun.
  rewrite initFormatXL_alloc_endpoints in Hrun. fold N order in Hrun.
  rewrite (list_fmap_compose new_identity
             (fun uuid => Some (xlConfig uuid []))) in Hrun.
  fold order in Hrun.
  rewrite initFormatXL_jbod_endpoints in Hrun
    by (unfold order; by rewrite length_fmap, length_seq).
  cbn [bind] in Hrun.
  apply bind_Return in Hrun as ([disks1 err] & Hsave & Hrun).
  injection Hrun as <- <- ->.
  apply saveFormatXL_published in Hsave as (Hlen & _ & Hpublished).
  rewrite length_fmap in Hlen.
  assert (Horder : length order = N)
    by (unfold order; by rewrite length_fmap, length_seq).
  repeat split; try done.
  intros i Hi.
  destruct (lookup_lt_is_Some_2 endpoints i) as [disk Hdisk]; [done|].
  destruct (Hpublished i disk) as (format & disk' & Hformat & Hdisk' & Hread).
  { by rewrite list_lookup_fmap, Hdisk. }
  assert (Hid : order !! i = Some (new_identity (minted + i))).
  { unfold order. by rewrite list_lookup_fmap, lookup_seq_lt. }
  rewrite list_lookup_fmap, Hid in Hformat. injection Hformat as <-.
  exists (Some disk'). repeat split; try done.
  by apply loadFormat_published.
Qed.

End InitializerProperties.

(** A run the theorem C9 applies to: the fresh deployment of four
    endpoints. *)
Lemma initFormatXL_manifests_witness :
  exists disks',
    initFormatXL scenarioUUID (Some <$> replicate 4 freshEndpoint) 0
    = Return (disks', 4%nat, None)
    /\ length disks' = 4%nat.
Proof.
  eexists. split; [reflexivity|].
  eapply (initFormatXL_manifests scenarioUUID (replicate 4 freshEndpoint) 0).
  reflexivity.
Defined.

(** ** Healer: what is published *)

Section HealerPublishes.

Variable new_identity : nat -> string.

(** Every config the Healer collects carries the one new order, and as
    identity the entry of that order at the config's own bootstrap index,
    whatever identity the manifest read there carried. *)
Lemma healFormatXL_collect_spec
    (referenceConfig : formatConfigV1) (referenceXL : xlFormat)
    (newJBOD : list string) (formatConfigs : list (option formatConfigV1))
    (idx : nat) (newFormatConfigs : list (option formatConfigV1)) :
  healFormatXL_collect referenceConfig referenceXL newJBOD formatConfigs
                       (Z.of_nat idx)
  = Return newFormatConfigs ->
  length newFormatConfigs = length formatConfigs
  /\ forall i, (i < length formatConfigs)%nat ->
       exists config,
         newFormatConfigs !! i = Some (Some config)
         /\ orderOf config = newJBOD
         /\ newJBOD !! (idx + i)%nat = Some (identityOf config).
Proof.
  revert idx newFormatConfigs.
  induction formatConfigs as [|[format|] rest IH];
    intros idx newFormatConfigs H; cbn [healFormatXL_collect] in H.
  - injection H as <-. split; [done|]. intros i Hi. simpl in Hi. lia.
  - apply bind_Return in H as (xl & Hxl & H).
    apply bind_Return in H as (disk & Hdisk & H).
    apply bind_Return in H as (configs & Hrest & H). injection H as <-.
    replace (Z.of_nat idx + 1) with (Z.of_nat (S idx)) in Hrest by lia.
    apply IH in Hrest as [Hlen Hrest].
    split; [simpl; by rewrite Hlen|].
    intros [|i] Hi.
    + eexists. split; [reflexivity|]. split; [reflexivity|].
      cbn [identityOf XL Disk]. rewrite Nat.add_0_r.
      unfold index in Hdisk.
      destruct ((0 <=? Z.of_nat idx) && (Z.of_nat idx <? len newJBOD));
        [|discriminate].
      rewrite Nat2Z.id in Hdisk.
      destruct (newJBOD !! idx); [|discriminate]. congruence.
    + destruct (Hrest i) as (config & ? & ? & ?); [simpl in Hi; lia|].
      exists config. by rewrite <- Nat.add_succ_comm.
  - apply bind_Return in H as (disk & Hdisk & H).
    apply bind_Return in H as (configs & Hrest & H). injection H as <-.
    replace (Z.of_nat idx + 1) with (Z.of_nat (S idx)) in Hrest by lia.
    apply IH in Hrest as [Hlen Hrest].
    split; [simpl; by rewrite Hlen|].
    intros [|i] Hi.
    + eexists. split; [reflexivity|]. split; [reflexivity|].
      cbn [identityOf XL Disk]. rewrite Nat.add_0_r.
      unfold index in Hdisk.
      destruct ((0 <=? Z.of_nat idx) && (Z.of_nat idx <? len newJBOD));
        [|discriminate].
      rewrite Nat2Z.id in Hdisk.
      destruct (newJBOD !! idx); [|discriminate]. congruence.
    + destruct (Hrest i) as (config & ? & ? & ?); [simpl in Hi; lia|].
      exists config. by rewrite <- Nat.add_succ_comm.
Qed.

(** Minting leaves the entries of the order at the positions of the
    manifests at hand as they are. *)
Lemma healFormatXL_mint_spec
    (formatConfigs : list (option formatConfigV1)) (idx : nat)
    (newJBOD : list string) (minted : nat)
    (newJBOD' : list string) (minted' : nat) :
  healFormatXL_mint new_identity formatConfigs (Z.of_nat idx) newJBOD minted
  = Return (newJBOD', minted') ->
  length newJBOD' = length newJBOD
  /\ (forall k, (k < idx)%nat -> newJBOD' !! k = newJBOD !! k)
  /\ (forall i format, formatConfigs !! i = Some (Some format) ->
        newJBOD' !! (idx + i)%nat = newJBOD !! (idx + i)%nat).
Proof.
  revert idx newJBOD minted.
  induction formatConfigs as [|[format|] rest IH];
    intros idx newJBOD minted H; cbn [healFormatXL_mint] in H.
  - injection H as <- <-. repeat split; done.
  - replace (Z.of_nat idx + 1) with (Z.of_nat (S idx)) in H by lia.
    apply IH in H as (Hlen & Hbefore & Hat).
    repeat split; try done.
    + intros k Hk. apply Hbefore. lia.
    + intros [|i] format' Hi.
      * rewrite Nat.add_0_r. apply Hbefore. lia.
      * rewrite <- Nat.add_succ_comm. by eapply Hat.
  - cbn [getUUID] in H.
    apply bind_Return in H as (newJBOD1 & Hassign & H).
    unfold assign in Hassign.
    destruct ((0 <=? Z.of_nat idx) && (Z.of_nat idx <? len newJBOD));
      [|discriminate].
    injection Hassign as <-. rewrite Nat2Z.id in H.
    replace (Z.of_nat idx + 1) with (Z.of_nat (S idx)) in H by lia.
    apply IH in H as (Hlen & Hbefore & Hat).
    rewrite length_insert in Hlen.
    repeat split; try done.
    + intros k Hk. rewrite Hbefore by lia.
      apply list_lookup_insert_ne. lia.
    + intros [|i] format' Hi; [discriminate|].
      rewrite <- Nat.add_succ_comm. rewrite (Hat i format' Hi).
      apply list_lookup_insert_ne. lia.
Qed.

End HealerPublishes.

(** C2 (the code at the failing input). Three endpoints of the deployment of
    order [a, b, c], given in the bootstrap order [Eb, Ea, fresh]: the
    manifests read carry the identities b and a. The Healer succeeds, mints
    one identity and writes the same new order on all three endpoints; but
    the endpoint that carried b now carries a, and the one that carried a
    now carries b. *)
Theorem healFormatXL_rewrites_identities :
  let order := ["a"; "b"; "c"] in
  let fleet := [Some (endpointHolding [jsonOf (xlConfig "b" order)]);
                Some (endpointHolding [jsonOf (xlConfig "a" order)]);
                Some freshEndpoint] in
  let order' := ["a"; "b"; "uuid-0"] in
  manifestOf <$> fleet
  = [Some (xlConfig "b" order); Some (xlConfig "a" order); None]
  /\ exists healed,
       healFormatXL scenarioUUID fleet 0 = Return (healed, 1%nat, None)
       /\ manifestOf <$> healed
          = [Some (xlConfig "a" order'); Some (xlConfig "b" order');
             Some (xlConfig "uuid-0" order')].
Proof.
  intros order fleet order'. split; [reflexivity|].
  eexists. split; reflexivity.
Qed.

(** ** Consistency Checker: where it does not panic *)

Lemma allSectioned_cons format formatConfigs :
  allSectioned (format :: formatConfigs) -> allSectioned formatConfigs.
Proof. intros Hall f Hin. apply Hall. apply elem_of_cons. by right. Qed.

Lemma xlSectioned_cons format formatConfigs :
  xlSectioned (format :: formatConfigs) -> xlSectioned formatConfigs.
Proof. intros Hall f Hin. apply Hall. apply elem_of_cons. by right. Qed.

Lemma allSectioned_head format formatConfigs :
  allSectioned (Some format :: formatConfigs) -> exists xl, XL format = Some xl.
Proof. intros Hall. apply Hall. apply elem_of_cons. by left. Qed.

Lemma checkFormatXL_fields_total n formatConfigs :
  xlSectioned formatConfigs ->
  exists err, checkFormatXL_fields n formatConfigs = Return err.
Proof.
  induction formatConfigs as [|[formatXL|] rest IH]; intros Hsec; simpl.
  - eauto.
  - destruct (decide (Version formatXL <> "1")); [eauto|].
    destruct (decide (Format formatXL <> "xl")) as [|Hxl]; [eauto|].
    apply dec_stable in Hxl.
    destruct (Hsec formatXL) as [xl HXL]; [apply elem_of_cons; by left|done|].
    rewrite HXL. simpl.
    destruct (decide (xlVersion xl <> "1")); [eauto|].
    destruct (decide (n <> len (JBOD xl))); [eauto|].
    apply IH. by eapply xlSectioned_cons.
  - apply IH. by eapply xlSectioned_cons.
Qed.

Lemma checkJBODConsistency_total formatConfigs :
  allSectioned formatConfigs ->
  exists err, checkJBODConsistency formatConfigs = Return err.
Proof.
  intros Hall. unfold checkJBODConsistency.
  assert (Hfirst : exists jbodStr,
             checkJBODConsistency_first formatConfigs = Return jbodStr).
  { induction formatConfigs as [|[format|] rest IH]; simpl.
    - eauto.
    - destruct (allSectioned_head _ _ Hall) as [xl ->]. simpl. eauto.
    - apply IH. by eapply allSectioned_cons. }
  destruct Hfirst as [jbodStr ->]. simpl.
  induction formatConfigs as [|[format|] rest IH]; simpl.
  - eauto.
  - destruct (allSectioned_head _ _ Hall) as [xl ->]. simpl.
    destruct (decide (jbodStr = Join (JBOD xl) ".")); [|eauto].
    apply IH. by eapply allSectioned_cons.
  - apply IH. by eapply allSectioned_cons.
Qed.

Lemma isSavedUUIDInOrder_collect_total uuid formatConfigs orderIndexes :
  allSectioned formatConfigs ->
  exists r, isSavedUUIDInOrder_collect uuid formatConfigs orderIndexes = Return r
            /\ forall l, r = Some l ->
                 orderIndexes <> [] \/ (exists format, Some format ∈ formatConfigs) ->
                 l <> [].
Proof.
  revert orderIndexes.
  induction formatConfigs as [|[format|] rest IH]; intros orderIndexes Hall; simpl.
  - eexists. split; [reflexivity|]. intros l Hl [Hne|[f Hin]].
    + congruence.
    + by apply elem_of_nil in Hin.
  - destruct (allSectioned_head _ _ Hall) as [xl ->]. simpl.
    destruct (findDiskIndex uuid (JBOD xl) =? -1).
    { eexists. split; [reflexivity|]. discriminate. }
    destruct (IH (orderIndexes ++ [findDiskIndex uuid (JBOD xl) + 1]))
      as (r & -> & Hr); [by eapply allSectioned_cons|].
    eexists. split; [reflexivity|]. intros l Hl _. apply (Hr l Hl).
    left. intros Happ. by apply app_eq_nil in Happ as [_ ?].
  - destruct (IH orderIndexes) as (r & -> & Hr); [by eapply allSectioned_cons|].
    eexists. split; [reflexivity|]. intros l Hl [Hne|[f Hin]].
    + apply (Hr l Hl). by left.
    + apply (Hr l Hl). right. exists f.
      apply elem_of_cons in Hin as [Heq|Hin]; [discriminate|done].
Qed.

Lemma isSavedUUIDInOrder_total uuid formatConfigs :
  allSectioned formatConfigs ->
  (exists format, Some format ∈ formatConfigs) ->
  exists ok, isSavedUUIDInOrder uuid formatConfigs = Return ok.
Proof.
  intros Hall Hsome. unfold isSavedUUIDInOrder.
  destruct (isSavedUUIDInOrder_collect_total uuid formatConfigs [] Hall)
    as (r & -> & Hr).
  simpl. destruct r as [l|]; [|eauto].
  destruct l as [|prev l]; [|eauto].
  exfalso. apply (Hr [] eq_refl); [by right|done].
Qed.

Lemma checkDisksConsistency_total formatConfigs :
  allSectioned formatConfigs ->
  exists err, checkDisksConsistency formatConfigs = Return err.
Proof.
  intros Hall. unfold checkDisksConsistency.
  assert (Hcollect : exists disks,
             checkDisksConsistency_collect formatConfigs = Return disks
             /\ forall uuid, uuid ∈ disks -> uuid <> "" ->
                  exists format, Some format ∈ formatConfigs).
  { clear -Hall.
    induction formatConfigs as [|[format|] rest IH]; simpl.
    - eexists. split; [reflexivity|]. intros uuid Hin. by apply elem_of_nil in Hin.
    - destruct (allSectioned_head _ _ Hall) as [xl ->]. simpl.
      destruct IH as (disks & -> & _); [by eapply allSectioned_cons|].
      simpl. eexists. split; [reflexivity|]. intros uuid _ _.
      exists format. apply elem_of_cons. by left.
    - destruct IH as (disks & -> & Hdisks); [by eapply allSectioned_cons|].
      simpl. eexists. split; [reflexivity|]. intros uuid Hin Hne.
      apply elem_of_cons in Hin as [->|Hin]; [done|].
      destruct (Hdisks uuid Hin Hne) as [f Hf].
      exists f. apply elem_of_cons. by right. }
  destruct Hcollect as (disks & -> & Hdisks). simpl.
  induction disks as [|uuid rest IH]; simpl.
  - eauto.
  - assert (Hrest : exists err,
               checkDisksConsistency_verify rest formatConfigs = Return err).
    { apply IH. intros u Hin. apply Hdisks. apply elem_of_cons. by right. }
    destruct (decide (uuid = "")); [done|].
    destruct (isSavedUUIDInOrder_total uuid formatConfigs Hall) as [ok ->].
    { apply (Hdisks uuid); [apply elem_of_cons; by left|done]. }
    simpl. destruct ok; [done|eauto].
Qed.

(** X6. With the precondition that every manifest at hand of kind "xl" has
    its xl section, the Consistency Checker returns: an error or nil, never
    a panic. *)
Lemma checkFormatXL_total formatConfigs :
  xlSectioned formatConfigs ->
  exists err, checkFormatXL formatConfigs = Return err.
Proof.
  intros Hsec. unfold checkFormatXL.
  destruct (checkFormatXL_fields_total (len formatConfigs) formatConfigs Hsec)
    as [err Hfields].
  rewrite Hfields. simpl. destruct err as [e|]; [eauto|].
  assert (Hall : allSectioned formatConfigs).
  { intros format Hin.
    destruct (checkFormatXL_fields_accepted _ _ _ Hfields Hin) as (xl & -> & _).
    eauto. }
  destruct (checkJBODConsistency_total _ Hall) as [err ->]. simpl.
  destruct err as [e|]; [eauto|].
  by apply checkDisksConsistency_total.
Qed.

(** ** Consistency Checker: orders of identities without a dot *)

Lemma append_dot_inj (a b s t : string) :
  dotFree a -> dotFree b ->
  a +:+ "." +:+ s = b +:+ "." +:+ t -> a = b /\ s = t.
Proof.
  assert (Hcons : forall c u v, String c u +:+ v = String c (u +:+ v))
    by reflexivity.
  assert (Hnil : forall v, "" +:+ v = v) by reflexivity.
  revert b. induction a as [|c a IH]; intros [|c' b] Ha Hb Heq;
    rewrite ?Hcons, ?Hnil in Heq; simpl in Ha, Hb.
  - injection Heq as ->. done.
  - injection Heq as Hc _. destruct Hb as [Hb _]. congruence.
  - injection Heq as Hc _. destruct Ha as [Ha _]. congruence.
  - injection Heq as -> Heq. destruct Ha as [_ Ha], Hb as [_ Hb].
    destruct (IH b Ha Hb Heq) as [-> ->]. done.
Qed.

(** On lists of one length of identities without a dot, [strings.Join] with
    a dot is injective. *)
Lemma Join_dot_inj (l1 l2 : list string) :
  Forall dotFree l1 -> Forall dotFree l2 -> length l1 = length l2 ->
  Join l1 "." = Join l2 "." -> l1 = l2.
Proof.
  unfold Join. revert l2.
  induction l1 as [|x l1 IH]; intros [|y l2] H1 H2 Hlen Heq; try discriminate.
  - done.
  - apply Forall_cons in H1 as [Hx H1]. apply Forall_cons in H2 as [Hy H2].
    destruct l1 as [|x' l1], l2 as [|y' l2]; try discriminate.
    + simpl in Heq. by subst.
    + change (x +:+ "." +:+ String.concat "." (x' :: l1)
              = y +:+ "." +:+ String.concat "." (y' :: l2)) in Heq.
      apply append_dot_inj in Heq as [-> Heq]; try done.
      f_equal. apply IH; try done. simpl in *. lia.
Qed.

Lemma checkJBODConsistency_compare_accepted jbodStr formatConfigs format :
  checkJBODConsistency_compare jbodStr formatConfigs = Return None ->
  Some format ∈ formatConfigs ->
  Join (orderOf format) "." = jbodStr.
Proof.
  induction formatConfigs as [|[format'|] rest IH]; simpl; intros H Hin.
  - by apply elem_of_nil in Hin.
  - apply bind_Return in H as (xl & Hxl & H).
    destruct (decide (jbodStr = Join (JBOD xl) ".")) as [Hsame|]; [|discriminate].
    apply elem_of_cons in Hin as [Heq|Hin]; [|by apply IH].
    injection Heq as ->. unfold orderOf.
    destruct (XL format'); [|discriminate]. injection Hxl as ->. done.
  - apply elem_of_cons in Hin as [Heq|Hin]; [discriminate|by apply IH].
Qed.

(** X7. The manifests of a vector that [checkFormatXL] accepts carry
    position-wise identical orders when no identity of these orders contains
    a dot. *)
Lemma checkFormatXL_orders_agree formatConfigs :
  checkFormatXL formatConfigs = Return None ->
  (forall format, Some format ∈ formatConfigs -> Forall dotFree (orderOf format)) ->
  forall format format',
    Some format ∈ formatConfigs -> Some format' ∈ formatConfigs ->
    orderOf format = orderOf format'.
Proof.
  intros Hcheck Hdots format format' Hin Hin'.
  pose proof Hcheck as Hjoin.
  unfold checkFormatXL, checkJBODConsistency in Hjoin.
  apply bind_Return in Hjoin as ([e1|] & Hfields & Hjoin); [discriminate|].
  apply bind_Return in Hjoin as ([e2|] & Hcompare & Hjoin); [discriminate|].
  apply bind_Return in Hcompare as (jbodStr & _ & Hcompare).
  destruct (checkFormatXL_fields_accepted _ _ _ Hfields Hin)
    as (xl & HXL & _ & _ & _ & Hlen).
  destruct (checkFormatXL_fields_accepted _ _ _ Hfields Hin')
    as (xl' & HXL' & _ & _ & _ & Hlen').
  apply Join_dot_inj; try by apply Hdots.
  - unfold orderOf. rewrite HXL, HXL'. unfold len in *. lia.
  - rewrite (checkJBODConsistency_compare_accepted _ _ _ Hcompare Hin).
    by rewrite (checkJBODConsistency_compare_accepted _ _ _ Hcompare Hin').
Qed.

(** ** Healer: a run that publishes *)

Section HealerRun.

Variable new_identity : nat -> string.

(** The loading loop of the Healer over endpoints that are all loaded as a
    manifest or as Unformatted. *)
Lemma healFormatXL_load_all (storageDisks : list StorageAPI) :
  Forall (fun d => loadsManifest d \/ classifiedAs errUnformattedDisk d)
         storageDisks ->
  healFormatXL_load storageDisks = Return (inr (manifestOf <$> storageDisks)).
Proof.
  induction 1 as [|disk rest Hdisk _ IH]; [reflexivity|].
  cbn [healFormatXL_load fmap list_fmap].
  change (list_fmap _ _ manifestOf rest) with (manifestOf <$> rest).
  destruct Hdisk as [[format Hload]|Hload].
  - rewrite (manifestOf_loaded _ _ Hload), Hload. simpl. by rewrite IH.
  - rewrite (manifestOf_classified _ _ Hload).
    unfold classifiedAs in Hload. rewrite Hload. simpl. by rewrite IH.
Qed.

Lemma healFormatXL_reference_spec (formatConfigs : list (option formatConfigV1))
    (format : formatConfigV1) :
  Some format ∈ formatConfigs ->
  exists referenceConfig,
    healFormatXL_reference formatConfigs = Some referenceConfig
    /\ Some referenceConfig ∈ formatConfigs.
Proof.
  induction formatConfigs as [|[first|] rest IH]; intros Hin.
  - by apply elem_of_nil in Hin.
  - exists first. split; [reflexivity|]. apply elem_of_cons. by left.
  - apply elem_of_cons in Hin as [Heq|Hin]; [discriminate|].
    destruct (IH Hin) as (referenceConfig & Href & Hmem).
    exists referenceConfig. split; [done|]. apply elem_of_cons. by right.
Qed.

Lemma isFormatFound_false (formatConfigs : list (option formatConfigV1)) :
  None ∈ formatConfigs -> isFormatFound formatConfigs = false.
Proof.
  intros Hin. unfold isFormatFound.
  destruct (forallb _ formatConfigs) eqn:Hall; [|done].
  rewrite forallb_forall in Hall.
  specialize (Hall None (proj1 (list_elem_of_In _ _) Hin)).
  by apply bool_decide_eq_true in Hall.
Qed.

Lemma isFormatNotFound_false (formatConfigs : list (option formatConfigV1))
    (format : formatConfigV1) :
  Some format ∈ formatConfigs -> isFormatNotFound formatConfigs = false.
Proof.
  intros Hin. unfold isFormatNotFound.
  destruct (forallb _ formatConfigs) eqn:Hall; [|done].
  rewrite forallb_forall in Hall.
  specialize (Hall (Some format) (proj1 (list_elem_of_In _ _) Hin)).
  by apply bool_decide_eq_true in Hall.
Qed.

(** X16. What a successful Healer run publishes, on a fleet in which every
    endpoint is loaded as a manifest or as Unformatted, with at least one of
    each: one new order of length N on every endpoint, and on every endpoint
    the identity found in that order at the endpoint's bootstrap index; at
    the index of an endpoint whose manifest was read, that entry is the one
    of the reference order (the order of the first manifest read). *)
Lemma healFormatXL_publishes
    (storageDisks : list StorageAPI) (minted : nat)
    (healed : list StorageAPI) (minted' : nat) (present : formatConfigV1) :
  Forall (fun d => loadsManifest d \/ classifiedAs errUnformattedDisk d)
         storageDisks ->
  Some present ∈ manifestOf <$> storageDisks ->
  None ∈ manifestOf <$> storageDisks ->
  healFormatXL new_identity storageDisks minted = Return (healed, minted', None) ->
  exists referenceConfig newJBOD,
    healFormatXL_reference (manifestOf <$> storageDisks) = Some referenceConfig
    /\ length newJBOD = length storageDisks
    /\ forall i disk, storageDisks !! i = Some disk ->
         exists disk' config,
           healed !! i = Some (Some disk')
           /\ loadFormat (Some disk') = Return (Some config, None)
           /\ orderOf config = newJBOD
           /\ newJBOD !! i = Some (identityOf config)
           /\ (is_Some (manifestOf disk) ->
               newJBOD !! i = orderOf referenceConfig !! i).
Proof.
  intros Hall Hpresent Habsent Hrun. unfold healFormatXL in Hrun.
  rewrite (healFormatXL_load_all _ Hall) in Hrun. cbn [bind] in Hrun.
  rewrite (isFormatFound_false _ Habsent) in Hrun.
  rewrite (isFormatNotFound_false _ _ Hpresent) in Hrun.
  apply bind_Return in Hrun as ([e|] & Hcheck & Hrun).
  { injection Hrun as _ _ Herr. discriminate. }
  destruct (healFormatXL_reference_spec _ _ Hpresent) as (referenceConfig & Href & Hmem).
  rewrite Href in Hrun. cbn [deref bind] in Hrun.
  destruct (checkFormatXL_accepted _ Hcheck) as [Hfields _].
  destruct (Hfields _ Hmem) as (referenceXL & HXL & _ & _ & _ & Hlen).
  rewrite HXL in Hrun. cbn [deref bind] in Hrun.
  apply bind_Return in Hrun as ([newJBOD minted1] & Hmint & Hrun).
  apply bind_Return in Hrun as (newFormatConfigs & Hcollect & Hrun).
  apply bind_Return in Hrun as ([saved err] & Hsave & Hrun).
  injection Hrun as <- <- ->.
  change 0 with (Z.of_nat 0) in Hmint, Hcollect.
  apply healFormatXL_mint_spec in Hmint as (Hlen' & _ & Hkept).
  apply healFormatXL_collect_spec in Hcollect as (Hlenc & Hcollected).
  apply saveFormatXL_published in Hsave as (Hlens & _ & Hpublished).
  unfold len in Hlen. rewrite !length_fmap in *.
  exists referenceConfig, newJBOD. split; [done|]. split; [lia|].
  intros i disk Hi.
  assert (Hendpoint : exists d, disk = Some d).
  { rewrite Forall_lookup in Hall. specialize (Hall i disk Hi).
    destruct disk as [d|]; [eauto|].
    destruct Hall as [[format Hload]|Hload]; discriminate. }
  destruct Hendpoint as [d ->].
  destruct (Hpublished i d Hi) as (format & disk' & Hformat & Hdisk' & Hread).
  destruct (Hcollected i) as (config & Hconfig & Horder & Hidentity).
  { apply lookup_lt_Some in Hi. lia. }
  rewrite Hconfig in Hformat. injection Hformat as <-.
  exists disk', config. repeat split; try done.
  - by apply loadFormat_published.
  - intros [old Hold]. unfold orderOf at 1. rewrite HXL.
    apply (Hkept i old). by rewrite list_lookup_fmap, Hi, <- Hold.
Qed.

End HealerRun.

(** A run X16 applies to: two endpoints of the deployment of order
    [a, b, c], given as [Eb, Ea], and a fresh endpoint. *)
Lemma healFormatXL_publishes_witness :
  let order := ["a"; "b"; "c"] in
  let fleet := [Some (endpointHolding [jsonOf (xlConfig "b" order)]);
                Some (endpointHolding [jsonOf (xlConfig "a" order)]);
                Some freshEndpoint] in
  exists healed (newJBOD : list string),
    healFormatXL scenarioUUID fleet 0 = Return (healed, 1%nat, None)
    /\ length newJBOD = 3%nat.
Proof.
  intros order fleet.
  assert (Hrun : exists healed,
             healFormatXL scenarioUUID fleet 0 = Return (healed, 1%nat, None))
    by (vm_compute; eexists; reflexivity).
  destruct Hrun as [healed Hrun].
  destruct (healFormatXL_publishes scenarioUUID fleet 0 healed 1
                                   (xlConfig "b" order))
    as (referenceConfig & newJBOD & _ & Hlen & _).
  - apply Forall_cons. split; [left; eexists; reflexivity|].
    apply Forall_cons. split; [left; eexists; reflexivity|].
    apply Forall_cons. split; [right; reflexivity|]. apply Forall_nil_2.
  - apply elem_of_cons. by left.
  - do 2 (apply elem_of_cons; right). apply elem_of_cons. by left.
  - exact Hrun.
  - exists healed, newJBOD. split; [exact Hrun|exact Hlen].
Defined.

(** * Further properties of the code *)

(** ** findDiskIndex *)

Lemma findDiskIndex_from_first (disk : string) (jbod : list string) (i : Z) :
  0 <= i ->
  ((disk ∉ jbod) /\ findDiskIndex_from disk jbod i = -1)
  \/ exists n : nat,
       findDiskIndex_from disk jbod i = i + Z.of_nat n
       /\ jbod !! n = Some disk
       /\ forall m : nat, (m < n)%nat -> jbod !! m <> Some disk.
Proof.
  revert i. induction jbod as [|uuid rest IH]; intros i Hi; simpl.
  - left. split; [apply not_elem_of_nil|done].
  - destruct (decide (uuid = disk)) as [->|Hne].
    + right. exists 0%nat. split; [lia|]. split; [done|]. intros m Hm. lia.
    + destruct (IH (i + 1)) as [[Hnotin Hnone]|(n & Hn & Hlook & Hfirst)]; [lia| |].
      * left. split; [|done]. apply not_elem_of_cons. by split.
      * right. exists (S n). split; [lia|]. split; [done|].
        intros [|m] Hm; simpl; [congruence|]. apply Hfirst. lia.
Qed.

(** X1. [findDiskIndex] returns -1 exactly when the disk is not in the JBOD
    list; when it is, the result is the index of its first occurrence. *)
Theorem findDiskIndex_first_occurrence (disk : string) (jbod : list string) :
  (findDiskIndex disk jbod = -1 <-> disk ∉ jbod)
  /\ (disk ∈ jbod ->
      exists n : nat,
        findDiskIndex disk jbod = Z.of_nat n
        /\ jbod !! n = Some disk
        /\ forall m : nat, (m < n)%nat -> jbod !! m <> Some disk).
Proof.
  unfold findDiskIndex.
  destruct (findDiskIndex_from_first disk jbod 0)
    as [[Hnotin Hnone]|(n & Hn & Hlook & Hfirst)]; [lia| |].
  - split; [by split|]. intros Hin. by destruct Hnotin.
  - assert (Hin : disk ∈ jbod) by (by eapply list_elem_of_lookup_2).
    split.
    + split; [lia|]. intros Hnotin. by destruct Hnotin.
    + intros _. exists n. split; [lia|]. by split.
Qed.

(** A list X1 applies to: the disk occurs twice, the first position is
    returned. *)
Lemma findDiskIndex_first_occurrence_witness :
  exists n : nat,
    findDiskIndex "b" ["a"; "b"; "c"; "b"] = Z.of_nat n
    /\ ["a"; "b"; "c"; "b"] !! n = Some "b".
Proof.
  destruct (proj2 (findDiskIndex_first_occurrence "b" ["a"; "b"; "c"; "b"]))
    as (n & Hn & Hlook & _).
  - apply elem_of_cons. right. apply elem_of_cons. by left.
  - exists n. by split.
Defined.

(** In a list without duplicates the index of an entry is its position. *)
Lemma findDiskIndex_NoDup (disk : string) (jbod : list string) (k : nat) :
  NoDup jbod -> jbod !! k = Some disk -> findDiskIndex disk jbod = Z.of_nat k.
Proof.
  intros Hnd Hk. unfold findDiskIndex.
  destruct (findDiskIndex_from_first disk jbod 0)
    as [[Hnotin _]|(n & Hn & Hlook & _)]; [lia| |].
  - destruct Hnotin. by eapply list_elem_of_lookup_2.
  - rewrite Hn, Z.add_0_l. f_equal. by eapply NoDup_lookup.
Qed.

(** ** Error Reducer, for any disk count *)

(** X2. For any error vector and any disk count, with U entries Unformatted
    and D entries Unreachable: the Error Reducer returns AllUnformatted iff
    U = diskCount, SomeUnformatted iff U < diskCount and D = 0,
    SomeUnformattedAndSomeOffline iff U < diskCount and D > 0, and nil iff
    U > diskCount; so it returns nil only for a vector longer than the disk
    count. *)
Theorem reduceFormatErrs_verdicts (errs : list (option error)) (diskCount : Z) :
  let U := occurrences errUnformattedDisk errs in
  let D := occurrences errDiskNotFound errs in
  (reduceFormatErrs errs diskCount = Some errUnformattedDisk <-> U = diskCount)
  /\ (reduceFormatErrs errs diskCount = Some errSomeDiskUnformatted
      <-> U < diskCount /\ D = 0)
  /\ (reduceFormatErrs errs diskCount = Some errSomeDiskOffline
      <-> U < diskCount /\ D > 0)
  /\ (reduceFormatErrs errs diskCount = None <-> diskCount < U)
  /\ (reduceFormatErrs errs diskCount = None -> diskCount < len errs).
Proof.
  intros U D. unfold reduceFormatErrs. rewrite reduceFormatErrs_count_spec.
  fold U D.
  pose proof (len_filter_bounds (fun err => err = Some errUnformattedDisk) errs) as HU.
  pose proof (len_filter_bounds (fun err => err = Some errDiskNotFound) errs) as HD.
  change (0 <= U <= len errs) in HU. change (0 <= D <= len errs) in HD.
  clearbody U D.
  destruct (Z.eqb_spec U diskCount) as [Heq|Hne];
    [|destruct (Z.ltb_spec U diskCount) as [Hlt|Hge];
      [destruct (Z.eqb_spec D 0) as [HD0|HD0];
        [|destruct (Z.gtb_spec D 0) as [Hpos|Hneg]]|]];
    simpl; repeat split; intros; try first [lia | done | discriminate].
Qed.

(** ** Fleet Loader *)

(** The loader returns a manifest or an error, never both and never
    neither. *)
Lemma loadFormat_xor (disk : StorageAPI) format err :
  loadFormat disk = Return (format, err) ->
  (exists m, format = Some m /\ err = None)
  \/ (format = None /\ exists e, err = Some e).
Proof.
  unfold loadFormat, readAll. destruct disk as [d|]; [|discriminate].
  cbn [deref bind]. destruct (ReadFile d minioMetaBucket formatConfigFile)
    as [buffer [e|]].
  - destruct (decide (e = errFileNotFound \/ e = errVolumeNotFound)).
    + cbn [deref bind]. destruct (ListVols d) as [vols [e'|]].
      * intros H. injection H as <- <-. right. eauto.
      * destruct (len vols >? 1); intros H; injection H as <- <-; right; eauto.
    + intros H. injection H as <- <-. right. eauto.
  - destruct (json_Unmarshal buffer) as [m|e];
      intros H; injection H as <- <-; [left|right]; eauto.
Qed.

Lemma errorOf_classified (disk : StorageAPI) (e : error) :
  (exists r, loadFormat disk = Return r) ->
  errorOf disk = Some e <-> classifiedAs e disk.
Proof.
  intros [[format err] Hr]. unfold errorOf, classifiedAs. rewrite Hr.
  destruct (loadFormat_xor _ _ _ Hr) as [(m & -> & ->)|(-> & e' & ->)].
  - split; discriminate.
  - split; congruence.
Qed.

Lemma manifestOf_errorOf (disk : StorageAPI) :
  (exists r, loadFormat disk = Return r) ->
  is_Some (manifestOf disk) <-> errorOf disk = None.
Proof.
  intros [[format err] Hr]. unfold errorOf, manifestOf. rewrite Hr.
  destruct (loadFormat_xor _ _ _ Hr) as [(m & -> & ->)|(-> & e' & ->)].
  - split; eauto.
  - split; [intros [? ?]|]; discriminate.
Qed.

Lemma manifestOf_loadsManifest (disk : StorageAPI) :
  loadsManifest disk <-> is_Some (manifestOf disk).
Proof.
  unfold loadsManifest, manifestOf. split.
  - intros [m ->]. eauto.
  - intros [m Hm]. destruct (loadFormat disk) as [[[f|] [e|]]|]; try discriminate.
    eauto.
Qed.

Lemma loadAllFormats_load_spec (bootstrapDisks : list StorageAPI)
    formatConfigs sErrs :
  loadAllFormats_load bootstrapDisks = Return (formatConfigs, sErrs) ->
  formatConfigs = manifestOf <$> bootstrapDisks
  /\ sErrs = errorOf <$> bootstrapDisks
  /\ Forall (fun disk => exists r, loadFormat disk = Return r) bootstrapDisks.
Proof.
  revert formatConfigs sErrs.
  induction bootstrapDisks as [|disk rest IH]; intros formatConfigs sErrs H.
  - injection H as <- <-. by repeat split.
  - cbn [loadAllFormats_load] in H.
    apply bind_Return in H as ([formatConfig lErr] & Hload & H).
    apply bind_Return in H as ([fcs errs] & Hrest & H).
    destruct (IH _ _ Hrest) as (-> & -> & Hall).
    assert (Hret : exists r, loadFormat disk = Return r) by eauto.
    cbn [fmap list_fmap]. unfold manifestOf at 1, errorOf at 1. rewrite Hload.
    destruct (loadFormat_xor _ _ _ Hload) as [(m & -> & ->)|(-> & e & ->)];
      injection H as <- <-; repeat split; try done; by constructor.
Qed.

(** X3. The two vectors [loadAllFormats] returns are aligned with the
    endpoints: the manifest vector holds for every endpoint the manifest
    read from it, if any; the error vector is nil when every endpoint gave a
    manifest and otherwise holds for every endpoint the error of its load;
    and an endpoint has a manifest exactly when it has no error. *)
Theorem loadAllFormats_aligned (bootstrapDisks : list StorageAPI)
    (formatConfigs : list (option formatConfigV1)) (sErrs : list (option error)) :
  loadAllFormats bootstrapDisks = Return (formatConfigs, sErrs) ->
  formatConfigs = manifestOf <$> bootstrapDisks
  /\ (Forall loadsManifest bootstrapDisks -> sErrs = [])
  /\ (~ Forall loadsManifest bootstrapDisks ->
      sErrs = errorOf <$> bootstrapDisks)
  /\ (forall disk, disk ∈ bootstrapDisks ->
        is_Some (manifestOf disk) <-> errorOf disk = None).
Proof.
  unfold loadAllFormats. intros H.
  apply bind_Return in H as ([fcs errs] & Hload & H).
  apply loadAllFormats_load_spec in Hload as (-> & -> & Hret).
  assert (Hexists :
            existsb (fun err : option error => bool_decide (err <> None))
                    (errorOf <$> bootstrapDisks) = true
            <-> ~ Forall loadsManifest bootstrapDisks).
  { rewrite existsb_exists. split.
    - intros (err & Hin & Herr) Hall.
      apply bool_decide_eq_true in Herr.
      apply list_elem_of_In, list_elem_of_fmap in Hin as (disk & -> & Hin).
      rewrite Forall_forall in Hall, Hret.
      apply Herr, manifestOf_errorOf, manifestOf_loadsManifest; auto.
    - intros Hnot. apply not_Forall_Exists in Hnot; [|intros disk].
      2: { destruct (manifestOf disk) as [m|] eqn:Hm.
           - left. apply manifestOf_loadsManifest. eauto.
           - right. intros Hl. apply manifestOf_loadsManifest in Hl as [? ?].
             congruence. }
      apply Exists_exists in Hnot as (disk & Hin & Hnl).
      exists (errorOf disk). split.
      + apply list_elem_of_In, list_elem_of_fmap. eauto.
      + apply bool_decide_eq_true. intros Hnone. apply Hnl.
        rewrite Forall_forall in Hret.
        apply manifestOf_loadsManifest, manifestOf_errorOf; auto. }
  destruct (existsb _ _) eqn:Hany; injection H as <- <-.
  - assert (Hnot : ~ Forall loadsManifest bootstrapDisks) by (by apply Hexists).
    repeat split; try done.
    + apply manifestOf_errorOf. rewrite Forall_forall in Hret. auto.
    + apply manifestOf_errorOf. rewrite Forall_forall in Hret. auto.
  - assert (Hall : ~ ~ Forall loadsManifest bootstrapDisks).
    { intros Hnot. apply Hexists in Hnot. discriminate. }
    repeat split; try done.
    + apply manifestOf_errorOf. rewrite Forall_forall in Hret. auto.
    + apply manifestOf_errorOf. rewrite Forall_forall in Hret. auto.
Qed.

(** A fleet X3 applies to: a manifest, a fresh endpoint, an endpoint that
    does not answer. *)
Lemma loadAllFormats_aligned_witness :
  let fleet := [Some (endpointHolding [jsonOf (xlConfig "a" ["a"; "b"; "c"])]);
                Some freshEndpoint; Some offlineEndpoint] in
  exists formatConfigs sErrs,
    loadAllFormats fleet = Return (formatConfigs, sErrs)
    /\ formatConfigs = manifestOf <$> fleet.
Proof.
  intros fleet. eexists _, _. split; [reflexivity|].
  eapply (loadAllFormats_aligned fleet). reflexivity.
Defined.

Lemma occurrences_errorOf (bootstrapDisks : list StorageAPI) (e : error) :
  Forall (fun disk => exists r, loadFormat disk = Return r) bootstrapDisks ->
  occurrences e (errorOf <$> bootstrapDisks)
  = len (filter (classifiedAs e) bootstrapDisks).
Proof.
  unfold occurrences. induction 1 as [|disk rest Hret _ IH]; [reflexivity|].
  cbn [fmap list_fmap]. rewrite !len_filter_cons.
  change (list_fmap _ _ errorOf rest) with (errorOf <$> rest). rewrite IH.
  pose proof (errorOf_classified disk e Hret) as Hiff.
  destruct (decide (errorOf disk = Some e)), (decide (classifiedAs e disk));
    tauto.
Qed.

(** X4. The verdict of the Error Reducer on the error vector that
    [loadAllFormats] returns, for the fleet's own size: it is never nil; it
    is AllUnformatted exactly when every endpoint is Unformatted; it is
    SomeUnformattedAndSomeOffline exactly when not every endpoint is
    Unformatted and some endpoint is Unreachable; in every other case, a
    fleet without any error included, it is SomeUnformatted. *)
Theorem reduceFormatErrs_of_fleet (bootstrapDisks : list StorageAPI)
    (formatConfigs : list (option formatConfigV1)) (sErrs : list (option error)) :
  loadAllFormats bootstrapDisks = Return (formatConfigs, sErrs) ->
  let verdict := reduceFormatErrs sErrs (len bootstrapDisks) in
  verdict <> None
  /\ (verdict = Some errUnformattedDisk
      <-> Forall (classifiedAs errUnformattedDisk) bootstrapDisks)
  /\ (verdict = Some errSomeDiskOffline
      <-> ~ Forall (classifiedAs errUnformattedDisk) bootstrapDisks
          /\ Exists (classifiedAs errDiskNotFound) bootstrapDisks)
  /\ (~ Forall (classifiedAs errUnformattedDisk) bootstrapDisks ->
      ~ Exists (classifiedAs errDiskNotFound) bootstrapDisks ->
      verdict = Some errSomeDiskUnformatted).
Proof.
  intros Hload verdict. subst verdict.
  pose proof (len_filter_all (classifiedAs errUnformattedDisk) bootstrapDisks) as Hall.
  pose proof (len_filter_some (classifiedAs errDiskNotFound) bootstrapDisks) as Hoff.
  pose proof (len_filter_bounds (classifiedAs errUnformattedDisk) bootstrapDisks) as HU.
  pose proof (len_filter_bounds (classifiedAs errDiskNotFound) bootstrapDisks) as HD.
  assert (Hcounts :
            reduceFormatErrs_count sErrs
            = (len (filter (classifiedAs errUnformattedDisk) bootstrapDisks),
               len (filter (classifiedAs errDiskNotFound) bootstrapDisks))
            \/ (reduceFormatErrs_count sErrs = (0, 0)
                /\ Forall loadsManifest bootstrapDisks)).
  { unfold loadAllFormats in Hload.
    apply bind_Return in Hload as ([fcs errs] & Hrun & Hload).
    apply loadAllFormats_load_spec in Hrun as (-> & -> & Hret).
    destruct (existsb _ _) eqn:Hany; injection Hload as <- <-.
    - left. rewrite reduceFormatErrs_count_spec.
      by rewrite !occurrences_errorOf.
    - right. split; [reflexivity|].
      apply Forall_forall. intros disk Hin.
      apply manifestOf_loadsManifest, manifestOf_errorOf.
      { rewrite Forall_forall in Hret. auto. }
      destruct (errorOf disk) as [e|] eqn:He; [|done].
      assert (Hex : existsb (fun err : option error => bool_decide (err <> None))
                            (errorOf <$> bootstrapDisks) = true); [|congruence].
      apply existsb_exists. exists (Some e). split.
      + apply list_elem_of_In, list_elem_of_fmap. eauto.
      + by apply bool_decide_eq_true. }
  unfold reduceFormatErrs.
  destruct Hcounts as [->|[-> Hmanifests]].
  - set (U := len (filter (classifiedAs errUnformattedDisk) bootstrapDisks)) in *.
    set (D := len (filter (classifiedAs errDiskNotFound) bootstrapDisks)) in *.
    set (N := len bootstrapDisks) in *. clearbody U D N.
    destruct (Z.eqb_spec U N) as [Heq|Hne];
      [|destruct (Z.ltb_spec U N) as [Hlt|Hge]; [|lia];
        destruct (Z.eqb_spec D 0) as [HD0|HD0];
          [|destruct (Z.gtb_spec D 0) as [Hpos|Hneg]; [|lia]]];
      simpl; repeat split; intros;
      try first [done | discriminate | tauto | lia
                | exfalso; tauto
                | match goal with
                  | H : Exists _ _ |- _ => apply Hoff in H; lia
                  | H : _ /\ Exists _ _ |- _ =>
                      destruct H as [_ H]; apply Hoff in H; lia
                  | |- Exists _ _ => apply Hoff; lia
                  | H : ~ Exists _ _ |- _ => destruct H; apply Hoff; lia
                  end ].
  - assert (Hnone : forall e disk, disk ∈ bootstrapDisks ->
                      ~ classifiedAs e disk).
    { intros e disk Hin Hc. rewrite Forall_forall in Hmanifests.
      destruct (Hmanifests disk Hin) as [m Hm].
      unfold classifiedAs in Hc. congruence. }
    assert (Hnooff : ~ Exists (classifiedAs errDiskNotFound) bootstrapDisks).
    { intros Hex. apply Exists_exists in Hex as (disk & Hin & Hc).
      by eapply Hnone. }
    destruct bootstrapDisks as [|disk rest].
    + simpl. repeat split; intros; first [done | discriminate | tauto].
    + assert (Hnotall : ~ Forall (classifiedAs errUnformattedDisk) (disk :: rest)).
      { intros Hf. apply Forall_cons in Hf as [Hc _].
        apply (Hnone errUnformattedDisk disk); [apply elem_of_cons; by left|done]. }
      assert (HN : 0 < len (disk :: rest)) by (unfold len; simpl; lia).
      destruct (Z.eqb_spec 0 (len (disk :: rest))); [lia|].
      destruct (Z.ltb_spec 0 (len (disk :: rest))); [|lia]. simpl.
      repeat split; intros; try first [done | discriminate | tauto].
Qed.

(** A fleet X4 applies to: two endpoints that both hold their manifest; the
    error vector is nil and the verdict is SomeUnformatted. *)
Lemma reduceFormatErrs_of_fleet_witness :
  let order := ["a"; "b"] in
  let fleet := [Some (endpointHolding [jsonOf (xlConfig "a" order)]);
                Some (endpointHolding [jsonOf (xlConfig "b" order)])] in
  reduceFormatErrs [] (len fleet) <> None.
Proof.
  intros order fleet.
  eapply (reduceFormatErrs_of_fleet fleet). reflexivity.
Defined.

(** ** Consistency Checker: what it accepts *)

Lemma checkFormatXL_fields_pass n formatConfigs :
  (forall format, Some format ∈ formatConfigs -> wellFormed n format) ->
  checkFormatXL_fields n formatConfigs = Return None.
Proof.
  induction formatConfigs as [|[formatXL|] rest IH]; intros Hwf; simpl.
  - reflexivity.
  - destruct (Hwf formatXL) as (HV & HF & xl & HXL & HxV & Hlen);
      [apply elem_of_cons; by left|].
    rewrite decide_False by (by intros []).
    rewrite decide_False by (by intros []).
    rewrite HXL. cbn [deref bind].
    rewrite decide_False by (by intros []).
    rewrite decide_False by (by intros []).
    apply IH. intros f Hf. apply Hwf. apply elem_of_cons. by right.
  - apply IH. intros f Hf. apply Hwf. apply elem_of_cons. by right.
Qed.

Lemma checkJBODConsistency_pass formatConfigs :
  allSectioned formatConfigs ->
  (forall format format',
     Some format ∈ formatConfigs -> Some format' ∈ formatConfigs ->
     Join (orderOf format) "." = Join (orderOf format') ".") ->
  checkJBODConsistency formatConfigs = Return None.
Proof.
  intros Hall Hjoin. unfold checkJBODConsistency.
  assert (Hfirst : exists jbodStr,
             checkJBODConsistency_first formatConfigs = Return jbodStr
             /\ forall format, Some format ∈ formatConfigs ->
                  Join (orderOf format) "." = jbodStr).
  { clear -Hall Hjoin.
    induction formatConfigs as [|[format|] rest IH]; simpl.
    - exists "". split; [done|]. intros f Hf. by apply elem_of_nil in Hf.
    - destruct (allSectioned_head _ _ Hall) as [xl HXL]. rewrite HXL. simpl.
      eexists. split; [reflexivity|]. intros f Hf.
      rewrite (Hjoin f format Hf); [|apply elem_of_cons; by left].
      unfold orderOf. by rewrite HXL.
    - destruct IH as (jbodStr & -> & Hsame).
      + by eapply allSectioned_cons.
      + intros f f' Hf Hf'. apply Hjoin; apply elem_of_cons; by right.
      + exists jbodStr. split; [done|]. intros f Hf.
        apply elem_of_cons in Hf as [Heq|Hf]; [discriminate|by apply Hsame]. }
  destruct Hfirst as (jbodStr & -> & Hsame). cbn [bind].
  clear Hjoin.
  induction formatConfigs as [|[format|] rest IH]; simpl.
  - reflexivity.
  - destruct (allSectioned_head _ _ Hall) as [xl HXL]. rewrite HXL. simpl.
    rewrite decide_True.
    + apply IH; [by eapply allSectioned_cons|].
      intros f Hf. apply Hsame. apply elem_of_cons. by right.
    + rewrite <- (Hsame format); [|apply elem_of_cons; by left].
      unfold orderOf. by rewrite HXL.
  - apply IH; [by eapply allSectioned_cons|].
    intros f Hf. apply Hsame. apply elem_of_cons. by right.
Qed.

Lemma isSavedUUIDInOrder_collect_pass uuid formatConfigs orderIndexes :
  allSectioned formatConfigs ->
  (forall format, Some format ∈ formatConfigs ->
     findDiskIndex uuid (orderOf format) <> -1) ->
  isSavedUUIDInOrder_collect uuid formatConfigs orderIndexes
  = Return (Some (orderIndexes
                    ++ ((fun format => findDiskIndex uuid (orderOf format) + 1)
                          <$> omap id formatConfigs))).
Proof.
  revert orderIndexes.
  induction formatConfigs as [|[format|] rest IH]; intros orderIndexes Hall Hfound;
    simpl.
  - by rewrite app_nil_r.
  - destruct (allSectioned_head _ _ Hall) as [xl HXL]. rewrite HXL. simpl.
    assert (Hf : findDiskIndex uuid (JBOD xl) <> -1).
    { specialize (Hfound format). unfold orderOf in Hfound.
      rewrite HXL in Hfound. apply Hfound. apply elem_of_cons. by left. }
    destruct (Z.eqb_spec (findDiskIndex uuid (JBOD xl)) (-1)); [done|].
    rewrite IH.
    + unfold orderOf at 2. by rewrite HXL, <- app_assoc.
    + by eapply allSectioned_cons.
    + intros f Hin. apply Hfound. apply elem_of_cons. by right.
  - apply IH; [by eapply allSectioned_cons|].
    intros f Hin. apply Hfound. apply elem_of_cons. by right.
Qed.

Lemma isSavedUUIDInOrder_pass uuid formatConfigs :
  allSectioned formatConfigs ->
  (exists format, Some format ∈ formatConfigs) ->
  (forall format, Some format ∈ formatConfigs ->
     findDiskIndex uuid (orderOf format) <> -1) ->
  (forall format format',
     Some format ∈ formatConfigs -> Some format' ∈ formatConfigs ->
     findDiskIndex uuid (orderOf format) = findDiskIndex uuid (orderOf format')) ->
  isSavedUUIDInOrder uuid formatConfigs = Return true.
Proof.
  intros Hall [some Hsome] Hfound Hsame. unfold isSavedUUIDInOrder.
  rewrite isSavedUUIDInOrder_collect_pass by done. cbn [bind app].
  remember ((fun format => findDiskIndex uuid (orderOf format) + 1)
              <$> omap id formatConfigs) as L eqn:HL.
  destruct L as [|prev l].
  { apply elem_of_omap_id in Hsome.
    apply (list_elem_of_fmap_2
             (fun format => findDiskIndex uuid (orderOf format) + 1)) in Hsome.
    rewrite <- HL in Hsome. by apply elem_of_nil in Hsome. }
  f_equal. apply forallb_forall. intros x Hx. apply Z.eqb_eq.
  assert (Hprev : prev ∈ prev :: l) by (apply elem_of_cons; by left).
  apply list_elem_of_In in Hx. rewrite HL in Hx, Hprev.
  apply list_elem_of_fmap in Hx as (f & -> & Hf).
  apply list_elem_of_fmap in Hprev as (g & -> & Hg).
  apply elem_of_omap_id in Hf, Hg. by rewrite (Hsame g f).
Qed.

Lemma checkDisksConsistency_pass formatConfigs :
  allSectioned formatConfigs ->
  (forall format format',
     Some format ∈ formatConfigs -> Some format' ∈ formatConfigs ->
     identityOf format <> "" ->
     findDiskIndex (identityOf format) (orderOf format') <> -1
     /\ findDiskIndex (identityOf format) (orderOf format')
        = findDiskIndex (identityOf format) (orderOf format)) ->
  checkDisksConsistency formatConfigs = Return None.
Proof.
  intros Hall Hsaved. unfold checkDisksConsistency.
  assert (Hcollect : exists disks,
             checkDisksConsistency_collect formatConfigs = Return disks
             /\ forall uuid, uuid ∈ disks -> uuid <> "" ->
                  exists format, Some format ∈ formatConfigs
                                 /\ identityOf format = uuid).
  { clear -Hall.
    induction formatConfigs as [|[format|] rest IH]; simpl.
    - eexists. split; [reflexivity|]. intros uuid Hin. by apply elem_of_nil in Hin.
    - destruct (allSectioned_head _ _ Hall) as [xl HXL]. rewrite HXL. simpl.
      destruct IH as (disks & -> & Hdisks); [by eapply allSectioned_cons|].
      simpl. eexists. split; [reflexivity|]. intros uuid Hin Hne.
      apply elem_of_cons in Hin as [->|Hin].
      + exists format. split; [apply elem_of_cons; by left|].
        unfold identityOf. by rewrite HXL.
      + destruct (Hdisks uuid Hin Hne) as (f & Hf & Hid).
        exists f. split; [apply elem_of_cons; by right|done].
    - destruct IH as (disks & -> & Hdisks); [by eapply allSectioned_cons|].
      simpl. eexists. split; [reflexivity|]. intros uuid Hin Hne.
      apply elem_of_cons in Hin as [->|Hin]; [done|].
      destruct (Hdisks uuid Hin Hne) as (f & Hf & Hid).
      exists f. split; [apply elem_of_cons; by right|done]. }
  destruct Hcollect as (disks & -> & Hdisks). cbn [bind].
  induction disks as [|uuid rest IH]; simpl; [reflexivity|].
  assert (Hrest : checkDisksConsistency_verify rest formatConfigs = Return None).
  { apply IH. intros u Hin. apply Hdisks. apply elem_of_cons. by right. }
  destruct (decide (uuid = "")) as [|Hne]; [done|].
  destruct (Hdisks uuid) as (owner & Howner & <-);
    [apply elem_of_cons; by left|done|].
  rewrite isSavedUUIDInOrder_pass; [done|done|eauto| |].
  - intros f Hf. by apply Hsaved.
  - intros f f' Hf Hf'.
    destruct (Hsaved owner f Howner Hf Hne) as [_ ->].
    by destruct (Hsaved owner f' Howner Hf' Hne) as [_ ->].
Qed.

Lemma checkFormatXL_pass (formatConfigs : list (option formatConfigV1)) :
  consistent formatConfigs -> checkFormatXL formatConfigs = Return None.
Proof.
  intros (Hwf & Hjoin & Hsaved).
  assert (Hall : allSectioned formatConfigs).
  { intros format Hin. destruct (Hwf format Hin) as (_ & _ & xl & -> & _).
    eauto. }
  unfold checkFormatXL.
  rewrite checkFormatXL_fields_pass by done. cbn [bind].
  rewrite checkJBODConsistency_pass by done. cbn [bind].
  by apply checkDisksConsistency_pass.
Qed.

(** X5. [checkFormatXL] returns nil exactly for the vectors in which every
    manifest at hand has version "1", format "xl", an xl section of version
    "1" and an order of as many identities as the vector has slots; the
    orders at hand join with dots to one and the same string; and every
    non-empty identity at hand is found in every order at hand, at the
    position at which its own order has it. *)
Theorem checkFormatXL_accepts_iff (formatConfigs : list (option formatConfigV1)) :
  checkFormatXL formatConfigs = Return None <-> consistent formatConfigs.
Proof.
  split.
  - intros Hcheck. destruct (checkFormatXL_accepted _ Hcheck) as [Hfields Hsaved].
    split; [|split].
    + intros format Hin.
      destruct (Hfields format Hin) as (xl & HXL & HV & HF & HxV & Hlen).
      split; [done|]. split; [done|]. by exists xl.
    + intros format format' Hin Hin'.
      unfold checkFormatXL, checkJBODConsistency in Hcheck.
      apply bind_Return in Hcheck as ([e1|] & _ & Hcheck); [discriminate|].
      apply bind_Return in Hcheck as ([e2|] & Hcompare & Hcheck); [discriminate|].
      apply bind_Return in Hcompare as (jbodStr & _ & Hcompare).
      rewrite (checkJBODConsistency_compare_accepted _ _ _ Hcompare Hin).
      by rewrite (checkJBODConsistency_compare_accepted _ _ _ Hcompare Hin').
    + done.
  - apply checkFormatXL_pass.
Qed.

(** A vector X6 applies to: a manifest of kind "fs" without xl section next
    to a manifest of kind "xl". The checker returns an error. *)
Lemma checkFormatXL_total_witness :
  exists err,
    checkFormatXL [Some {| Version := "1"; Format := "fs";
                           FS := Some {| fsVersion := "1" |}; XL := None |};
                   Some (xlConfig "a" ["a"; "b"])]
    = Return err.
Proof.
  apply checkFormatXL_total. intros format Hin Hxl.
  apply elem_of_cons in Hin as [Heq|Hin].
  - injection Heq as ->. discriminate.
  - apply elem_of_cons in Hin as [Heq|Hin].
    + injection Heq as ->. eexists. reflexivity.
    + by apply elem_of_nil in Hin.
Defined.

(** A vector X7 applies to. *)
Lemma checkFormatXL_orders_agree_witness :
  orderOf (xlConfig "a" ["a"; "b"; "c"]) = orderOf (xlConfig "b" ["a"; "b"; "c"]).
Proof.
  apply (checkFormatXL_orders_agree
           [Some (xlConfig "a" ["a"; "b"; "c"]); None; Some (xlConfig "b" ["a"; "b"; "c"])]
           ltac:(reflexivity)).
  - intros format Hin.
    apply elem_of_cons in Hin as [Heq|Hin];
      [injection Heq as ->; repeat constructor; discriminate|].
    apply elem_of_cons in Hin as [Heq|Hin]; [discriminate|].
    apply elem_of_cons in Hin as [Heq|Hin];
      [injection Heq as ->; repeat constructor; discriminate|].
    by apply elem_of_nil in Hin.
  - apply elem_of_cons. by left.
  - apply elem_of_cons. right. apply elem_of_cons. right.
    apply elem_of_cons. by left.
Defined.

(** ** Vectors without any manifest *)

Lemma omap_id_nil {A : Type} (l : list (option A)) :
  (forall x, Some x ∉ l) -> omap id l = [].
Proof.
  intros Hnone. destruct (omap id l) as [|x rest] eqn:Hl; [done|].
  destruct (Hnone x). apply elem_of_omap_id. rewrite Hl.
  apply elem_of_cons. by left.
Qed.

Lemma reorderDisks_place_no_manifest bootstrapDisks savedJBOD formatConfigs
    fIndex newDisks :
  (forall format, Some format ∉ formatConfigs) ->
  reorderDisks_place bootstrapDisks savedJBOD formatConfigs fIndex newDisks
  = Return (newDisks, None).
Proof.
  revert fIndex.
  induction formatConfigs as [|[format|] rest IH]; intros fIndex Hnone; simpl.
  - reflexivity.
  - destruct (Hnone format). apply elem_of_cons. by left.
  - apply IH. intros f Hf. apply (Hnone f). apply elem_of_cons. by right.
Qed.

(** X8. On a vector without any manifest at hand (the empty vector
    included) [checkFormatXL] returns nil and [reorderDisks] returns a vector
    of as many empty slots as there are endpoints, without error; whereas
    [isSavedUUIDInOrder], called on such a vector, indexes its empty slice of
    positions and panics. *)
Theorem checkFormatXL_no_manifest
    (bootstrapDisks : list StorageAPI)
    (formatConfigs : list (option formatConfigV1)) (uuid : string) :
  (forall format, Some format ∉ formatConfigs) ->
  checkFormatXL formatConfigs = Return None
  /\ reorderDisks bootstrapDisks formatConfigs
     = Return (replicate (length bootstrapDisks) None, None)
  /\ isSavedUUIDInOrder uuid formatConfigs = Panic indexOutOfRange.
Proof.
  intros Hnone. split; [|split].
  - apply checkFormatXL_pass.
    split; [|split]; intros format; intros; by destruct (Hnone format).
  - unfold reorderDisks.
    assert (Hsaved : reorderDisks_saved formatConfigs = Return []).
    { clear -Hnone. induction formatConfigs as [|[format|] rest IH]; simpl.
      - done.
      - destruct (Hnone format). apply elem_of_cons. by left.
      - apply IH. intros f Hf. apply (Hnone f). apply elem_of_cons. by right. }
    rewrite Hsaved. cbn [bind]. by apply reorderDisks_place_no_manifest.
  - unfold isSavedUUIDInOrder.
    rewrite isSavedUUIDInOrder_collect_pass.
    + by rewrite omap_id_nil.
    + intros format Hin. by destruct (Hnone format).
    + intros format Hin. by destruct (Hnone format).
Qed.

(** A vector X8 applies to: three slots, no manifest. *)
Lemma checkFormatXL_no_manifest_witness :
  checkFormatXL [None; None; None] = Return None.
Proof.
  apply (checkFormatXL_no_manifest [] [None; None; None] "a").
  intros format Hin. repeat (apply elem_of_cons in Hin as [Heq|Hin]; [discriminate|]).
  by apply elem_of_nil in Hin.
Defined.

(** ** Reorderer, with manifests missing *)

Lemma index_Return {A : Type} (s : list A) (i : Z) (a : A) :
  index s i = Return a -> exists n : nat, i = Z.of_nat n /\ s !! n = Some a.
Proof.
  unfold index. destruct (Z.leb_spec 0 i); [|discriminate].
  destruct (i <? len s); [|discriminate]. simpl.
  destruct (s !! Z.to_nat i) eqn:Hlook; [|discriminate].
  intros Hret. injection Hret as ->. exists (Z.to_nat i). split; [lia|done].
Qed.

Lemma assign_Return {A : Type} (s s' : list A) (i : Z) (a : A) :
  assign s i a = Return s' ->
  exists n : nat, i = Z.of_nat n /\ (n < length s)%nat /\ s' = <[n := a]> s.
Proof.
  unfold assign, len. destruct (Z.leb_spec 0 i); [|discriminate].
  destruct (Z.ltb_spec i (Z.of_nat (length s))); [|discriminate]. simpl.
  intros Hret. injection Hret as <-. exists (Z.to_nat i).
  split; [lia|]. split; [lia|done].
Qed.

Lemma reorderDisks_place_slots bootstrapDisks savedJBOD formatConfigs
    (n : nat) newDisks out err :
  reorderDisks_place bootstrapDisks savedJBOD formatConfigs (Z.of_nat n) newDisks
  = Return (out, err) ->
  (err = None ->
   length out = length newDisks
   /\ forall k disk, out !! k = Some disk ->
        newDisks !! k = Some disk
        \/ exists f format,
             formatConfigs !! f = Some (Some format)
             /\ bootstrapDisks !! (n + f)%nat = Some disk
             /\ findDiskIndex (identityOf format) savedJBOD = Z.of_nat k)
  /\ (forall e, err = Some e ->
        out = []
        /\ exists format, Some format ∈ formatConfigs
                          /\ findDiskIndex (identityOf format) savedJBOD = -1).
Proof.
  revert n newDisks.
  induction formatConfigs as [|[format|] rest IH]; intros n newDisks H;
    cbn [reorderDisks_place] in H.
  - injection H as <- <-. split; [|discriminate].
    intros _. split; [done|]. intros k disk Hk. by left.
  - apply bind_Return in H as (xl & Hxl & H).
    assert (HXL : XL format = Some xl)
      by (destruct (XL format); [injection Hxl as ->; done|discriminate]).
    assert (Hid : identityOf format = Disk xl)
      by (unfold identityOf; by rewrite HXL).
    destruct (Z.eqb_spec (findDiskIndex (Disk xl) savedJBOD) (-1)) as [Hnone|Hfound].
    { injection H as <- <-. split; [discriminate|].
      intros e _. split; [done|]. exists format.
      split; [apply elem_of_cons; by left|congruence]. }
    apply bind_Return in H as (disk0 & Hindex & H).
    apply bind_Return in H as (newDisks' & Hassign & H).
    apply index_Return in Hindex as (n' & Hn' & Hdisk0).
    apply Nat2Z.inj in Hn'. subst n'.
    apply assign_Return in Hassign as (j & Hj & Hjlt & ->).
    replace (Z.of_nat n + 1) with (Z.of_nat (S n)) in H by lia.
    destruct (IH _ _ H) as [Hok Herr]. split.
    + intros Hnil. destruct (Hok Hnil) as [Hlen Hslots].
      rewrite length_insert in Hlen. split; [done|].
      intros k disk Hk. destruct (Hslots k disk Hk) as [Hnew|(f & m & Hf & Hb & Hpos)].
      * destruct (decide (j = k)) as [->|Hne].
        -- rewrite list_lookup_insert_eq in Hnew by done. injection Hnew as ->.
           right. exists 0%nat, format. rewrite Nat.add_0_r.
           repeat split; try done. congruence.
        -- rewrite list_lookup_insert_ne in Hnew by done. by left.
      * right. exists (S f), m. rewrite <- Nat.add_succ_comm. by repeat split.
    + intros e He. destruct (Herr e He) as [-> (m & Hm & Hpos)].
      split; [done|]. exists m. split; [apply elem_of_cons; by right|done].
  - replace (Z.of_nat n + 1) with (Z.of_nat (S n)) in H by lia.
    destruct (IH _ _ H) as [Hok Herr]. split.
    + intros Hnil. destruct (Hok Hnil) as [Hlen Hslots]. split; [done|].
      intros k disk Hk. destruct (Hslots k disk Hk) as [Hnew|(f & m & Hf & Hb & Hpos)].
      * by left.
      * right. exists (S f), m. rewrite <- Nat.add_succ_comm. by repeat split.
    + intros e He. destruct (Herr e He) as [-> (m & Hm & Hpos)].
      split; [done|]. exists m. split; [apply elem_of_cons; by right|done].
Qed.

(** X9. Whenever [reorderDisks] returns, manifests missing or not: without
    error its output has as many slots as the input vector has endpoints,
    and a slot that is not empty holds an input endpoint whose manifest's
    identity has the slot's position in the saved order (the order of the
    first manifest at hand); with an error it returns no vector, and some
    manifest at hand has an identity that is not in the saved order. *)
Theorem reorderDisks_slots (bootstrapDisks : list StorageAPI)
    (formatConfigs : list (option formatConfigV1))
    (newDisks : list StorageAPI) (err : option error) :
  reorderDisks bootstrapDisks formatConfigs = Return (newDisks, err) ->
  exists savedJBOD,
    reorderDisks_saved formatConfigs = Return savedJBOD
    /\ (err = None ->
        length newDisks = length bootstrapDisks
        /\ forall k disk, newDisks !! k = Some disk ->
             disk = None
             \/ exists f format,
                  formatConfigs !! f = Some (Some format)
                  /\ bootstrapDisks !! f = Some disk
                  /\ findDiskIndex (identityOf format) savedJBOD = Z.of_nat k)
    /\ (forall e, err = Some e ->
          newDisks = []
          /\ exists format, Some format ∈ formatConfigs
                            /\ identityOf format ∉ savedJBOD).
Proof.
  unfold reorderDisks. intros H.
  apply bind_Return in H as (savedJBOD & Hsaved & H).
  exists savedJBOD. split; [done|].
  change 0 with (Z.of_nat 0) in H.
  apply reorderDisks_place_slots in H as [Hok Herr]. split.
  - intros Hnil. destruct (Hok Hnil) as [Hlen Hslots].
    rewrite length_replicate in Hlen. split; [done|].
    intros k disk Hk. destruct (Hslots k disk Hk) as [Hnew|Hplaced].
    + left. apply lookup_replicate in Hnew as [-> _]. done.
    + by right.
  - intros e He. destruct (Herr e He) as [-> (format & Hin & Hpos)].
    split; [done|]. exists format. split; [done|].
    unfold findDiskIndex in Hpos.
    destruct (findDiskIndex_from_first (identityOf format) savedJBOD 0)
      as [[Hnotin _]|(n & Hn & _)]; [lia|done|lia].
Qed.

(** A run X9 applies to: four endpoints, the manifests of two of them
    missing. *)
Lemma reorderDisks_slots_witness :
  let order := ["a"; "b"; "c"; "d"] in
  let bootstrapDisks :=
    [Some (endpointHolding [jsonOf (xlConfig "c" order)]); Some freshEndpoint;
     Some (endpointHolding [jsonOf (xlConfig "a" order)]); Some offlineEndpoint] in
  let formatConfigs :=
    [Some (xlConfig "c" order); None; Some (xlConfig "a" order); None] in
  exists newDisks savedJBOD,
    reorderDisks bootstrapDisks formatConfigs = Return (newDisks, None)
    /\ reorderDisks_saved formatConfigs = Return savedJBOD.
Proof.
  intros order bootstrapDisks formatConfigs.
  eexists. 
  assert (Hrun : reorderDisks bootstrapDisks formatConfigs
                 = Return ([Some (endpointHolding [jsonOf (xlConfig "a" order)]);
                            None;
                            Some (endpointHolding [jsonOf (xlConfig "c" order)]);
                            None], None)) by reflexivity.
  destruct (reorderDisks_slots _ _ _ _ Hrun) as (savedJBOD & Hsaved & _).
  exists savedJBOD. split; [exact Hrun|exact Hsaved].
Defined.

(** ** Mount of a healthy deployment *)

Lemma classifiedAs_none_of_manifests (bootstrapDisks : list StorageAPI) (e : error) :
  Forall loadsManifest bootstrapDisks ->
  len (filter (classifiedAs e) bootstrapDisks) = 0.
Proof.
  induction 1 as [|disk rest [m Hm] _ IH]; [reflexivity|].
  rewrite len_filter_cons, IH.
  rewrite decide_False; [done|]. unfold classifiedAs. rewrite Hm. discriminate.
Qed.

(** The manifests of the endpoints of a healthy deployment. *)
Lemma carries_manifests (order : list string) (bootstrapDisks : list StorageAPI)
    (uuids : list string) :
  Forall2 (carries order) bootstrapDisks uuids ->
  Forall loadsManifest bootstrapDisks
  /\ exists manifests,
       manifestOf <$> bootstrapDisks = Some <$> manifests
       /\ Forall2 (fun manifest uuid =>
                     wellFormed (len order) manifest
                     /\ identityOf manifest = uuid
                     /\ orderOf manifest = order) manifests uuids.
Proof.
  induction 1 as [|disk uuid disks uuids Hc _ (Hloads & ms & Hms & Hrel)].
  - split; [constructor|]. exists []. split; [done|constructor].
  - destruct Hc as (m & xl & Hload & HV & HF & HXL & HxV & Hid & Hord).
    split; [constructor; [by exists m|done]|].
    exists (m :: ms). split.
    + cbn [fmap list_fmap]. rewrite (manifestOf_loaded _ _ Hload).
      f_equal. exact Hms.
    + constructor; [|done]. unfold wellFormed, identityOf, orderOf.
      rewrite HXL. repeat split; try done. exists xl. by rewrite Hord.
Qed.

Lemma findDiskIndex_elem (disk : string) (jbod : list string) :
  disk ∈ jbod -> findDiskIndex disk jbod <> -1.
Proof.
  intros Hin. unfold findDiskIndex.
  destruct (findDiskIndex_from_first disk jbod 0)
    as [[Hnotin _]|(n & Hn & _)]; [lia|done|lia].
Qed.

Lemma healthy_consistent (order : list string)
    (manifests : list formatConfigV1) (uuids : list string) :
  Forall2 (fun manifest uuid =>
             wellFormed (len order) manifest
             /\ identityOf manifest = uuid
             /\ orderOf manifest = order) manifests uuids ->
  length order = length manifests ->
  (forall uuid, uuid ∈ uuids -> uuid ∈ order) ->
  consistent (Some <$> manifests).
Proof.
  intros Hrel Hlen Hin.
  assert (Hmem : forall m, Some m ∈ Some <$> manifests ->
            wellFormed (len order) m /\ identityOf m ∈ order
            /\ orderOf m = order).
  { intros m Hm. apply list_elem_of_fmap in Hm as (m' & Heq & Hm').
    injection Heq as <-. apply list_elem_of_lookup in Hm' as [i Hi].
    destruct (Forall2_lookup_l _ _ _ _ _ Hrel Hi) as (uuid & Hu & Hwf & Hid & Hord).
    split; [done|]. split; [|done]. rewrite Hid. apply Hin.
    by eapply list_elem_of_lookup_2. }
  split; [|split].
  - intros m Hm. destruct (Hmem m Hm) as (Hwf & _).
    unfold len in *. rewrite length_fmap, <- Hlen. exact Hwf.
  - intros m m' Hm Hm'. destruct (Hmem m Hm) as (_ & _ & ->).
    by destruct (Hmem m' Hm') as (_ & _ & ->).
  - intros m m' Hm Hm' _. destruct (Hmem m Hm) as (_ & Hid & ->).
    destruct (Hmem m' Hm') as (_ & _ & ->).
    split; [by apply findDiskIndex_elem|done].
Qed.

(** The Reorderer on the manifests of a healthy deployment, all at hand. *)
Lemma reorderDisks_healthy (order : list string)
    (bootstrapDisks : list StorageAPI) (manifests : list formatConfigV1)
    (uuids : list string) :
  Forall2 (fun manifest uuid =>
             wellFormed (len order) manifest
             /\ identityOf manifest = uuid
             /\ orderOf manifest = order) manifests uuids ->
  length manifests = length bootstrapDisks ->
  length order = length bootstrapDisks ->
  manifests <> [] ->
  NoDup order -> NoDup uuids ->
  (forall uuid, uuid ∈ uuids -> uuid ∈ order) ->
  exists newDisks,
    reorderDisks bootstrapDisks (Some <$> manifests) = Return (newDisks, None)
    /\ bootstrapDisks ≡ₚ newDisks
    /\ forall f k uuid disk,
         uuids !! f = Some uuid -> order !! k = Some uuid ->
         bootstrapDisks !! f = Some disk -> newDisks !! k = Some disk.
Proof.
  intros Hrel Hlenm Hleno Hne Hnd Hndu Hin.
  set (ks := positions order manifests).
  set (newDisks := replicate (length bootstrapDisks) (None : StorageAPI)).
  assert (Hnew : length newDisks = length bootstrapDisks) by apply length_replicate.
  assert (Hks : forall f uuid k, uuids !! f = Some uuid -> order !! k = Some uuid ->
            ks !! f = Some k).
  { intros f uuid k Hu Hk.
    destruct (Forall2_lookup_r _ _ _ _ _ Hrel Hu) as (m & Hm & _ & Hid & _).
    unfold ks, positions. rewrite list_lookup_fmap, Hm. simpl.
    by rewrite Hid, (findDiskIndex_NoDup _ _ _ Hnd Hk), Nat2Z.id. }
  assert (Hslot : forall f k, ks !! f = Some k ->
            exists uuid, uuids !! f = Some uuid /\ order !! k = Some uuid).
  { intros f k Hf.
    destruct (lookup_lt_is_Some_2 uuids f) as [uuid Hu].
    { apply lookup_lt_Some in Hf. unfold ks, positions in Hf.
      rewrite length_fmap in Hf. by rewrite <- (Forall2_length _ _ _ Hrel). }
    destruct (list_elem_of_lookup_1 order uuid) as [k' Hk'].
    { apply Hin. by eapply list_elem_of_lookup_2. }
    exists uuid. split; [done|]. rewrite (Hks f uuid k' Hu Hk') in Hf. congruence. }
  assert (Hkslt : Forall (fun k => (k < length newDisks)%nat) ks).
  { apply Forall_lookup. intros f k Hf.
    destruct (Hslot f k Hf) as (uuid & _ & Hk).
    apply lookup_lt_Some in Hk. lia. }
  assert (Hksnd : NoDup ks).
  { apply NoDup_alt. intros f g k Hf Hg.
    destruct (Hslot f k Hf) as (uuid & Hu & Hk).
    destruct (Hslot g k Hg) as (uuid' & Hu' & Hk').
    assert (uuid' = uuid) by congruence. subst uuid'.
    by eapply NoDup_lookup. }
  assert (Hkslen : length ks = length newDisks).
  { unfold ks, positions. rewrite length_fmap. lia. }
  exists (assignAll ks bootstrapDisks newDisks). split; [|split].
  - destruct manifests as [|first rest]; [done|].
    assert (Hfirst : orderOf first = order).
    { by destruct (Forall2_cons_inv_l _ _ _ _ Hrel) as (? & ? & (_ & _ & ?) & _ & _). }
    assert (Hrun : reorderDisks_saved (Some <$> first :: rest) = Return order).
    { cbn [fmap list_fmap reorderDisks_saved]. unfold orderOf in Hfirst.
      destruct (XL first) as [xl|] eqn:HXL.
      - simpl. by rewrite Hfirst.
      - destruct (Forall2_cons_inv_l _ _ _ _ Hrel)
          as (? & ? & ((_ & _ & xl & Hxl & _) & _) & _).
        congruence. }
    unfold reorderDisks. rewrite Hrun. cbn [bind]. fold newDisks.
    change 0 with (Z.of_nat 0). rewrite reorderDisks_place_run.
    + rewrite drop_0, take_ge by lia. reflexivity.
    + lia.
    + apply Forall_lookup. intros f m Hm.
      destruct (Forall2_lookup_l _ _ _ _ _ Hrel Hm)
        as (uuid & Hu & (_ & _ & xl & HXL & _) & Hid & _).
      destruct (list_elem_of_lookup_1 order uuid) as [k Hk].
      { apply Hin. by eapply list_elem_of_lookup_2. }
      exists xl, k. split; [done|]. unfold identityOf in Hid. rewrite HXL in Hid.
      rewrite Hid. split; [by apply findDiskIndex_NoDup|].
      apply lookup_lt_Some in Hk. lia.
  - apply assignAll_Permutation; try done; lia.
  - intros f k uuid disk Hu Hk Hdisk.
    eapply assignAll_lookup; eauto.
Qed.

(** Mount of a healthy deployment, the endpoints given in any order. *)
Lemma loadFormatXL_healthy (order : list string)
    (bootstrapDisks : list StorageAPI) (uuids : list string) :
  Forall2 (carries order) bootstrapDisks uuids ->
  bootstrapDisks <> [] ->
  length order = length bootstrapDisks ->
  NoDup order -> NoDup uuids ->
  (forall uuid, uuid ∈ uuids -> uuid ∈ order) ->
  exists newDisks,
    loadFormatXL bootstrapDisks = Return (newDisks, None)
    /\ bootstrapDisks ≡ₚ newDisks
    /\ forall f k uuid disk,
         uuids !! f = Some uuid -> order !! k = Some uuid ->
         bootstrapDisks !! f = Some disk -> newDisks !! k = Some disk.
Proof.
  intros Hcarries Hne Hleno Hnd Hndu Hin.
  destruct (carries_manifests _ _ _ Hcarries) as (Hloads & manifests & Hms & Hrel).
  assert (Hlenm : length manifests = length bootstrapDisks).
  { apply (f_equal length) in Hms. by rewrite !length_fmap in Hms. }
  assert (Hmountable : Forall mountable bootstrapDisks).
  { eapply Forall_impl; [exact Hloads|]. intros disk Hl. by left. }
  rewrite (loadFormatXL_mountable _ Hmountable).
  rewrite !classifiedAs_none_of_manifests by done.
  assert (HN : 0 < len bootstrapDisks).
  { unfold len. destruct bootstrapDisks; [done|simpl; lia]. }
  destruct (Z.eqb_spec 0 (len bootstrapDisks)) as [|_]; [lia|].
  assert (HQ : 0 <= len bootstrapDisks - (len bootstrapDisks ÷ 2 + 1)).
  { rewrite Z.quot_div_nonneg by lia.
    Z.to_euclidean_division_equations. lia. }
  destruct (Z.gtb_spec 0 (len bootstrapDisks - (len bootstrapDisks ÷ 2 + 1)));
    [lia|].
  unfold checkThenReorder.
  change (map manifestOf bootstrapDisks) with (manifestOf <$> bootstrapDisks).
  rewrite Hms.
  rewrite (checkFormatXL_pass (Some <$> manifests)).
  2: { eapply healthy_consistent; eauto. lia. }
  cbn [bind]. eapply reorderDisks_healthy; eauto.
  intros ->. destruct bootstrapDisks; [done|discriminate].
Qed.

(** Mount of a healthy deployment whose endpoints are given in canonical
    order: the vector returned is the vector given. *)
Lemma loadFormatXL_in_order (order : list string)
    (bootstrapDisks : list StorageAPI) :
  Forall2 (carries order) bootstrapDisks order ->
  bootstrapDisks <> [] ->
  NoDup order ->
  loadFormatXL bootstrapDisks = Return (bootstrapDisks, None).
Proof.
  intros Hcarries Hne Hnd.
  assert (Hlen : length order = length bootstrapDisks)
    by (symmetry; by eapply Forall2_length).
  destruct (loadFormatXL_healthy order bootstrapDisks order)
    as (newDisks & Hrun & Hperm & Hslots); try done.
  rewrite Hrun. do 2 f_equal.
  apply list_eq_same_length with (length bootstrapDisks); [done| |].
  - symmetry. by apply Permutation_length.
  - intros k disk disk' Hk Hnew Hold.
    destruct (lookup_lt_is_Some_2 order k) as [uuid Hu]; [lia|].
    rewrite (Hslots k k uuid disk' Hu Hu Hold) in Hnew. congruence.
Qed.

(** X10. Mount of a healthy deployment: when every endpoint carries a
    well-formed manifest with the same order of N pairwise distinct
    identities, and the endpoints' identities are pairwise distinct entries
    of that order, [loadFormatXL] succeeds on the endpoints given in any
    bootstrap order, and returns them sorted into canonical order: the slot
    k of the result holds the endpoint whose identity is the entry k of the
    order. *)
Theorem loadFormatXL_remount (order : list string)
    (bootstrapDisks : list StorageAPI) (uuids : list string) :
  Forall2 (carries order) bootstrapDisks uuids ->
  bootstrapDisks <> [] ->
  length order = length bootstrapDisks ->
  NoDup order -> NoDup uuids ->
  (forall uuid, uuid ∈ uuids -> uuid ∈ order) ->
  exists newDisks,
    loadFormatXL bootstrapDisks = Return (newDisks, None)
    /\ bootstrapDisks ≡ₚ newDisks
    /\ forall f k uuid disk,
         uuids !! f = Some uuid -> order !! k = Some uuid ->
         bootstrapDisks !! f = Some disk -> newDisks !! k = Some disk.
Proof. apply loadFormatXL_healthy. Qed.

(** The healthy remount of four endpoints given in the bootstrap order
    [E2, E0, E3, E1]: X10 applies. *)
Lemma loadFormatXL_remount_witness :
  let order := ["id0"; "id1"; "id2"; "id3"] in
  let endpointOf := fun uuid => Some (endpointHolding [jsonOf (xlConfig uuid order)]) in
  exists newDisks,
    loadFormatXL (endpointOf <$> ["id2"; "id0"; "id3"; "id1"])
    = Return (newDisks, None)
    /\ endpointOf <$> ["id2"; "id0"; "id3"; "id1"] ≡ₚ newDisks.
Proof.
  intros order endpointOf.
  destruct (loadFormatXL_remount order
              (endpointOf <$> ["id2"; "id0"; "id3"; "id1"])
              ["id2"; "id0"; "id3"; "id1"])
    as (newDisks & Hrun & Hperm & _).
  - repeat (constructor; [eexists _, _; repeat split; reflexivity|]).
    constructor.
  - discriminate.
  - reflexivity.
  - repeat (apply NoDup_cons; split;
            [intros Hin;
             repeat (apply elem_of_cons in Hin as [Heq|Hin]; [discriminate|]);
             by apply elem_of_nil in Hin|]).
    apply NoDup_nil_2.
  - repeat (apply NoDup_cons; split;
            [intros Hin;
             repeat (apply elem_of_cons in Hin as [Heq|Hin]; [discriminate|]);
             by apply elem_of_nil in Hin|]).
    apply NoDup_nil_2.
  - intros uuid Hin. unfold order. rewrite !elem_of_cons in Hin.
    rewrite !elem_of_cons. tauto.
  - exists newDisks. split; [exact Hrun|exact Hperm].
Defined.

(** ** The first error that is neither Unformatted nor Unreachable *)

Lemma loadFormatXL_load_fatal
    (before : list StorageAPI) (disk : StorageAPI) (after : list StorageAPI)
    (e : error) (u d : Z) :
  Forall mountable before ->
  classifiedAs e disk ->
  e <> errUnformattedDisk -> e <> errDiskNotFound ->
  loadFormatXL_load (before ++ disk :: after) u d = Return (inl e).
Proof.
  intros Hbefore Hdisk Hu Hd. revert u d.
  induction Hbefore as [|b rest Hb _ IH]; intros u d; simpl.
  - unfold classifiedAs in Hdisk. rewrite Hdisk. simpl.
    by rewrite !decide_False.
  - destruct Hb as [[m Hm]|[Hm|Hm]]; unfold classifiedAs in Hm; rewrite Hm; simpl.
    + by rewrite IH.
    + by rewrite IH.
    + by rewrite IH.
Qed.

(** X11. The Mount procedure returns the first loader error, in bootstrap
    order, that is neither Unformatted nor Unreachable, and no endpoint
    vector: whatever the endpoints after it are, and however many endpoints
    before it are Unformatted or Unreachable. *)
Theorem loadFormatXL_first_fatal
    (before : list StorageAPI) (disk : StorageAPI) (after : list StorageAPI)
    (e : error) :
  Forall mountable before ->
  classifiedAs e disk ->
  e <> errUnformattedDisk -> e <> errDiskNotFound ->
  loadFormatXL (before ++ disk :: after) = Return ([], Some e).
Proof.
  intros Hbefore Hdisk Hu Hd. unfold loadFormatXL.
  by rewrite (loadFormatXL_load_fatal _ _ _ _ _ _ Hbefore Hdisk Hu Hd).
Qed.

(** A fleet X11 applies to: two Unreachable endpoints, then one whose
    [format.json] does not decode, then a healthy one. *)
Lemma loadFormatXL_first_fatal_witness :
  loadFormatXL ([Some offlineEndpoint; Some offlineEndpoint]
                ++ Some (endpointHolding [])
                :: [Some (endpointHolding [jsonOf (xlConfig "a" ["a"])])])
  = Return ([], Some (jsonError "unexpected end of JSON input")).
Proof.
  apply loadFormatXL_first_fatal.
  - apply Forall_cons. split; [right; right; reflexivity|].
    apply Forall_cons. split; [right; right; reflexivity|]. apply Forall_nil_2.
  - reflexivity.
  - discriminate.
  - discriminate.
Defined.

Section HealerEdges.

Variable new_identity : nat -> string.

Lemma healFormatXL_load_fatal
    (before : list StorageAPI) (disk : StorageAPI) (after : list StorageAPI)
    (e : error) :
  Forall (fun d => loadsManifest d \/ classifiedAs errUnformattedDisk d) before ->
  classifiedAs e disk ->
  e <> errUnformattedDisk -> e <> errDiskNotFound ->
  healFormatXL_load (before ++ disk :: after) = Return (inl (Some e)).
Proof.
  intros Hbefore Hdisk Hu Hd.
  induction Hbefore as [|b rest Hb _ IH]; simpl.
  - unfold classifiedAs in Hdisk. rewrite Hdisk. simpl.
    by rewrite !decide_False.
  - destruct Hb as [[m Hm]|Hm]; unfold classifiedAs in Hm; rewrite Hm; simpl.
    + by rewrite IH.
    + by rewrite IH.
Qed.

(** X20. The Healer returns the first loader error, in bootstrap order, that
    is neither Unformatted nor Unreachable, when every endpoint before it is
    loaded as a manifest or as Unformatted; it writes nothing and mints
    nothing. *)
Theorem healFormatXL_first_fatal
    (before : list StorageAPI) (disk : StorageAPI) (after : list StorageAPI)
    (e : error) (minted : nat) :
  Forall (fun d => loadsManifest d \/ classifiedAs errUnformattedDisk d) before ->
  classifiedAs e disk ->
  e <> errUnformattedDisk -> e <> errDiskNotFound ->
  healFormatXL new_identity (before ++ disk :: after) minted
  = Return (before ++ disk :: after, minted, Some e).
Proof.
  intros Hbefore Hdisk Hu Hd. unfold healFormatXL.
  by rewrite (healFormatXL_load_fatal _ _ _ _ Hbefore Hdisk Hu Hd).
Qed.

(** X18. On a fleet in which every endpoint gives its manifest the Healer
    returns success at once, writing and minting nothing, and without
    running the Consistency Checker: also when the manifests are
    inconsistent. *)
Theorem healFormatXL_all_present (storageDisks : list StorageAPI) (minted : nat) :
  Forall loadsManifest storageDisks ->
  healFormatXL new_identity storageDisks minted
  = Return (storageDisks, minted, None).
Proof.
  intros Hall. unfold healFormatXL.
  rewrite healFormatXL_load_all.
  2: { eapply Forall_impl; [exact Hall|]. intros d Hd. by left. }
  cbn [bind].
  assert (Hfound : isFormatFound (manifestOf <$> storageDisks) = true).
  { unfold isFormatFound. apply forallb_forall. intros format Hin.
    apply bool_decide_eq_true. apply list_elem_of_In in Hin.
    apply list_elem_of_fmap in Hin as (disk & -> & Hin).
    rewrite Forall_forall in Hall.
    destruct (proj1 (manifestOf_loadsManifest disk) (Hall disk Hin)) as [m ->].
    discriminate. }
  by rewrite Hfound.
Qed.

(** X19. On a fleet of at least one endpoint in which every endpoint is
    Unformatted the Healer does exactly what the Initializer does. *)
Theorem healFormatXL_all_fresh (storageDisks : list StorageAPI) (minted : nat) :
  storageDisks <> [] ->
  Forall (classifiedAs errUnformattedDisk) storageDisks ->
  healFormatXL new_identity storageDisks minted
  = initFormatXL new_identity storageDisks minted.
Proof.
  intros Hne Hall. unfold healFormatXL.
  rewrite healFormatXL_load_all.
  2: { eapply Forall_impl; [exact Hall|]. intros d Hd. by right. }
  cbn [bind].
  assert (Hnone : forall format, format ∈ manifestOf <$> storageDisks -> format = None).
  { intros format Hin. apply list_elem_of_fmap in Hin as (disk & -> & Hin).
    rewrite Forall_forall in Hall. by eapply manifestOf_classified, Hall. }
  rewrite isFormatFound_false.
  2: { destruct storageDisks as [|disk rest]; [done|].
       cbn [fmap list_fmap]. rewrite (Hnone (manifestOf disk)).
       - apply elem_of_cons. by left.
       - apply list_elem_of_fmap_2. apply elem_of_cons. by left. }
  assert (Hnotfound : isFormatNotFound (manifestOf <$> storageDisks) = true).
  { unfold isFormatNotFound. apply forallb_forall. intros format Hin.
    apply bool_decide_eq_true. apply Hnone. by apply list_elem_of_In. }
  by rewrite Hnotfound.
Qed.

End HealerEdges.

(** A fleet X20 applies to: a manifest, a fresh endpoint, then an endpoint
    with user data and no manifest. *)
Lemma healFormatXL_first_fatal_witness :
  let fleet := [Some (endpointHolding [jsonOf (xlConfig "a" ["a"; "b"; "c"])]);
                Some freshEndpoint] ++ Some userDataEndpoint :: [] in
  healFormatXL scenarioUUID fleet 0 = Return (fleet, 0%nat, Some errCorruptedFormat).
Proof.
  intros fleet. apply healFormatXL_first_fatal.
  - apply Forall_cons. split; [left; eexists; reflexivity|].
    apply Forall_cons. split; [right; reflexivity|]. apply Forall_nil_2.
  - reflexivity.
  - discriminate.
  - discriminate.
Defined.

(** A fleet X18 applies to: two endpoints whose manifests carry different
    orders. *)
Lemma healFormatXL_all_present_witness :
  let fleet := [Some (endpointHolding [jsonOf (xlConfig "a" ["a"; "b"])]);
                Some (endpointHolding [jsonOf (xlConfig "b" ["b"; "a"])])] in
  healFormatXL scenarioUUID fleet 0 = Return (fleet, 0%nat, None)
  /\ checkFormatXL (manifestOf <$> fleet)
     = Return (Some (errorString "Inconsistent JBOD found.")).
Proof.
  intros fleet. split; [|reflexivity].
  apply healFormatXL_all_present.
  apply Forall_cons. split; [eexists; reflexivity|].
  apply Forall_cons. split; [eexists; reflexivity|]. apply Forall_nil_2.
Defined.

(** A fleet X19 applies to: three fresh endpoints. *)
Lemma healFormatXL_all_fresh_witness :
  healFormatXL scenarioUUID (replicate 3 (Some freshEndpoint)) 0
  = initFormatXL scenarioUUID (replicate 3 (Some freshEndpoint)) 0.
Proof.
  apply healFormatXL_all_fresh.
  - discriminate.
  - apply Forall_cons. split; [reflexivity|].
    apply Forall_cons. split; [reflexivity|].
    apply Forall_cons. split; [reflexivity|]. apply Forall_nil_2.
Defined.

(** ** Atomic publish: what it writes and what it leaves *)

Lemma formatConfigFile_ne_tmp : formatConfigFile <> formatConfigFileTmp.
Proof. discriminate. Qed.

(** The goroutine of [saveFormatXL] on an endpoint that accepts the
    publish: the temporary file is gone and [format.json] holds the
    encoding. *)
Lemma saveFormatXL_write_healthy (disk : endpoint)
    (format : option formatConfigV1) (files : gmap string bytes) :
  fault disk = None ->
  volumes disk !! minioMetaBucket = Some files ->
  saveFormatXL_write disk format
  = ({| fault := None;
        volumes := <[minioMetaBucket :=
                       <[formatConfigFile := fst (json_Marshal format)]>
                         (delete formatConfigFileTmp files)]> (volumes disk) |},
     None).
Proof.
  intros Hfault Hvol. unfold saveFormatXL_write.
  assert (Hmarshal : json_Marshal format = (fst (json_Marshal format), None))
    by (by destruct format).
  rewrite Hmarshal. generalize (fst (json_Marshal format)). intros buf.
  unfold DeleteFile, AppendFile, RenameFile.
  rewrite Hfault, Hvol. cbn [fault volumes].
  rewrite lookup_insert_eq, lookup_delete_eq. cbn [default app fault volumes].
  rewrite !lookup_insert_eq. f_equal. f_equal.
  rewrite !insert_insert_eq. f_equal.
  by rewrite delete_insert_eq, delete_delete_eq.
Qed.

(** The goroutine on an endpoint that refuses the publish: the endpoint is
    left as it was. *)
Lemma saveFormatXL_write_refused (disk : endpoint)
    (format : option formatConfigV1) (e : error) :
  publishError (Some disk) = Some e ->
  saveFormatXL_write disk format = (disk, Some e).
Proof.
  unfold publishError, saveFormatXL_write. intros Herr.
  assert (Hmarshal : json_Marshal format = (fst (json_Marshal format), None))
    by (by destruct format).
  rewrite Hmarshal. unfold DeleteFile, AppendFile.
  destruct (fault disk) as [e'|] eqn:Hfault.
  - rewrite Hfault. congruence.
  - destruct (volumes disk !! minioMetaBucket) eqn:Hvol; [discriminate|].
    rewrite Hfault, Hvol. congruence.
Qed.

Lemma publishError_accepts (disk : endpoint) :
  publishError (Some disk) = None ->
  fault disk = None /\ exists files, volumes disk !! minioMetaBucket = Some files.
Proof.
  unfold publishError. destruct (fault disk); [discriminate|].
  destruct (volumes disk !! minioMetaBucket); [eauto|discriminate].
Qed.

Lemma saveFormatXL_write_published_state (disk : endpoint)
    (format : option formatConfigV1) :
  saveFormatXL_write disk format
  = (default disk (published (Some disk) format), publishError (Some disk)).
Proof.
  unfold published. destruct (publishError (Some disk)) as [e|] eqn:Herr.
  - by apply saveFormatXL_write_refused.
  - destruct (publishError_accepts _ Herr) as (Hfault & files & Hvol).
    rewrite (saveFormatXL_write_healthy _ _ files) by done.
    by rewrite Hvol.
Qed.

(** The fan-out of [saveFormatXL], endpoint by endpoint. *)
Lemma saveFormatXL_fanout_each
    (storageDisks : list StorageAPI) (formats : list (option formatConfigV1))
    (idx : nat) (disks' : list StorageAPI) (errs : list (option error)) :
  saveFormatXL_fanout storageDisks formats (Z.of_nat idx) = Return (disks', errs) ->
  errs = publishError <$> storageDisks
  /\ length disks' = length storageDisks
  /\ forall i disk, storageDisks !! i = Some disk ->
       disk = None /\ disks' !! i = Some None
       \/ exists format,
            formats !! (idx + i)%nat = Some format
            /\ disks' !! i = Some (published disk format).
Proof.
  revert idx disks' errs.
  induction storageDisks as [|[disk|] rest IH]; intros idx disks' errs H.
  - injection H as <- <-. repeat split; done.
  - cbn [saveFormatXL_fanout] in H.
    apply bind_Return in H as (format & Hformat & H).
    apply index_Return in Hformat as (n & Hn & Hformat).
    apply Nat2Z.inj in Hn. subst n.
    rewrite saveFormatXL_write_published_state in H.
    apply bind_Return in H as ([disks1 errs1] & Hrest & H).
    injection H as <- <-.
    replace (Z.of_nat idx + 1) with (Z.of_nat (S idx)) in Hrest by lia.
    apply IH in Hrest as (-> & Hlen & Heach).
    cbn [fst snd fmap list_fmap length]. split; [done|]. split; [by rewrite Hlen|].
    intros [|i] d Hi.
    + injection Hi as <-. right. exists format. rewrite Nat.add_0_r.
      split; [done|]. cbn [lookup list_lookup]. f_equal.
      unfold published, publishError.
      destruct (fault disk); [done|].
      by destruct (volumes disk !! minioMetaBucket).
    + destruct (Heach i d Hi) as [[-> Hnil]|(f & Hf & Hd)].
      * left. by split.
      * right. exists f. by rewrite <- Nat.add_succ_comm.
  - cbn [saveFormatXL_fanout] in H.
    apply bind_Return in H as ([disks1 errs1] & Hrest & H).
    injection H as <- <-.
    replace (Z.of_nat idx + 1) with (Z.of_nat (S idx)) in Hrest by lia.
    apply IH in Hrest as (-> & Hlen & Heach).
    cbn [fst snd fmap list_fmap length]. split; [done|]. split; [by rewrite Hlen|].
    intros [|i] d Hi.
    + injection Hi as <-. left. by split.
    + destruct (Heach i d Hi) as [[-> Hnil]|(f & Hf & Hd)].
      * left. by split.
      * right. exists f. by rewrite <- Nat.add_succ_comm.
Qed.

Lemma saveFormatXL_result_None (errs : list (option error)) :
  saveFormatXL_result errs = None <-> Forall (fun err => err = None) errs.
Proof.
  induction errs as [|[e|] errs IH]; simpl.
  - split; [constructor|done].
  - split; [discriminate|]. intros H. by apply Forall_cons in H as [? _].
  - rewrite IH. split; [by constructor|]. intros H. by apply Forall_cons in H as [_ ?].
Qed.









Lemma published_again (disk : endpoint) (format : option formatConfigV1) d' :
  publishError (Some disk) = None ->
  published (Some disk) format = Some d' ->
  publishError (Some d') = None /\ published (Some d') format = Some d'.
Proof.
  intros Herr Hpub. unfold published in Hpub. rewrite Herr in Hpub.
  injection Hpub as <-.
  assert (Herr' : publishError
                    (Some {| fault := None;
                             volumes :=
                               <[minioMetaBucket :=
                                   <[formatConfigFile := fst (json_Marshal format)]>
                                     (delete formatConfigFileTmp
                                        (default ∅ (volumes disk !! minioMetaBucket)))]>
                                 (volumes disk) |}) = None).
  { unfold publishError. cbn [fault volumes]. by rewrite lookup_insert_eq. }
  split; [exact Herr'|].
  unfold published. rewrite Herr'. cbn [fault volumes].
  rewrite lookup_insert_eq. cbn [default]. do 2 f_equal.
  rewrite insert_insert_eq. f_equal. unfold id.
  rewrite delete_insert_ne by (intros Heq; by apply formatConfigFile_ne_tmp).
  by rewrite delete_delete_eq, insert_insert_eq.
Qed.

Lemma saveFormatXL_fanout_returns
    (storageDisks : list StorageAPI) (formats : list (option formatConfigV1))
    (idx : nat) :
  (forall i disk, storageDisks !! i = Some (Some disk) ->
     is_Some (formats !! (idx + i)%nat)) ->
  exists disks' errs,
    saveFormatXL_fanout storageDisks formats (Z.of_nat idx) = Return (disks', errs).
Proof.
  revert idx. induction storageDisks as [|[disk|] rest IH]; intros idx Hformats.
  - by eexists _, _.
  - cbn [saveFormatXL_fanout].
    destruct (Hformats 0%nat disk eq_refl) as [format Hformat].
    rewrite Nat.add_0_r in Hformat. rewrite (index_nat _ _ _ Hformat). cbn [bind].
    destruct (saveFormatXL_write disk format) as [disk' err].
    replace (Z.of_nat idx + 1) with (Z.of_nat (S idx)) by lia.
    destruct (IH (S idx)) as (disks' & errs & ->).
    { intros i d Hi. rewrite Nat.add_succ_comm. by apply (Hformats (S i) d). }
    by eexists _, _.
  - cbn [saveFormatXL_fanout].
    replace (Z.of_nat idx + 1) with (Z.of_nat (S idx)) by lia.
    destruct (IH (S idx)) as (disks' & errs & ->).
    { intros i d Hi. rewrite Nat.add_succ_comm. by apply (Hformats (S i) d). }
    by eexists _, _.
Qed.

(** X14. [saveFormatXL] is idempotent: after a publish that returned nil,
    publishing the same format configs again returns nil and leaves every
    endpoint exactly as the first publish left it. *)
Theorem saveFormatXL_idempotent
    (storageDisks : list StorageAPI) (formats : list (option formatConfigV1))
    (disks' : list StorageAPI) :
  saveFormatXL storageDisks formats = Return (disks', None) ->
  saveFormatXL disks' formats = Return (disks', None).
Proof.
  unfold saveFormatXL. intros H.
  apply bind_Return in H as ([disks1 errs] & Hfan & H).
  injection H as <- Hres. cbn [fst snd] in *.
  change 0 with (Z.of_nat 0) in *.
  apply saveFormatXL_fanout_each in Hfan as (-> & Hlen & Heach).
  apply saveFormatXL_result_None in Hres. rewrite Forall_fmap in Hres.
  rewrite Forall_lookup in Hres.
  (* what the first publish left at each slot *)
  assert (Hfirst : forall i disk1, disks1 !! i = Some disk1 ->
            (disk1 = None
             \/ exists format, formats !! i = Some format
                               /\ published disk1 format = disk1)
            /\ publishError disk1 = None).
  { intros i disk1 Hi. unfold StorageAPI in *.
    destruct (lookup_lt_is_Some_2 storageDisks i) as [disk Hdisk].
    { rewrite <- Hlen. by eapply lookup_lt_Some. }
    specialize (Hres i disk Hdisk). simpl in Hres.
    destruct (Heach i disk Hdisk) as [[-> Hnil]|(format & Hformat & Hpub)].
    - assert (disk1 = None) by congruence. subst. split; [by left|done].
    - simpl in Hformat. rewrite Hpub in Hi. injection Hi as <-.
      destruct disk as [d|]; [|split; [by left|done]].
      destruct (published (Some d) format) as [d'|] eqn:Hd'.
      2: { unfold published in Hd'. by rewrite Hres in Hd'. }
      destruct (published_again _ _ _ Hres Hd') as [Herr' Hagain].
      split; [|done]. right. exists format. by split. }
  destruct (saveFormatXL_fanout_returns disks1 formats 0) as (disks2 & errs2 & Hrun).
  { intros i d Hi. destruct (Hfirst i _ Hi) as [[?|(format & Hf & _)] _];
      [discriminate|]. simpl. eauto. }
  rewrite Hrun. cbn [bind fst snd].
  apply saveFormatXL_fanout_each in Hrun as (-> & Hlen2 & Heach2).
  unfold StorageAPI in *. f_equal. f_equal.
  - apply list_eq. intros i.
    destruct (disks1 !! i) as [disk1|] eqn:Hi.
    + destruct (Heach2 i disk1 Hi) as [[-> ->]|(format & Hformat & ->)]; [done|].
      f_equal. destruct (Hfirst i disk1 Hi) as [[->|(f & Hf & Hpub)] _]; [done|].
      simpl in Hformat. congruence.
    + apply lookup_ge_None. rewrite Hlen2. by apply lookup_ge_None.
  - apply saveFormatXL_result_None. rewrite Forall_fmap. apply Forall_lookup.
    intros i disk1 Hi. by destruct (Hfirst i disk1 Hi) as [_ ?].
Qed.

(** A publish X14 applies to. *)
Lemma saveFormatXL_idempotent_witness :
  let order := ["a"; "b"] in
  exists disks',
    saveFormatXL [Some freshEndpoint; Some freshEndpoint]
                 [Some (xlConfig "a" order); Some (xlConfig "b" order)]
    = Return (disks', None)
    /\ saveFormatXL disks'
                    [Some (xlConfig "a" order); Some (xlConfig "b" order)]
       = Return (disks', None).
Proof.
  intros order.
  assert (Hrun : exists disks',
             saveFormatXL [Some freshEndpoint; Some freshEndpoint]
                          [Some (xlConfig "a" order); Some (xlConfig "b" order)]
             = Return (disks', None))
    by (vm_compute; eexists; reflexivity).
  destruct Hrun as [disks' Hrun]. exists disks'. split; [exact Hrun|].
  exact (saveFormatXL_idempotent _ _ _ Hrun).
Defined.

(** ** Initializer, nil handles included *)

Lemma handles_cons_None (storageDisks : list StorageAPI) :
  handles (None :: storageDisks) = handles storageDisks.
Proof.
  unfold handles. rewrite filter_cons.
  destruct (decide (is_Some (None : StorageAPI))) as [[? ?]|]; [discriminate|done].
Qed.

Lemma handles_cons_Some (disk : endpoint) (storageDisks : list StorageAPI) :
  handles (Some disk :: storageDisks) = S (handles storageDisks).
Proof.
  unfold handles. rewrite filter_cons.
  destruct (decide (is_Some (Some disk))) as [|Hn]; [done|].
  destruct Hn. eauto.
Qed.

Section InitializerRun.

Variable new_identity : nat -> string.

(** The first loop of [initFormatXL]: the slot of a nil handle keeps its
    zero values; the slot of the k-th handle that is not nil gets the k-th
    identity minted. *)
Lemma initFormatXL_alloc_spec (storageDisks : list StorageAPI) (minted : nat) :
  exists formats jbod,
    initFormatXL_alloc new_identity storageDisks minted
    = (formats, jbod, (minted + handles storageDisks)%nat)
    /\ length formats = length storageDisks
    /\ length jbod = length storageDisks
    /\ forall i disk, storageDisks !! i = Some disk ->
         let uuid := new_identity (minted + handles (take i storageDisks)) in
         match disk with
         | None => formats !! i = Some None /\ jbod !! i = Some ""
         | Some _ => formats !! i = Some (Some (xlConfig uuid []))
                     /\ jbod !! i = Some uuid
         end.
Proof.
  revert minted. induction storageDisks as [|[disk|] rest IH]; intros minted.
  - exists [], []. unfold handles. simpl. rewrite Nat.add_0_r.
    repeat split; try done; intros i disk Hi; by rewrite lookup_nil in Hi.
  - destruct (IH (S minted)) as (formats & jbod & Halloc & Hlf & Hlj & Hslots).
    cbn [initFormatXL_alloc getUUID]. rewrite Halloc.
    eexists _, _. split.
    { rewrite handles_cons_Some.
      replace (minted + S (handles rest))%nat
        with (S minted + handles rest)%nat by lia.
      reflexivity. }
    split; [simpl; by rewrite Hlf|]. split; [simpl; by rewrite Hlj|].
    intros [|i] d Hi; cbn [take lookup list_lookup].
    + injection Hi as <-. unfold handles. simpl. rewrite Nat.add_0_r.
      by split.
    + rewrite handles_cons_Some. specialize (Hslots i d Hi). simpl in Hslots.
      replace (minted + S (handles (take i rest)))%nat
        with (S minted + handles (take i rest))%nat by lia.
      exact Hslots.
  - destruct (IH minted) as (formats & jbod & Halloc & Hlf & Hlj & Hslots).
    cbn [initFormatXL_alloc]. rewrite Halloc.
    eexists _, _. split; [by rewrite handles_cons_None|].
    split; [simpl; by rewrite Hlf|]. split; [simpl; by rewrite Hlj|].
    intros [|i] d Hi; cbn [take lookup list_lookup].
    + injection Hi as <-. by split.
    + rewrite handles_cons_None. exact (Hslots i d Hi).
Qed.

(** The second loop of [initFormatXL] on the format configs of the first. *)
Lemma initFormatXL_jbod_spec (storageDisks : list StorageAPI)
    (formats : list (option formatConfigV1)) (jbod : list string) :
  length formats = length storageDisks ->
  (forall i disk, storageDisks !! i = Some (Some disk) ->
     exists uuid, formats !! i = Some (Some (xlConfig uuid []))) ->
  exists formats',
    initFormatXL_jbod storageDisks formats jbod = Return formats'
    /\ length formats' = length storageDisks
    /\ forall i disk, storageDisks !! i = Some disk ->
         match disk with
         | None => formats' !! i = formats !! i
         | Some _ => exists uuid,
                       formats !! i = Some (Some (xlConfig uuid []))
                       /\ formats' !! i = Some (Some (xlConfig uuid jbod))
         end.
Proof.
  revert formats.
  induction storageDisks as [|[disk|] rest IH]; intros [|format formats] Hlen Hall;
    try discriminate.
  - exists []. repeat split; try done; intros i disk Hi; by rewrite lookup_nil in Hi.
  - destruct (Hall 0%nat disk eq_refl) as [uuid Hfirst].
    injection Hfirst as ->.
    destruct (IH formats) as (formats' & Hrun & Hlen' & Hslots).
    { simpl in Hlen. lia. }
    { intros i d Hi. exact (Hall (S i) d Hi). }
    cbn [initFormatXL_jbod setJBOD xlConfig deref bind XL Version Format FS
         xlVersion Disk].
    rewrite Hrun. cbn [bind]. eexists. split; [reflexivity|].
    split; [simpl; by rewrite Hlen'|].
    intros [|i] d Hi.
    + injection Hi as <-. exists uuid. by split.
    + exact (Hslots i d Hi).
  - destruct (IH formats) as (formats' & Hrun & Hlen' & Hslots).
    { simpl in Hlen. lia. }
    { intros i d Hi. exact (Hall (S i) d Hi). }
    cbn [initFormatXL_jbod]. rewrite Hrun. cbn [bind].
    eexists. split; [reflexivity|]. split; [simpl; by rewrite Hlen'|].
    intros [|i] d Hi.
    + injection Hi as <-. done.
    + exact (Hslots i d Hi).
Qed.

(** What a successful Initializer run leaves, nil handles included. *)
Lemma initFormatXL_run (storageDisks : list StorageAPI) (minted : nat)
    (disks' : list StorageAPI) (minted' : nat) :
  initFormatXL new_identity storageDisks minted
  = Return (disks', minted', None) ->
  exists jbod,
    length jbod = length storageDisks
    /\ length disks' = length storageDisks
    /\ minted' = (minted + handles storageDisks)%nat
    /\ forall i disk, storageDisks !! i = Some disk ->
         let uuid := new_identity (minted + handles (take i storageDisks)) in
         match disk with
         | None => disks' !! i = Some None /\ jbod !! i = Some ""
         | Some _ =>
             jbod !! i = Some uuid
             /\ exists disk',
                  disks' !! i = Some (Some disk')
                  /\ loadFormat (Some disk')
                     = Return (Some (xlConfig uuid jbod), None)
         end.
Proof.
  intros Hrun. unfold initFormatXL in Hrun.
  destruct (initFormatXL_alloc_spec storageDisks minted)
    as (formats & jbod & Halloc & Hlf & Hlj & Hslots).
  rewrite Halloc in Hrun.
  destruct (initFormatXL_jbod_spec storageDisks formats jbod Hlf)
    as (formats' & Hjbod & Hlf' & Hslots').
  { intros i disk Hi. specialize (Hslots i _ Hi). simpl in Hslots.
    destruct Hslots as [Hf _]. eauto. }
  rewrite Hjbod in Hrun. cbn [bind] in Hrun.
  apply bind_Return in Hrun as ([disks1 err] & Hsave & Hrun).
  injection Hrun as <- <- ->.
  apply saveFormatXL_published in Hsave as (Hlen & Hnil & Hpublished).
  exists jbod. split; [done|]. split; [done|]. split; [done|].
  intros i [disk|] Hi uuid.
  - destruct (Hslots i _ Hi) as [Hf Hj]. split; [exact Hj|].
    destruct (Hpublished i disk Hi) as (format & disk' & Hformat & Hdisk' & Hread).
    destruct (Hslots' i _ Hi) as (uuid' & Hf0 & Hf').
    assert (uuid' = new_identity (minted + handles (take i storageDisks))).
    { rewrite Hf in Hf0. by injection Hf0. }
    subst uuid'. rewrite Hf' in Hformat. injection Hformat as <-.
    exists disk'. split; [done|]. by apply loadFormat_published.
  - destruct (Hslots i _ Hi) as [_ Hj]. split; [by apply Hnil|exact Hj].
Qed.

(** X15. After a successful Initializer run on a vector that may hold nil
    handles: nil handles stay nil and their entry of the order is the empty
    string; one identity is minted per handle that is not nil, in the order
    of the vector; every endpoint's manifest has version "1", format "xl",
    xl version "1", the endpoint's identity, and the one order of length N
    with that identity at the endpoint's index. *)
Theorem initFormatXL_with_nil_handles (storageDisks : list StorageAPI)
    (minted : nat) (disks' : list StorageAPI) (minted' : nat) :
  initFormatXL new_identity storageDisks minted
  = Return (disks', minted', None) ->
  exists jbod,
    length jbod = length storageDisks
    /\ length disks' = length storageDisks
    /\ minted' = (minted + handles storageDisks)%nat
    /\ forall i disk, storageDisks !! i = Some disk ->
         let uuid := new_identity (minted + handles (take i storageDisks)) in
         match disk with
         | None => disks' !! i = Some None /\ jbod !! i = Some ""
         | Some _ =>
             jbod !! i = Some uuid
             /\ exists disk',
                  disks' !! i = Some (Some disk')
                  /\ loadFormat (Some disk')
                     = Return (Some (xlConfig uuid jbod), None)
         end.
Proof. apply initFormatXL_run. Qed.

End InitializerRun.

(** A run X15 applies to: an endpoint, a nil handle, an endpoint. *)
Lemma initFormatXL_with_nil_handles_witness :
  exists disks' (jbod : list string),
    initFormatXL scenarioUUID [Some freshEndpoint; None; Some freshEndpoint] 5
    = Return (disks', 7%nat, None)
    /\ length jbod = 3%nat.
Proof.
  assert (Hrun : exists disks',
             initFormatXL scenarioUUID
                          [Some freshEndpoint; None; Some freshEndpoint] 5
             = Return (disks', 7%nat, None))
    by (vm_compute; eexists; reflexivity).
  destruct Hrun as [disks' Hrun].
  destruct (initFormatXL_with_nil_handles _ _ _ _ _ Hrun) as (jbod & Hlen & _).
  exists disks', jbod. split; [exact Hrun|exact Hlen].
Defined.

(** ** Initializer, then Mount *)

Lemma handles_all (endpoints : list endpoint) :
  handles (Some <$> endpoints) = length endpoints.
Proof.
  induction endpoints as [|disk rest IH]; [reflexivity|].
  cbn [fmap list_fmap]. change (list_fmap _ _ Some rest) with (Some <$> rest).
  rewrite handles_cons_Some. simpl. by rewrite IH.
Qed.

(** X21. Initializer, then Mount: after a successful Initializer run on a
    non-empty vector of endpoints (no nil handle), for which the UUID
    generator gave pairwise distinct identities, [loadFormatXL] on the
    endpoints as the Initializer left them succeeds and returns them in
    the order they were given in. *)
Theorem initFormatXL_then_mounts (new_identity : nat -> string)
    (endpoints : list endpoint) (minted : nat)
    (disks' : list StorageAPI) (minted' : nat) :
  endpoints <> [] ->
  (forall i j, (i < length endpoints)%nat -> (j < length endpoints)%nat ->
     new_identity (minted + i)%nat = new_identity (minted + j)%nat -> i = j) ->
  initFormatXL new_identity (Some <$> endpoints) minted
  = Return (disks', minted', None) ->
  loadFormatXL disks' = Return (disks', None).
Proof.
  intros Hne Hinj Hrun.
  apply initFormatXL_run in Hrun as (jbod & Hlj & Hld & _ & Hslots).
  rewrite length_fmap in Hlj, Hld.
  assert (Hat : forall i, (i < length endpoints)%nat ->
            jbod !! i = Some (new_identity (minted + i)%nat)
            /\ exists disk',
                 disks' !! i = Some (Some disk')
                 /\ loadFormat (Some disk')
                    = Return (Some (xlConfig (new_identity (minted + i)%nat) jbod),
                              None)).
  { intros i Hi.
    destruct (lookup_lt_is_Some_2 endpoints i Hi) as [disk Hdisk].
    specialize (Hslots i (Some disk)). cbn zeta beta iota in Hslots.
    rewrite <- fmap_take, handles_all, length_take in Hslots.
    replace (i `min` length endpoints)%nat with i in Hslots by lia.
    apply Hslots. by rewrite list_lookup_fmap, Hdisk. }
  apply loadFormatXL_in_order with jbod.
  - apply Forall2_same_length_lookup_2; [lia|].
    intros i disk uuid Hdisk Huuid.
    destruct (Hat i) as (Hj & disk' & Hd & Hload).
    { apply lookup_lt_Some in Huuid. lia. }
    unfold StorageAPI in *.
    assert (disk = Some disk') by congruence. subst disk.
    assert (uuid = new_identity (minted + i)%nat) by congruence. subst uuid.
    eexists _, _. repeat split; [exact Hload|..]; reflexivity.
  - intros ->. destruct endpoints; [done|discriminate].
  - apply NoDup_alt. intros i j uuid Hi Hj.
    assert (Hilt : (i < length endpoints)%nat)
      by (apply lookup_lt_Some in Hi; lia).
    assert (Hjlt : (j < length endpoints)%nat)
      by (apply lookup_lt_Some in Hj; lia).
    destruct (Hat i Hilt) as (Hi' & _). destruct (Hat j Hjlt) as (Hj' & _).
    apply Hinj; congruence.
Qed.

(** A run X21 applies to: the Initializer on three fresh endpoints. *)
Lemma initFormatXL_then_mounts_witness :
  exists disks',
    initFormatXL scenarioUUID (Some <$> replicate 3 freshEndpoint) 0
    = Return (disks', 3%nat, None)
    /\ loadFormatXL disks' = Return (disks', None).
Proof.
  assert (Hrun : exists disks',
             initFormatXL scenarioUUID (Some <$> replicate 3 freshEndpoint) 0
             = Return (disks', 3%nat, None))
    by (vm_compute; eexists; reflexivity).
  destruct Hrun as [disks' Hrun]. exists disks'. split; [exact Hrun|].
  apply (initFormatXL_then_mounts scenarioUUID (replicate 3 freshEndpoint) 0
                                  disks' 3).
  - discriminate.
  - intros i j Hi Hj. simpl in Hi, Hj.
    destruct i as [|[|[|i]]]; [| | |lia];
      (destruct j as [|[|[|j]]]; [| | |lia]);
      vm_compute; intros Heq; first [reflexivity|discriminate].
  - exact Hrun.
Defined.

(** ** Healer, then Mount *)

Lemma missing_cons_None (formatConfigs : list (option formatConfigV1)) :
  missing (None :: formatConfigs) = S (missing formatConfigs).
Proof. unfold missing. rewrite filter_cons. by rewrite decide_True. Qed.

Lemma missing_cons_Some (format : formatConfigV1)
    (formatConfigs : list (option formatConfigV1)) :
  missing (Some format :: formatConfigs) = missing formatConfigs.
Proof. unfold missing. rewrite filter_cons. by rewrite decide_False. Qed.

Lemma missing_take_lt (formatConfigs : list (option formatConfigV1))
    (i j : nat) :
  formatConfigs !! i = Some None -> (i < j)%nat ->
  (missing (take i formatConfigs) < missing (take j formatConfigs))%nat.
Proof.
  revert i j. induction formatConfigs as [|format rest IH]; intros i j Hi Hij.
  - by rewrite lookup_nil in Hi.
  - destruct j as [|j]; [lia|]. destruct i as [|i].
    + injection Hi as ->. cbn [take]. rewrite missing_cons_None.
      unfold missing at 1. simpl. lia.
    + cbn [take]. specialize (IH i j Hi ltac:(lia)).
      destruct format as [format|].
      * by rewrite !missing_cons_Some.
      * rewrite !missing_cons_None. lia.
Qed.

Lemma missing_take_total (formatConfigs : list (option formatConfigV1))
    (i : nat) :
  formatConfigs !! i = Some None ->
  (missing (take i formatConfigs) < missing formatConfigs)%nat.
Proof.
  intros Hi. rewrite <- (take_ge formatConfigs (length formatConfigs)) at 2
    by lia.
  apply missing_take_lt; [done|]. by eapply lookup_lt_Some.
Qed.

Section HealerOrder.

Variable new_identity : nat -> string.

(** Minting gives the k-th slot without a manifest the k-th identity
    minted. *)
Lemma healFormatXL_mint_fresh
    (formatConfigs : list (option formatConfigV1)) (idx : nat)
    (newJBOD : list string) (minted : nat)
    (newJBOD' : list string) (minted' : nat) :
  healFormatXL_mint new_identity formatConfigs (Z.of_nat idx) newJBOD minted
  = Return (newJBOD', minted') ->
  minted' = (minted + missing formatConfigs)%nat
  /\ forall i, formatConfigs !! i = Some None ->
       newJBOD' !! (idx + i)%nat
       = Some (new_identity (minted + missing (take i formatConfigs))).
Proof.
  revert idx newJBOD minted.
  induction formatConfigs as [|[format|] rest IH];
    intros idx newJBOD minted H; cbn [healFormatXL_mint] in H.
  - injection H as <- <-. split; [unfold missing; simpl; lia|].
    intros i Hi. by rewrite lookup_nil in Hi.
  - replace (Z.of_nat idx + 1) with (Z.of_nat (S idx)) in H by lia.
    apply IH in H as (Hminted & Hat).
    split; [by rewrite missing_cons_Some|].
    intros [|i] Hi; [discriminate|].
    cbn [take]. rewrite missing_cons_Some, <- Nat.add_succ_comm.
    by apply Hat.
  - cbn [getUUID] in H.
    apply bind_Return in H as (newJBOD1 & Hassign & H).
    unfold assign in Hassign.
    destruct ((0 <=? Z.of_nat idx) && (Z.of_nat idx <? len newJBOD)) eqn:Hin;
      [|discriminate].
    injection Hassign as <-. rewrite Nat2Z.id in H.
    replace (Z.of_nat idx + 1) with (Z.of_nat (S idx)) in H by lia.
    pose proof H as Hkeeps.
    apply healFormatXL_mint_spec in Hkeeps as (_ & Hbefore & _).
    apply IH in H as (Hminted & Hat).
    split; [rewrite missing_cons_None; lia|].
    intros [|i] Hi.
    + rewrite Nat.add_0_r, Hbefore by lia.
      unfold missing. simpl. rewrite Nat.add_0_r.
      apply list_lookup_insert_eq.
      apply andb_true_iff in Hin as [_ Hlt]. unfold len in Hlt. lia.
    + cbn [take]. rewrite missing_cons_None, <- Nat.add_succ_comm.
      rewrite (Hat i Hi). do 2 f_equal. lia.
Qed.

(** The configs the Healer collects have the version fields of the
    manifest they were made from, or of the reference. *)
Lemma healFormatXL_collect_fields
    (referenceConfig : formatConfigV1) (referenceXL : xlFormat)
    (newJBOD : list string) (formatConfigs : list (option formatConfigV1))
    (idx : Z) (newFormatConfigs : list (option formatConfigV1)) :
  (forall format, Some format ∈ formatConfigs ->
     exists xl, XL format = Some xl /\ Version format = "1"
                /\ Format format = "xl" /\ xlVersion xl = "1") ->
  Version referenceConfig = "1" -> Format referenceConfig = "xl" ->
  xlVersion referenceXL = "1" ->
  healFormatXL_collect referenceConfig referenceXL newJBOD formatConfigs idx
  = Return newFormatConfigs ->
  forall i config, newFormatConfigs !! i = Some (Some config) ->
    Version config = "1" /\ Format config = "xl"
    /\ exists xl, XL config = Some xl /\ xlVersion xl = "1".
Proof.
  intros Hfields HV HF HxV. revert idx newFormatConfigs.
  induction formatConfigs as [|[format|] rest IH];
    intros idx newFormatConfigs H; cbn [healFormatXL_collect] in H.
  - injection H as <-. intros i config Hi. by rewrite lookup_nil in Hi.
  - apply bind_Return in H as (xl & Hxl & H).
    apply bind_Return in H as (disk & Hdisk & H).
    apply bind_Return in H as (configs & Hrest & H). injection H as <-.
    destruct (Hfields format) as (xl' & HXL & HV' & HF' & HxV').
    { apply elem_of_cons. by left. }
    rewrite HXL in Hxl. injection Hxl as <-.
    intros [|i] config Hi.
    + injection Hi as <-. cbn [Version Format XL].
      split; [done|]. split; [done|]. eexists. split; [reflexivity|done].
    + eapply IH; [|exact Hrest|exact Hi].
      intros format' Hin. apply Hfields. apply elem_of_cons. by right.
  - apply bind_Return in H as (disk & Hdisk & H).
    apply bind_Return in H as (configs & Hrest & H). injection H as <-.
    intros [|i] config Hi.
    + injection Hi as <-. cbn [Version Format XL].
      split; [done|]. split; [done|]. eexists. split; [reflexivity|done].
    + eapply IH; [|exact Hrest|exact Hi].
      intros format' Hin. apply Hfields. apply elem_of_cons. by right.
Qed.

(** What a successful Healer run leaves, on a fleet in which every endpoint
    is loaded as a manifest or as Unformatted, with at least one of each. *)
Lemma healFormatXL_run
    (storageDisks : list StorageAPI) (minted : nat)
    (healed : list StorageAPI) (minted' : nat) (present : formatConfigV1) :
  Forall (fun d => loadsManifest d \/ classifiedAs errUnformattedDisk d)
         storageDisks ->
  Some present ∈ manifestOf <$> storageDisks ->
  None ∈ manifestOf <$> storageDisks ->
  healFormatXL new_identity storageDisks minted
  = Return (healed, minted', None) ->
  exists newJBOD,
    length newJBOD = length storageDisks
    /\ length healed = length storageDisks
    /\ length (referenceOrder storageDisks) = length storageDisks
    /\ minted' = (minted + missing (manifestOf <$> storageDisks))%nat
    /\ Forall2 (carries newJBOD) healed newJBOD
    /\ forall i disk, storageDisks !! i = Some disk ->
         newJBOD !! i
         = match manifestOf disk with
           | Some _ => referenceOrder storageDisks !! i
           | None =>
               Some (new_identity
                       (minted
                        + missing (take i (manifestOf <$> storageDisks))))
           end.
Proof.
  intros Hall Hpresent Habsent Hrun. unfold healFormatXL in Hrun.
  rewrite (healFormatXL_load_all _ Hall) in Hrun. cbn [bind] in Hrun.
  rewrite (isFormatFound_false _ Habsent) in Hrun.
  rewrite (isFormatNotFound_false _ _ Hpresent) in Hrun.
  apply bind_Return in Hrun as ([e|] & Hcheck & Hrun).
  { injection Hrun as _ _ Herr. discriminate. }
  destruct (healFormatXL_reference_spec _ _ Hpresent)
    as (referenceConfig & Href & Hmem).
  rewrite Href in Hrun. cbn [deref bind] in Hrun.
  destruct (checkFormatXL_accepted _ Hcheck) as [Hfields _].
  destruct (Hfields _ Hmem) as (referenceXL & HXL & HV & HF & HxV & Hlen).
  rewrite HXL in Hrun. cbn [deref bind] in Hrun.
  apply bind_Return in Hrun as ([newJBOD minted1] & Hmint & Hrun).
  apply bind_Return in Hrun as (newFormatConfigs & Hcollect & Hrun).
  apply bind_Return in Hrun as ([saved err] & Hsave & Hrun).
  injection Hrun as <- <- ->.
  change 0 with (Z.of_nat 0) in Hmint.
  pose proof Hmint as Hfresh.
  apply healFormatXL_mint_spec in Hmint as (Hlen' & _ & Hkept).
  apply healFormatXL_mint_fresh in Hfresh as (Hminted & Hfresh).
  assert (Hversions : forall i config,
            newFormatConfigs !! i = Some (Some config) ->
            Version config = "1" /\ Format config = "xl"
            /\ exists xl, XL config = Some xl /\ xlVersion xl = "1").
  { eapply healFormatXL_collect_fields; [|exact HV|exact HF|exact HxV|exact Hcollect].
    intros format Hin.
    destruct (Hfields format Hin) as (xl & ? & ? & ? & ? & _). eauto. }
  change 0 with (Z.of_nat 0) in Hcollect.
  apply healFormatXL_collect_spec in Hcollect as (Hlenc & Hcollected).
  apply saveFormatXL_published in Hsave as (Hlens & _ & Hpublished).
  unfold len in Hlen. rewrite !length_fmap in *.
  assert (Horder : referenceOrder storageDisks = JBOD referenceXL).
  { unfold referenceOrder, orderOf. by rewrite Href, HXL. }
  assert (Hendpoint : forall i disk, storageDisks !! i = Some disk ->
            exists d, disk = Some d).
  { intros i disk Hi. rewrite Forall_lookup in Hall.
    specialize (Hall i disk Hi). destruct disk as [d|]; [eauto|].
    destruct Hall as [[format Hload]|Hload]; discriminate. }
  exists newJBOD. split; [lia|]. split; [done|].
  split; [rewrite Horder; lia|]. split; [done|]. split.
  - apply Forall2_same_length_lookup_2; [simpl in *; lia|].
    intros i disk1 uuid Hdisk1 Huuid.
    destruct (lookup_lt_is_Some_2 storageDisks i) as [disk Hi].
    { apply lookup_lt_Some in Huuid. lia. }
    destruct (Hendpoint i disk Hi) as [d ->].
    destruct (Hpublished i d Hi) as (format & disk' & Hformat & Hdisk' & Hread).
    destruct (Hcollected i) as (config & Hconfig & Horderc & Hidentity).
    { apply lookup_lt_Some in Hi. lia. }
    rewrite Hconfig in Hformat. injection Hformat as <-.
    destruct (Hversions i config Hconfig) as (HVc & HFc & xl & HXLc & HxVc).
    unfold StorageAPI in *.
    assert (disk1 = Some disk') by congruence. subst disk1.
    simpl in Hidentity.
    assert (uuid = identityOf config) by congruence. subst uuid.
    exists config, xl. unfold identityOf, orderOf in *. rewrite HXLc in *.
    repeat split; try done. by apply loadFormat_published.
  - intros i disk Hi.
    destruct (manifestOf disk) as [old|] eqn:Hold.
    + rewrite Horder. apply (Hkept i old).
      by rewrite list_lookup_fmap, Hi, <- Hold.
    + apply (Hfresh i). by rewrite list_lookup_fmap, Hi, <- Hold.
Qed.

(** X17. Healer, then Mount: on a fleet in which every endpoint is loaded
    as a manifest or as Unformatted, with at least one of each, whose
    reference order has no duplicates, and for which the UUID generator
    gives pairwise distinct identities that are not in the reference order:
    after a successful Healer run, [loadFormatXL] on the healed endpoints
    succeeds and returns them in the bootstrap order they were healed in. *)
Theorem healFormatXL_then_mounts
    (storageDisks : list StorageAPI) (minted : nat)
    (healed : list StorageAPI) (minted' : nat) (present : formatConfigV1) :
  Forall (fun d => loadsManifest d \/ classifiedAs errUnformattedDisk d)
         storageDisks ->
  Some present ∈ manifestOf <$> storageDisks ->
  None ∈ manifestOf <$> storageDisks ->
  NoDup (referenceOrder storageDisks) ->
  (forall k, (k < missing (manifestOf <$> storageDisks))%nat ->
     new_identity (minted + k) ∉ referenceOrder storageDisks) ->
  (forall k k', (k < missing (manifestOf <$> storageDisks))%nat ->
     (k' < missing (manifestOf <$> storageDisks))%nat ->
     new_identity (minted + k) = new_identity (minted + k') -> k = k') ->
  healFormatXL new_identity storageDisks minted
  = Return (healed, minted', None) ->
  loadFormatXL healed = Return (healed, None).
Proof.
  intros Hall Hpresent Habsent Hnd Hnew Hinj Hrun.
  destruct (healFormatXL_run _ _ _ _ _ Hall Hpresent Habsent Hrun)
    as (newJBOD & Hlen & Hlenh & Hlenr & _ & Hcarries & Hat).
  apply loadFormatXL_in_order with newJBOD; [done| |].
  { intros ->. destruct storageDisks; [|discriminate].
    by apply elem_of_nil in Hpresent. }
  set (formatConfigs := manifestOf <$> storageDisks) in *.
  assert (Hcase : forall i uuid, newJBOD !! i = Some uuid ->
            (formatConfigs !! i = Some None
             /\ uuid = new_identity
                         (minted + missing (take i formatConfigs)))
            \/ ((exists old, formatConfigs !! i = Some (Some old))
                /\ referenceOrder storageDisks !! i = Some uuid)).
  { intros i uuid Hi.
    destruct (lookup_lt_is_Some_2 storageDisks i) as [disk Hdisk].
    { apply lookup_lt_Some in Hi. lia. }
    specialize (Hat i disk Hdisk). unfold formatConfigs in *.
    rewrite list_lookup_fmap, Hdisk. simpl.
    destruct (manifestOf disk) as [old|].
    - right. split; [eauto|congruence].
    - left. split; [done|congruence]. }
  apply NoDup_alt. intros i j uuid Hi Hj.
  destruct (Hcase i uuid Hi) as [[Hin Hui]|[_ Hri]];
    destruct (Hcase j uuid Hj) as [[Hjn Huj]|[_ Hrj]].
  - assert (Heq : missing (take i formatConfigs)
                  = missing (take j formatConfigs)).
    { apply Hinj; [by apply missing_take_total..|congruence]. }
    destruct (Nat.lt_trichotomy i j) as [Hlt|[Heq'|Hlt]]; [|done|].
    + pose proof (missing_take_lt _ _ _ Hin Hlt). lia.
    + pose proof (missing_take_lt _ _ _ Hjn Hlt). lia.
  - exfalso. apply (Hnew (missing (take i formatConfigs))).
    + by apply missing_take_total.
    + rewrite <- Hui. by eapply list_elem_of_lookup_2.
  - exfalso. apply (Hnew (missing (take j formatConfigs))).
    + by apply missing_take_total.
    + rewrite <- Huj. by eapply list_elem_of_lookup_2.
  - by eapply NoDup_lookup.
Qed.

End HealerOrder.

(** A run X17 applies to: two endpoints of the deployment of order
    [a, b, c] and a fresh endpoint in the place of the third. *)
Lemma healFormatXL_then_mounts_witness :
  let order := ["a"; "b"; "c"] in
  let fleet := [Some (endpointHolding [jsonOf (xlConfig "a" order)]);
                Some (endpointHolding [jsonOf (xlConfig "b" order)]);
                Some freshEndpoint] in
  exists healed,
    healFormatXL scenarioUUID fleet 0 = Return (healed, 1%nat, None)
    /\ loadFormatXL healed = Return (healed, None).
Proof.
  intros order fleet.
  assert (Hrun : exists healed,
             healFormatXL scenarioUUID fleet 0 = Return (healed, 1%nat, None))
    by (vm_compute; eexists; reflexivity).
  destruct Hrun as [healed Hrun]. exists healed. split; [exact Hrun|].
  assert (Horder : referenceOrder fleet = order) by reflexivity.
  assert (Hmissing : missing (manifestOf <$> fleet) = 1%nat) by reflexivity.
  apply (healFormatXL_then_mounts scenarioUUID fleet 0 healed 1
                                  (xlConfig "a" order)).
  - apply Forall_cons. split; [left; eexists; reflexivity|].
    apply Forall_cons. split; [left; eexists; reflexivity|].
    apply Forall_cons. split; [right; reflexivity|]. apply Forall_nil_2.
  - apply elem_of_cons. by left.
  - do 2 (apply elem_of_cons; right). apply elem_of_cons. by left.
  - rewrite Horder.
    repeat (apply NoDup_cons; split;
            [intros Hin;
             repeat (apply elem_of_cons in Hin as [Heq|Hin]; [discriminate|]);
             by apply elem_of_nil in Hin|]).
    apply NoDup_nil_2.
  - rewrite Horder, Hmissing. intros k Hk Hin.
    assert (k = 0%nat) by lia. subst k.
    repeat (apply elem_of_cons in Hin as [Heq|Hin]; [discriminate|]).
    by apply elem_of_nil in Hin.
  - rewrite Hmissing. intros k k' Hk Hk' _. lia.
  - exact Hrun.
Defined.

(** ** Per-Endpoint Loader: an endpoint without manifest *)

(** X22. On an endpoint that answers and has no [format.json] (the meta
    volume is missing, or holds no such file), [loadFormat] decides by the
    number of volumes alone: more than one volume is Corrupted, one volume
    or none is Unformatted, whether or not a volume is the meta volume. *)
Theorem loadFormat_without_manifest (disk : endpoint) :
  fault disk = None ->
  (forall files, volumes disk !! minioMetaBucket = Some files ->
     files !! formatConfigFile = None) ->
  loadFormat (Some disk)
  = Return (None,
            Some (if decide (1 < size (volumes disk))%nat
                  then errCorruptedFormat else errUnformattedDisk)).
Proof.
  intros Hfault Hnone.
  assert (Hread : exists e,
            ReadFile disk minioMetaBucket formatConfigFile = ([], Some e)
            /\ (e = errFileNotFound \/ e = errVolumeNotFound)).
  { unfold ReadFile. rewrite Hfault.
    destruct (volumes disk !! minioMetaBucket) as [files|] eqn:Hvol.
    - rewrite (Hnone files eq_refl). eauto.
    - eauto. }
  destruct Hread as (e & Hread & He).
  unfold loadFormat, readAll. cbn [deref bind]. rewrite Hread.
  rewrite decide_True by done. cbn [bind].
  unfold ListVols. rewrite Hfault.
  assert (Hlen : len (map (fun kv : string * gmap string bytes =>
                             {| Name := fst kv |})
                          (map_to_list (volumes disk)))
                 = Z.of_nat (size (volumes disk))).
  { unfold len. by rewrite length_map, length_map_to_list. }
  rewrite Hlen.
  destruct (Z.gtb_spec (Z.of_nat (size (volumes disk))) 1) as [Hgt|Hle].
  - rewrite decide_True by lia. reflexivity.
  - rewrite decide_False by lia. reflexivity.
Qed.

(** An endpoint X22 applies to: one volume of user data and no meta
    volume; the loader takes it for a fresh disk. *)
Lemma loadFormat_without_manifest_witness :
  loadFormat (Some {| fault := None; volumes := {[ "photos" := ∅ ]} |})
  = Return (None, Some errUnformattedDisk).
Proof.
  etransitivity.
  - apply (loadFormat_without_manifest
             {| fault := None; volumes := {[ "photos" := ∅ ]} |}).
    + reflexivity.
    + intros files Hfiles. vm_compute in Hfiles. discriminate.
  - reflexivity.
Defined.
